(** * SolSniper: a shallow embedding of [telethon_client.py]

    The development follows the source file top-down: Python primitives the
    program relies on (string methods, [float], [int], the [re] fragment it
    uses, [str.format_map]), then the field extractor, the strategy records,
    the filter evaluator, the deduplication cache, the message pipeline and
    the conversation handlers.  Theorems come after all definitions.

    Conventions of the model.
    - A Python [str] is a [string] whose characters are code points below
      256.  Case folding, whitespace and word characters are those Python
      assigns to that range.
    - A Python [float] is a rational of [Q]: decimal literals convert
      exactly and arithmetic is exact (binary64 rounding is not modelled).
    - An exception is an explicit result ([None], or a constructor of a
      result type), caught where the source catches it. *)

From Stdlib Require Import String Ascii List ZArith QArith Lia Lqa Bool.
From Stdlib Require Import Permutation Qround Qminmax DecimalString DecimalPos.
From stdpp Require Import gmap strings.

Local Open Scope string_scope.
Local Open Scope Z_scope.

(* stdpp blocks the unfolding of string concatenation; the proofs below
   compute with it. *)
#[local] Arguments String.append !s1 s2 : simpl nomatch.

(** ** Python string primitives *)

Module Py.

Definition code (c : ascii) : N := N_of_ascii c.

Definition in_range (lo hi : N) (c : ascii) : bool :=
  ((lo <=? code c) && (code c <=? hi))%N.

(** [\d] and [str.isdecimal] below code point 256. *)
Definition is_digit (c : ascii) : bool := in_range 48 57 c.

(** [str.isspace], which [str.strip] and the pattern [\s] use. *)
Definition is_space (c : ascii) : bool :=
  in_range 9 13 c || in_range 28 32 c
  || (code c =? 133)%N || (code c =? 160)%N.

Definition is_upper (c : ascii) : bool :=
  in_range 65 90 c || (in_range 192 222 c && negb (code c =? 215)%N).

(** [str.lower] on one character. *)
Definition lower_char (c : ascii) : ascii :=
  if is_upper c then ascii_of_N (code c + 32) else c.

Fixpoint map_str (f : ascii -> ascii) (s : string) : string :=
  match s with
  | EmptyString => EmptyString
  | String c r => String (f c) (map_str f r)
  end.

Fixpoint filter_str (p : ascii -> bool) (s : string) : string :=
  match s with
  | EmptyString => EmptyString
  | String c r => if p c then String c (filter_str p r) else filter_str p r
  end.

Fixpoint count_char (a : ascii) (s : string) : nat :=
  match s with
  | EmptyString => O
  | String c r => (if Ascii.eqb c a then 1 else 0) + count_char a r
  end%nat.

Fixpoint forallb_str (p : ascii -> bool) (s : string) : bool :=
  match s with
  | EmptyString => true
  | String c r => p c && forallb_str p r
  end.

Definition lower (s : string) : string := map_str lower_char s.

Fixpoint lstrip (s : string) : string :=
  match s with
  | EmptyString => EmptyString
  | String c r => if is_space c then lstrip r else s
  end.

Fixpoint rstrip (s : string) : string :=
  match s with
  | EmptyString => EmptyString
  | String c r =>
      match rstrip r with
      | EmptyString => if is_space c then EmptyString else String c EmptyString
      | r' => String c r'
      end
  end.

(** [s.strip()] *)
Definition strip (s : string) : string := rstrip (lstrip s).

(** [s.replace(a, b)] for one-character [a] and [b]. *)
Definition replace_char (a b : ascii) (s : string) : string :=
  map_str (fun c => if Ascii.eqb c a then b else c) s.

(** [s.replace(a, '')] for a one-character [a]. *)
Definition remove_char (a : ascii) (s : string) : string :=
  filter_str (fun c => negb (Ascii.eqb c a)) s.

Definition is_empty (s : string) : bool :=
  match s with EmptyString => true | _ => false end.

Fixpoint prefix_of (p s : string) : option string :=
  match p, s with
  | EmptyString, _ => Some s
  | String a p', String c s' => if Ascii.eqb a c then prefix_of p' s' else None
  | _, EmptyString => None
  end.

(** [sub in s] *)
Fixpoint contains (sub s : string) : bool :=
  match prefix_of sub s with
  | Some _ => true
  | None => match s with
            | EmptyString => false
            | String _ r => contains sub r
            end
  end.

(** *** [float(s)]

    Every string the program hands to [float] is over the alphabet
    [0-9 . + -] (it is either the output of the substitution in
    [_parse_number] or a match of [\d+(?:\.\d+)?]).  On that alphabet
    [float] accepts [sign? (digits+ '.'? digits* | '.' digits+)] and raises
    [ValueError] otherwise; [None] stands for the exception. *)

Definition digit_val (c : ascii) : Z := Z.of_N (code c) - 48.

Fixpoint digits_val (acc : Z) (s : string) : Z :=
  match s with
  | EmptyString => acc
  | String c r => digits_val (10 * acc + digit_val c) r
  end.

Fixpoint split_dot (s : string) : string * option string :=
  match s with
  | EmptyString => (EmptyString, None)
  | String c r =>
      if Ascii.eqb c "." then (EmptyString, Some r)
      else let '(i, f) := split_dot r in (String c i, f)
  end.

Definition unsigned_float (s : string) : option Q :=
  let '(i, f) := split_dot s in
  let fr := match f with Some fr => fr | None => EmptyString end in
  if forallb_str is_digit i && forallb_str is_digit fr
     && negb (is_empty i && is_empty fr)
  then Some (Qred (Qmake (digits_val 0 (i ++ fr))
                         (Z.to_pos (10 ^ Z.of_nat (String.length fr)))))
  else None.

Definition float (s : string) : option Q :=
  match s with
  | String "+" r => unsigned_float r
  | String "-" r => option_map Qopp (unsigned_float r)
  | _ => unsigned_float s
  end.

End Py.

(** ** The fragment of Python's [re] the program uses

    A backtracking matcher in continuation-passing style: alternatives are
    tried left to right, repetitions are greedy, and a search takes the
    leftmost position at which the pattern matches, as [re] does.  None of
    the program's patterns matches the empty string. *)

Module Re.

Inductive re : Type :=
| Eps
| Chr (p : ascii -> bool)          (* one character of a class *)
| Seq (a b : re)
| Alt (a b : re)                   (* a|b *)
| Star (a : re)                    (* a* *)
| Rep (a : re) (lo hi : nat)       (* a{lo,hi} *)
| Grp (i : nat) (a : re)           (* capture group number i *)
| WordB.                           (* \b *)

Definition Plus (a : re) : re := Seq a (Star a).
Definition Opt (a : re) : re := Alt a Eps.

Definition chr (a : ascii) : re := Chr (Ascii.eqb a).
(** a literal character under [re.IGNORECASE] *)
Definition chr_i (a : ascii) : re :=
  Chr (fun c => Ascii.eqb (Py.lower_char c) (Py.lower_char a)).

Fixpoint lit (s : string) : re :=
  match s with
  | EmptyString => Eps
  | String c r => Seq (chr c) (lit r)
  end.

Fixpoint lit_i (s : string) : re :=
  match s with
  | EmptyString => Eps
  | String c r => Seq (chr_i c) (lit_i r)
  end.

Definition ws : re := Chr Py.is_space.
Definition digit : re := Chr Py.is_digit.

(** [\w] below code point 256: [str.isalnum] or the underscore. *)
Definition is_word (c : ascii) : bool :=
  Py.is_digit c || Py.in_range 65 90 c || Py.in_range 97 122 c
  || (Py.code c =? 95)%N || (Py.code c =? 170)%N
  || Py.in_range 178 179 c || (Py.code c =? 181)%N
  || Py.in_range 185 186 c || Py.in_range 188 190 c
  || Py.in_range 192 214 c || Py.in_range 216 246 c
  || Py.in_range 248 255 c.

(** Matcher state: the character before the cursor, the text from the
    cursor on, the cursor's offset, and the capture groups set so far
    (latest first). *)
Record st : Type := St {
  prev : option ascii;
  rest : string;
  pos : nat;
  grps : list (nat * string)
}.

Definition head_char (s : string) : option ascii :=
  match s with EmptyString => None | String c _ => Some c end.

Definition word_at (c : option ascii) : bool :=
  match c with Some c => is_word c | None => false end.

Fixpoint run (r : re) (s : st) (k : st -> option st) {struct r} : option st :=
  match r with
  | Eps => k s
  | Chr p =>
      match rest s with
      | String c t => if p c then k (St (Some c) t (S (pos s)) (grps s)) else None
      | EmptyString => None
      end
  | Seq a b => run a s (fun s' => run b s' k)
  | Alt a b =>
      match run a s k with
      | Some e => Some e
      | None => run b s k
      end
  | Star a =>
      (fix loop (n : nat) (s : st) {struct n} : option st :=
         match n with
         | O => k s
         | S n' =>
             match run a s (fun s' =>
                      if (String.length (rest s') <? String.length (rest s))%nat
                      then loop n' s' else None) with
             | Some e => Some e
             | None => k s
             end
         end) (String.length (rest s)) s
  | Rep a lo hi =>
      (fix loop (h cnt : nat) (s : st) {struct h} : option st :=
         match h with
         | O => if (lo <=? cnt)%nat then k s else None
         | S h' =>
             match run a s (fun s' => loop h' (S cnt) s') with
             | Some e => Some e
             | None => if (lo <=? cnt)%nat then k s else None
             end
         end) hi O s
  | Grp i a =>
      run a s (fun s' =>
        k (St (prev s') (rest s') (pos s')
              ((i, String.substring 0 (pos s' - pos s) (rest s)) :: grps s')))
  | WordB =>
      if xorb (word_at (prev s)) (word_at (head_char (rest s)))
      then k s else None
  end.

(** A match object: span, [group(0)] and the numbered groups. *)
Record mtch : Type := Mtch {
  m_start : nat;
  m_end : nat;
  group0 : string;
  m_groups : list (nat * string)
}.

Fixpoint assoc (i : nat) (l : list (nat * string)) : option string :=
  match l with
  | [] => None
  | (j, v) :: l' => if (i =? j)%nat then Some v else assoc i l'
  end.

(** [m.group(i)] for [i >= 1]; every group the program reads takes part in
    the match, so the default is never used. *)
Definition group (i : nat) (m : mtch) : string :=
  match assoc i (m_groups m) with Some v => v | None => EmptyString end.

Definition match_at (r : re) (pv : option ascii) (p : nat) (txt : string)
  : option mtch :=
  match run r (St pv txt p []) Some with
  | Some e => Some (Mtch p (pos e) (String.substring 0 (pos e - p) txt) (grps e))
  | None => None
  end.

(** [re.search]: the leftmost match, scanning from offset [p]. *)
Fixpoint search_from (r : re) (pv : option ascii) (p : nat) (txt : string)
  : option mtch :=
  match match_at r pv p txt with
  | Some m => Some m
  | None =>
      match txt with
      | EmptyString => None
      | String c t => search_from r (Some c) (S p) t
      end
  end.

Definition search (r : re) (txt : string) : option mtch :=
  search_from r None O txt.

(** [re.fullmatch] *)
Definition fullmatch (r : re) (txt : string) : bool :=
  match run r (St None txt O [])
            (fun e => if Py.is_empty (rest e) then Some e else None) with
  | Some _ => true
  | None => false
  end.

(** [re.finditer]: successive non-overlapping matches.  [skip] counts the
    characters of the last match still to be stepped over. *)
Fixpoint scan (r : re) (skip : nat) (pv : option ascii) (p : nat) (txt : string)
  : list mtch :=
  match skip with
  | S k =>
      match txt with
      | String c t => scan r k (Some c) (S p) t
      | EmptyString => []
      end
  | O =>
      match match_at r pv p txt with
      | Some m =>
          m :: match txt with
               | String c t => scan r (m_end m - m_start m - 1) (Some c) (S p) t
               | EmptyString => []
               end
      | None =>
          match txt with
          | String c t => scan r O (Some c) (S p) t
          | EmptyString => []
          end
      end
  end.

Definition finditer (r : re) (txt : string) : list mtch := scan r O None O txt.

(** [re.findall] for a pattern without groups. *)
Definition findall (r : re) (txt : string) : list string :=
  map group0 (finditer r txt).

Fixpoint pieces (ms : list mtch) (cursor : nat) (txt : string) : list string :=
  match ms with
  | [] => [String.substring cursor (String.length txt - cursor) txt]
  | m :: ms' =>
      String.substring cursor (m_start m - cursor) txt :: pieces ms' (m_end m) txt
  end.

(** [re.split] for a pattern without groups. *)
Definition split (r : re) (txt : string) : list string :=
  pieces (finditer r txt) O txt.

End Re.

(** ** Field extraction: numbers *)

Definition numeric_char (c : ascii) : bool :=
  Py.is_digit c || Ascii.eqb c "." || Ascii.eqb c "+" || Ascii.eqb c "-".

Definition only_signs_or_dots (s : string) : bool :=
  existsb (String.eqb s) ["" ; "+" ; "-" ; "." ; "+." ; "-."].

(** [_parse_number]: the argument is always a [str] at the call sites. *)
Definition _parse_number (s : string) : option Q :=
  let s := Py.strip s in
  if Py.is_empty s then None else
  let s := Py.remove_char " " s in
  let s := if (0 <? Py.count_char "," s)%nat && (Py.count_char "." s =? 0)%nat
           then Py.replace_char "," "." s else s in
  (* re.sub(r"[^0-9.+-]", "", s) deletes every character outside the class *)
  let s := Py.filter_str numeric_char s in
  if only_signs_or_dots s then None else Py.float s.


(** ** Field extraction: token address, durations, message fields *)

Definition alnum_ascii (c : ascii) : bool :=
  Py.is_digit c || Py.in_range 65 90 c || Py.in_range 97 122 c.

(** [[A-Za-z0-9]{32,44}] *)
Definition address_re : Re.re := Re.Rep (Re.Chr alnum_ascii) 32 44.

(** The three patterns of [extract_token_address]; the flag records whether
    the pattern text contains a parenthesis. *)
Definition address_patterns : list (Re.re * bool) :=
  [ (address_re, false);
    (Re.Seq (Re.lit "CA:") (Re.Seq (Re.Star Re.ws) (Re.Grp 1 address_re)), true);
    (Re.Seq (Re.lit "Token:") (Re.Seq (Re.Star Re.ws) (Re.Grp 1 address_re)), true) ].

Fixpoint first_address (ps : list (Re.re * bool)) (message_text : string)
  : option string :=
  match ps with
  | [] => None
  | (pat, has_group) :: ps' =>
      match Re.search pat message_text with
      | Some m => Some (if has_group then Re.group 1 m else Re.group0 m)
      | None => first_address ps' message_text
      end
  end.

Definition extract_token_address (message_text : string) : option string :=
  first_address address_patterns message_text.

(** [\d+(?:\.\d+)?] *)
Definition number_re : Re.re :=
  Re.Seq (Re.Plus Re.digit) (Re.Opt (Re.Seq (Re.chr ".") (Re.Plus Re.digit))).

Definition unit_char (c : ascii) : bool :=
  Ascii.eqb c "s" || Ascii.eqb c "m" || Ascii.eqb c "h" || Ascii.eqb c "d".

(** [(\d+(?:\.\d+)?)\s*([smhd])] *)
Definition duration_token_re : Re.re :=
  Re.Seq (Re.Grp 1 number_re)
         (Re.Seq (Re.Star Re.ws) (Re.Grp 2 (Re.Chr unit_char))).

(** One iteration of the loop over the duration tokens.  [float] cannot
    fail on group 1, which matches [number_re]. *)
Definition add_duration_token (total : Q) (m : Re.mtch) : Q :=
  let v := match Py.float (Re.group 1 m) with Some v => v | None => 0%Q end in
  let u := Re.group 2 m in
  if String.eqb u "s" then (total + v / 60)%Q
  else if String.eqb u "m" then (total + v)%Q
  else if String.eqb u "h" then (total + v * 60)%Q
  else if String.eqb u "d" then (total + v * 1440)%Q
  else total.

Definition Qpositive (q : Q) : bool := negb (Qle_bool q 0).

(** [_parse_duration_to_minutes]: minutes, or [None] if invalid. *)
Definition _parse_duration_to_minutes (text : string) : option Q :=
  let t := Py.lower (Py.strip text) in
  if Py.is_empty t then None
  else if Re.fullmatch number_re t then Py.float t
  else
    let ms := Re.finditer duration_token_re t in
    let total := fold_left add_duration_token ms 0%Q in
    let matched := negb (Nat.eqb (List.length ms) 0) in
    if matched && Qpositive total then Some (Qred total) else None.

Record ParsedFields : Type := {
  first_buy_pct : option Q;
  balance_sol : option Q;
  tx_count : option Z;
  label : option string
}.

Definition num_sep (c : ascii) : bool :=
  Py.is_digit c || Ascii.eqb c "." || Ascii.eqb c ",".

Definition newline : ascii := ascii_of_N 10.

(** [[^\n%\d]] and [[^\n\d]] and [[^\d]] *)
Definition not_nl_pct_digit (c : ascii) : bool :=
  negb (Ascii.eqb c newline || Ascii.eqb c "%" || Py.is_digit c).
Definition not_nl_digit (c : ascii) : bool :=
  negb (Ascii.eqb c newline || Py.is_digit c).
Definition not_digit (c : ascii) : bool := negb (Py.is_digit c).

Definition seqs (l : list Re.re) : Re.re := fold_right Re.Seq Re.Eps l.

Definition num_group : Re.re := Re.Grp 1 (Re.Plus (Re.Chr num_sep)).

(** The patterns are compiled with [re.IGNORECASE]. *)
Definition patterns_pct : list Re.re :=
  [ seqs [Re.lit_i "first"; Re.Star Re.ws; Re.lit_i "buy";
          Re.Star (Re.Chr not_nl_pct_digit); num_group; Re.Star Re.ws; Re.chr "%"];
    seqs [Re.lit_i "first"; Re.Star Re.ws; Re.lit_i "buy"; Re.Star Re.ws;
          Re.chr "%"; Re.Star (Re.Chr not_digit); num_group];
    seqs [Re.lit_i "first"; Re.Star Re.ws; Re.lit_i "purchase";
          Re.Star (Re.Chr not_nl_pct_digit); num_group; Re.Star Re.ws; Re.chr "%"];
    seqs [Re.lit_i "first"; Re.Star Re.ws; Re.lit_i "buyer"; Re.Opt (Re.chr_i "s");
          Re.Star (Re.Chr not_nl_pct_digit); num_group; Re.Star Re.ws; Re.chr "%"] ].

Definition patterns_bal : list Re.re :=
  [ seqs [Re.Alt (Re.lit_i "balance")
            (Re.Alt (seqs [Re.lit_i "sol"; Re.Star Re.ws; Re.lit_i "balance"])
                    (seqs [Re.lit_i "wallet"; Re.Star Re.ws; Re.lit_i "balance"]));
          Re.Star (Re.Chr not_nl_digit); num_group; Re.Star Re.ws; Re.lit_i "sol"];
    seqs [num_group; Re.Star Re.ws; Re.lit_i "sol"; Re.WordB] ].

Definition patterns_tx : list Re.re :=
  [ seqs [Re.Alt (Re.lit_i "transactions")
            (Re.Alt (Re.Seq (Re.lit_i "tx") (Re.Opt (Re.chr_i "s")))
                    (Re.Seq (Re.lit_i "tx") Re.WordB));
          Re.Star (Re.Chr not_nl_digit); num_group; Re.WordB] ].

(** [for pat in patterns: m = re.search(pat, t); if m: ...; break] *)
Fixpoint first_search (ps : list Re.re) (t : string) : option Re.mtch :=
  match ps with
  | [] => None
  | pat :: ps' =>
      match Re.search pat t with
      | Some m => Some m
      | None => first_search ps' t
      end
  end.

(** Line boundaries of [str.splitlines] below code point 256. *)
Definition is_linebreak (c : ascii) : bool :=
  Py.in_range 10 13 c || Py.in_range 28 30 c || (Py.code c =? 133)%N.

Fixpoint splitlines (s : string) : list string :=
  match s with
  | EmptyString => []
  | String c r =>
      if is_linebreak c then
        (* "\r\n" is one boundary: the "\n" that follows ends the line *)
        if Ascii.eqb c (ascii_of_N 13)
           && match r with String d _ => Ascii.eqb d newline | _ => false end
        then splitlines r
        else EmptyString :: splitlines r
      else match splitlines r with
           | [] => [String c EmptyString]
           | l :: ls => String c l :: ls
           end
  end.

(** The fallback for the first-buy percentage: the first line containing
    'first' in which a number is followed by a percent sign. *)
Fixpoint generic_first_pct (lines : list string) : option Q :=
  match lines with
  | [] => None
  | line :: ls =>
      if Py.contains "first" (Py.lower line) then
        match Re.search (seqs [num_group; Re.Star Re.ws; Re.chr "%"]) line with
        | Some m2 => _parse_number (Re.group 1 m2)
        | None => generic_first_pct ls
        end
      else generic_first_pct ls
  end.

(** [round(x)]: to the nearest integer, ties to even. *)
Definition py_round (q : Q) : Z :=
  let f := Qfloor q in
  let d := (q - inject_Z f)%Q in
  match (d ?= 1 # 2)%Q with
  | Lt => f
  | Gt => f + 1
  | Eq => if Z.even f then f else f + 1
  end.

Definition parse_message_fields (text : string) : ParsedFields :=
  if Py.is_empty text then
    {| first_buy_pct := None; balance_sol := None; tx_count := None; label := None |}
  else
    let t := text in
    let lower := Py.lower t in
    let label :=
      if Py.contains "dev has enough money" lower then Some "Dev Has Enough Money"
      else if Py.contains "dev wallet empty" lower then Some "Dev Wallet Empty"
      else None in
    let first_buy_pct :=
      match first_search patterns_pct t with
      | Some m => _parse_number (Re.group 1 m)
      | None => None
      end in
    let first_buy_pct :=
      match first_buy_pct with
      | None => generic_first_pct (splitlines t)
      | Some _ => first_buy_pct
      end in
    let balance_sol :=
      match first_search patterns_bal t with
      | Some m => _parse_number (Re.group 1 m)
      | None => None
      end in
    let tx_count :=
      match first_search patterns_tx t with
      | Some m => option_map py_round (_parse_number (Re.group 1 m))
      | None => None
      end in
    {| first_buy_pct := first_buy_pct; balance_sol := balance_sol;
       tx_count := tx_count; label := label |}.


(** [_parse_range] of the strategy builder.  The two [replace] calls look
    for the three-character sequences the source file spells; both contain
    the capital U+00C4, which cannot occur in the lower-cased [t], so they
    leave [t] as it is. *)
Definition sign_char (c : ascii) : bool := Ascii.eqb c "+" || Ascii.eqb c "-".

Definition comma_sep_re : Re.re := seqs [Re.Star Re.ws; Re.chr ","; Re.Star Re.ws].
Definition dash_sep_re : Re.re :=
  seqs [Re.Star Re.ws; Re.Alt (Re.chr "-") (Re.lit "to"); Re.Star Re.ws].
Definition signed_number_re : Re.re :=
  Re.Seq (Re.Opt (Re.Chr sign_char)) (Re.Plus (Re.Chr num_sep)).

Definition range_bounds (t : string) : option Q * option Q :=
  match Re.split comma_sep_re t with
  | [p0; p1] => (_parse_number p0, _parse_number p1)
  | _ =>
      match Re.split dash_sep_re t with
      | [p0; p1] => (_parse_number p0, _parse_number p1)
      | _ =>
          match Re.findall signed_number_re t with
          | [p0; p1] => (_parse_number p0, _parse_number p1)
          | _ => let a := _parse_number t in (a, a)
          end
      end
  end.

(** The result stands for the dict [{'from': lo, 'to': hi}]. *)
Definition _parse_range (text : string) : option (Q * Q) :=
  let t := Py.lower (Py.strip text) in
  if existsb (String.eqb t) [""; "skip"; "none"] then None
  else
    match range_bounds t with
    | (Some a, Some b) => Some (if Qle_bool a b then (a, b) else (b, a))
    | _ => None
    end.

(** ** SHA-1, for the fallback deduplication key *)

Module Sha1.

Local Open Scope N_scope.

Definition mask32 (x : N) : N := N.land x 4294967295.
Definition rotl (n x : N) : N :=
  mask32 (N.lor (N.shiftl x n) (N.shiftr x (32 - n))).
Definition add32 (x y : N) : N := mask32 (x + y).
Definition not32 (x : N) : N := N.lxor x 4294967295.

(** [str.encode('utf-8')] for code points below 256. *)
Fixpoint utf8 (s : string) : list N :=
  match s with
  | EmptyString => []
  | String c r =>
      let n := N_of_ascii c in
      if n <? 128 then n :: utf8 r
      else N.lor 192 (N.shiftr n 6) :: N.lor 128 (N.land n 63) :: utf8 r
  end.

Definition be_bytes (count : nat) (x : N) : list N :=
  map (fun i => N.land (N.shiftr x (8 * N.of_nat i)) 255) (rev (seq 0 count)).

Definition pad (msg : list N) : list N :=
  let len := N.of_nat (List.length msg) in
  let zeros := N.to_nat ((119 - len mod 64) mod 64) in
  msg ++ 128 :: repeat 0 zeros ++ be_bytes 8 (8 * len).

Fixpoint words (fuel : nat) (bs : list N) : list N :=
  match fuel, bs with
  | S f, b0 :: b1 :: b2 :: b3 :: t =>
      (N.shiftl b0 24 + N.shiftl b1 16 + N.shiftl b2 8 + b3) :: words f t
  | _, _ => []
  end.

(** Message schedule, newest word first. *)
Fixpoint schedule (k : nat) (w : list N) : list N :=
  match k with
  | O => w
  | S k' =>
      schedule k'
        (rotl 1 (N.lxor (N.lxor (nth 2 w 0) (nth 7 w 0))
                        (N.lxor (nth 13 w 0) (nth 15 w 0))) :: w)
  end.

Definition state : Type := (N * N * N * N * N)%type.

Definition round (st : state) (iw : nat * N) : state :=
  let '(a, b, c, d, e) := st in
  let '(i, w) := iw in
  let '(f, k) :=
    if (i <? 20)%nat then (N.lor (N.land b c) (N.land (not32 b) d), 1518500249)
    else if (i <? 40)%nat then (N.lxor (N.lxor b c) d, 1859775393)
    else if (i <? 60)%nat then
      (N.lor (N.lor (N.land b c) (N.land b d)) (N.land c d), 2400959708)
    else (N.lxor (N.lxor b c) d, 3395469782) in
  let temp := add32 (add32 (add32 (add32 (rotl 5 a) f) e) k) w in
  (temp, a, rotl 30 b, c, d).

Definition compress (h : state) (block : list N) : state :=
  let w := rev (schedule 64 (rev block)) in
  let '(a, b, c, d, e) := fold_left round (combine (seq 0 80) w) h in
  let '(h0, h1, h2, h3, h4) := h in
  (add32 h0 a, add32 h1 b, add32 h2 c, add32 h3 d, add32 h4 e).

Fixpoint blocks (fuel : nat) (ws : list N) (h : state) : state :=
  match fuel, ws with
  | S f, _ :: _ => blocks f (skipn 16 ws) (compress h (firstn 16 ws))
  | _, _ => h
  end.

Definition hex_digit (n : N) : ascii :=
  if n <? 10 then ascii_of_N (48 + n) else ascii_of_N (87 + n).

Definition hex32 (x : N) : string :=
  string_of_list_ascii
    (map (fun i => hex_digit (N.land (N.shiftr x (4 * N.of_nat i)) 15))
         (rev (seq 0 8))).

(** [hashlib.sha1(data).hexdigest()] *)
Definition hexdigest (msg : list N) : string :=
  let bs := pad msg in
  let ws := words (List.length bs) bs in
  let '(h0, h1, h2, h3, h4) :=
    blocks (List.length ws) ws
           (1732584193, 4023233417, 2562383102, 271733878, 3285377520) in
  (hex32 h0 ++ hex32 h1 ++ hex32 h2 ++ hex32 h3 ++ hex32 h4)%string.

End Sha1.


(** ** Rendering numbers, [int(x)] *)


(** [str(n)] for an [int]. *)
Definition int_str (z : Z) : string := NilZero.string_of_int (Z.to_int z).

(** [int(x)] for a float: truncation toward zero. *)
Definition Qtrunc (q : Q) : Z :=
  if Qle_bool 0 q then Qfloor q else Qceiling q.

Definition digit_char (d : Z) : ascii := ascii_of_N (48 + Z.to_N d).

Fixpoint frac_digits (fuel : nat) (num den : Z) : string :=
  match fuel with
  | O => EmptyString
  | S f =>
      if num =? 0 then EmptyString
      else String (digit_char (10 * num / den))
                  (frac_digits f (10 * num mod den) den)
  end.

(** [str(x)] for a float, as an f-string renders it: the decimal expansion
    with at least one fractional digit.  This is what Python prints for
    values with at most 15 significant digits and magnitude in
    [1e-4, 1e16); longer expansions are cut at 17 fractional digits and
    the exponent notation is not modelled. *)
Definition float_str (q : Q) : string :=
  let q := Qred q in
  let n := Z.abs (Qnum q) in
  let d := Z.pos (Qden q) in
  let f := frac_digits 17 (n mod d) d in
  (if Qnum q <? 0 then "-" else "") ++ int_str (n / d) ++ "."
  ++ (if Py.is_empty f then "0" else f).

(** [f"{x:.2f}"] for a non-negative float. *)
Definition fmt_2f (q : Q) : string :=
  let r := py_round (q * 100)%Q in
  int_str (r / 100) ++ "."
  ++ String (digit_char (r mod 100 / 10)) (String (digit_char (r mod 10)) EmptyString).

(** A JSON scalar as [json.load] returns it; [JOther] is a list or a dict. *)
Inductive jval : Type :=
| JNull
| JBool (b : bool)
| JInt (z : Z)
| JFloat (q : Q)
| JStr (s : string)
| JOther.

(** Digits with single underscores between them. *)
Fixpoint int_digits (acc : Z) (after_digit : bool) (s : string) : option Z :=
  match s with
  | EmptyString => if after_digit then Some acc else None
  | String c r =>
      if Py.is_digit c then int_digits (10 * acc + Py.digit_val c) true r
      else if Ascii.eqb c "_" && after_digit then int_digits acc false r
      else None
  end.

(** [int(s)] for a string, base 10; [None] is [ValueError]. *)
Definition int_of_str (s : string) : option Z :=
  match Py.strip s with
  | String "+" r => int_digits 0 false r
  | String "-" r => option_map Z.opp (int_digits 0 false r)
  | r => int_digits 0 false r
  end.

(** [int(x)]; [None] is [TypeError] or [ValueError]. *)
Definition py_int (v : jval) : option Z :=
  match v with
  | JNull => None
  | JBool b => Some (if b then 1 else 0)
  | JInt z => Some z
  | JFloat q => Some (Qtrunc q)
  | JStr s => int_of_str s
  | JOther => None
  end.

(** Truth value of a JSON scalar; [JOther] stands for a non-empty one. *)
Definition truthy (v : jval) : bool :=
  match v with
  | JNull => false
  | JBool b => b
  | JInt z => negb (z =? 0)
  | JFloat q => negb (Qeq_bool q 0)
  | JStr s => negb (Py.is_empty s)
  | JOther => true
  end.

(** ** Strategy records

    A strategy is a JSON object of the strategy document.  A filter value
    is null, a string, or an object with the keys 'from' and 'to', each a
    number or null. *)

Inductive fval : Type :=
| FNull
| FStr (s : string)
| FRange (lo hi : option Q).

Record Action : Type := {
  target : option string;
  template : option string
}.

Record Trojan : Type := {
  amount : option Q;
  expiry_minutes : option Q;
  slippage_pct : option Q;
  trigger_price : option Q
}.

(** [None] in a field: the key is absent (for [action] and [trojan]: absent
    or null, which every reader treats alike). *)
Record Strategy : Type := {
  id : Z;
  name : option string;
  group : option string;
  enabled : option bool;
  filters : gmap string fval;
  action : option Action;
  trojan : option Trojan;
  owner_id : option jval
}.

(** [_belongs_to]: [strategy.get('owner_id')] is [None] for an absent key
    as for a null; the conversion [int(sid)] may raise, and the [except]
    clause answers [True]. *)
Definition _belongs_to (strategy : Strategy) (owner : option Z) : bool :=
  match owner_id strategy with
  | None | Some JNull => true
  | Some sid =>
      match owner with
      | None => false
      | Some o =>
          match py_int sid with
          | Some n => n =? o
          | None => true
          end
      end
  end.

(** ** Filter evaluation *)

Inductive res (A : Type) : Type :=
| Ok (a : A)
| Raised.
Arguments Ok {A} a.
Arguments Raised {A}.

Definition Q_between (low v high : Q) : bool := Qle_bool low v && Qle_bool v high.

(** [token_age_passes]: [float(None)] raises [TypeError]. *)
Definition token_age_passes (filters_dict : gmap string fval) (age_minutes : Q)
  : res bool :=
  match filters_dict !! "Token Age (minutes)" with
  | Some (FRange lo hi) =>
      match lo, hi with
      | Some low, Some high => Ok (Q_between low age_minutes high)
      | _, _ => Raised
      end
  | _ => Ok true
  end.

(** [range_filter_passes]: [rng] is the result of [filters_dict.get(k)]. *)
Definition range_filter_passes (rng : option fval) (value : option Q) : bool :=
  match rng with
  | Some (FRange lo hi) =>
      match value with
      | None => false
      | Some v =>
          match lo, hi with
          | Some low, Some high => Q_between low v high
          | _, _ => false
          end
      end
  | _ => true
  end.

Definition fval_truthy (v : fval) : bool :=
  match v with
  | FNull => false
  | FStr s => negb (Py.is_empty s)
  | FRange _ _ => true
  end.

Definition fval_is_str (v : fval) (s : string) : bool :=
  match v with FStr t => String.eqb t s | _ => false end.

(** [label_filter_passes]: [expected] is [filters_dict.get('Label')]. *)
Definition label_filter_passes (expected : option fval) (detected : option string)
  : bool :=
  let e := match expected with Some v => v | None => FNull end in
  if negb (fval_truthy e) || fval_is_str e "Any" then true
  else match detected with
       | Some d => fval_is_str e d
       | None => false
       end.

(** Legacy keys are copied into the current schema before evaluation. *)
Definition alias (new old : string) (f : gmap string fval) : gmap string fval :=
  match f !! new, f !! old with
  | None, Some v => <[new := v]> f
  | _, _ => f
  end.

Definition normalize_filters (f : gmap string fval) : gmap string fval :=
  alias "Label" "Mention" (alias "First Buy (%)" "First Buy (count)" f).

(** [str(v)] for a filter value, up to what [_count_filled_filters] asks of
    it: whether it is blank and whether it is 'Any'.  The text of a dict
    is neither. *)
Definition label_text_counts (v : fval) : bool :=
  match v with
  | FNull => false
  | FStr s =>
      negb (Py.is_empty s) && negb (Py.is_empty (Py.strip s))
      && negb (String.eqb (Py.strip s) "Any")
  | FRange _ _ => true
  end.

Definition filter_filled (k : string) (v : fval) : bool :=
  match v with
  | FRange (Some _) (Some _) => true
  | _ =>
      if String.eqb k "Label" || String.eqb k "Mention" then label_text_counts v
      else match v with
           | FNull => false
           | FStr s => negb (String.eqb s "" || String.eqb s "Any")
           | FRange _ _ => true
           end
  end.

(** [_count_filled_filters] *)
Definition _count_filled_filters (filters : gmap string fval) : nat :=
  map_fold (fun k v cnt => if filter_filled k v then S cnt else cnt) O filters.

(** ** Template rendering: [str.format_map] over a dict with [__missing__]

    The scanner follows CPython's: text up to a brace, doubled braces are
    literal braces, a single opening brace starts a replacement field that
    runs to the closing brace.  Modelled fields are plain names; a field
    with an attribute, an index, a conversion or a format spec is outside
    the fragment ([NotModelled]).  An empty or all-digit field name is a
    positional field, which [format_map] rejects. *)

Inductive cval : Type :=
| CStr (s : string)
| CFloat (q : Q)
| CInt (z : Z)
| CNone.

(** [format(v, '')], that is [str(v)]. *)
Definition cval_str (v : cval) : string :=
  match v with
  | CStr s => s
  | CFloat q => float_str q
  | CInt z => int_str z
  | CNone => "None"
  end.

Inductive fmt_result : Type :=
| Rendered (s : string)
| ValueError
| NotModelled.

Definition emit (x : string) (r : fmt_result) : fmt_result :=
  match r with
  | Rendered s => Rendered (x ++ s)
  | e => e
  end.

(** [_D(ctx)[k]]: the value, or [''] through [__missing__]. *)
Definition lookup_or_empty (ctx : gmap string cval) (k : string) : string :=
  match ctx !! k with
  | Some v => cval_str v
  | None => ""
  end.

Definition positional (field_name : string) : bool :=
  Py.forallb_str Py.is_digit field_name.

Definition field_extra (c : ascii) : bool :=
  Ascii.eqb c "." || Ascii.eqb c "[" || Ascii.eqb c "!" || Ascii.eqb c ":".

(** [field]: [None] while reading literal text, [Some n] inside a
    replacement field whose name so far is [n]. *)
Fixpoint format_map (ctx : gmap string cval) (field : option string) (s : string)
  {struct s} : fmt_result :=
  match field with
  | None =>
      match s with
      | EmptyString => Rendered ""
      | String "{" (String "{" r) => emit "{" (format_map ctx None r)
      | String "{" EmptyString => ValueError
      | String "{" r => format_map ctx (Some "") r
      | String "}" (String "}" r) => emit "}" (format_map ctx None r)
      | String "}" _ => ValueError
      | String c r => emit (String c "") (format_map ctx None r)
      end
  | Some n =>
      match s with
      | EmptyString => ValueError
      | String c r =>
          if Ascii.eqb c "}" then
            if positional n then ValueError
            else emit (lookup_or_empty ctx n) (format_map ctx None r)
          else if Ascii.eqb c "{" then ValueError
          else if field_extra c then NotModelled
          else format_map ctx (Some (n ++ String c "")) r
      end
  end.

(** [_safe_format(template, ctx)] *)
Definition _safe_format (template : string) (ctx : gmap string cval) : fmt_result :=
  format_map ctx None template.

(** ** Deduplication cache *)

Definition DEDUP_TTL_SECONDS : Q := 21600.

(** [re.sub(r'\s+', ' ', t)] *)
Fixpoint collapse_ws (in_run : bool) (t : string) : string :=
  match t with
  | EmptyString => EmptyString
  | String c r =>
      if Py.is_space c then
        if in_run then collapse_ws true r else String " " (collapse_ws true r)
      else String c (collapse_ws false r)
  end.

Definition _normalize_text (t : string) : string :=
  collapse_ws false (Py.lower (Py.strip t)).

Definition _dedupe_key_for (text : string) : string :=
  match extract_token_address text with
  | Some addr => "token:" ++ addr
  | None => "msg:" ++ Sha1.hexdigest (Sha1.utf8 (_normalize_text text))
  end.

Definition live (now ts : Q) : bool := Qle_bool (now - ts) DEDUP_TTL_SECONDS.

(** [_is_duplicate]: [now] is the reading of [time.time()]; the result is
    the answer and the cache afterwards. *)
Definition _is_duplicate (now : Q) (text : string) (cache : gmap string Q)
  : bool * gmap string Q :=
  let cache := filter (fun kv : string * Q => live now kv.2 = true) cache in
  let key := _dedupe_key_for text in
  match cache !! key with
  | Some ts => if live now ts then (true, cache) else (false, <[key := now]> cache)
  | None => (false, <[key := now]> cache)
  end.

(** ** Process state, configuration and effects *)

Inductive mode : Type := Create | Edit | Limit | LimitAdHoc.

(** The dict [st['data']]: the draft of the builder and the fields of the
    limit-order flows.  [None]: the key is absent (for [d_token] and
    [d_strategy_name] in mode [Limit]: the value is [None]). *)
Record Draft : Type := {
  d_name : option string;
  d_group : option string;
  d_filters : gmap string fval;
  d_action : option Action;
  d_trojan : option Trojan;
  d_token : option string;
  d_strategy_name : option string;
  d_amount : option Q;
  d_expiry : option Q;
  d_slippage : option Q;
  d_trigger : option Q
}.

Definition empty_draft : Draft :=
  {| d_name := None; d_group := None; d_filters := ∅; d_action := None;
     d_trojan := None; d_token := None; d_strategy_name := None;
     d_amount := None; d_expiry := None; d_slippage := None; d_trigger := None |}.

Record ConvState : Type := {
  st_mode : mode;
  step : string;
  data : Draft;
  edit_index : option Z;
  msg_id : option Z
}.

(** What a match stores for the follow-up button. *)
Inductive ctx_payload : Type :=
| TokenMatch (age : Q) (parsed : ParsedFields)
| TrojanReady (amount expiry slippage trigger : Q).

Record PassCtx : Type := {
  pc_token : string;
  pc_payload : ctx_payload;
  pc_strat_index : nat;
  pc_strat_name : string
}.

Record Config : Type := {
  ALLOWED_USER_IDS : list Z;
  POST_ORDER_LIMIT_IN_GROUPS : bool;
  bot_client : bool
}.

(** The module globals and the strategy document. *)
Record World : Type := {
  _processed_cache : gmap string Q;
  PROCESSING_PAUSED : bool;
  CONV_STATE : gmap Z ConvState;
  PASS_CTX : gmap string PassCtx;
  BOT_CONTROL_CHAT_ID : option Z;
  strategies_json : list Strategy;
  json_writable : bool
}.

Definition set_cache (c : gmap string Q) (w : World) : World :=
  {| _processed_cache := c; PROCESSING_PAUSED := PROCESSING_PAUSED w;
     CONV_STATE := CONV_STATE w; PASS_CTX := PASS_CTX w;
     BOT_CONTROL_CHAT_ID := BOT_CONTROL_CHAT_ID w;
     strategies_json := strategies_json w; json_writable := json_writable w |}.

Definition set_paused (value : bool) (w : World) : World :=
  {| _processed_cache := _processed_cache w; PROCESSING_PAUSED := value;
     CONV_STATE := CONV_STATE w; PASS_CTX := PASS_CTX w;
     BOT_CONTROL_CHAT_ID := BOT_CONTROL_CHAT_ID w;
     strategies_json := strategies_json w; json_writable := json_writable w |}.

Definition set_conv (c : gmap Z ConvState) (w : World) : World :=
  {| _processed_cache := _processed_cache w;
     PROCESSING_PAUSED := PROCESSING_PAUSED w;
     CONV_STATE := c; PASS_CTX := PASS_CTX w;
     BOT_CONTROL_CHAT_ID := BOT_CONTROL_CHAT_ID w;
     strategies_json := strategies_json w; json_writable := json_writable w |}.

Definition set_pass_ctx (c : gmap string PassCtx) (w : World) : World :=
  {| _processed_cache := _processed_cache w;
     PROCESSING_PAUSED := PROCESSING_PAUSED w;
     CONV_STATE := CONV_STATE w; PASS_CTX := c;
     BOT_CONTROL_CHAT_ID := BOT_CONTROL_CHAT_ID w;
     strategies_json := strategies_json w; json_writable := json_writable w |}.

Definition load_strategies (w : World) : list Strategy := strategies_json w.

(** [save_strategies]: the document is replaced as a whole; a failed write
    is reported as [False]. *)
Definition save_strategies (items : list Strategy) (w : World) : bool * World :=
  if json_writable w then
    (true,
     {| _processed_cache := _processed_cache w;
        PROCESSING_PAUSED := PROCESSING_PAUSED w;
        CONV_STATE := CONV_STATE w; PASS_CTX := PASS_CTX w;
        BOT_CONTROL_CHAT_ID := BOT_CONTROL_CHAT_ID w;
        strategies_json := items; json_writable := true |})
  else (false, w).

(** An inbound event of either client. *)
Record Event : Type := {
  chat_username : option string;   (* event.chat.username *)
  chat_id : Z;
  sender_id : option Z;
  is_private : bool;
  message : string;                (* event.message.message, event.raw_text *)
  date : Q                         (* event.message.date, in seconds *)
}.

(** What the environment supplies to one handler run: the clock, the
    values of [secrets.token_hex(4)] in the order of the calls, and the id
    the transport gives to a message the handler sends. *)
Record Inputs : Type := {
  now : Q;
  token_hex : nat -> string;
  sent_id : option Z
}.

Inductive log_line : Type :=
| L_new_message (group : string)
| L_duplicate
| L_paused_group
| L_paused_trojan
| L_age (group : string) (age : Q)
| L_parsed (p : ParsedFields)
| L_fail (name : option string) (which : string)
| L_passed (name : option string) (token : option string)
| L_eval_error (name : option string)
| L_trojan_missing (name : option string)
| L_trojan_prepared (name : option string) (token : option string)
| L_sent (chat message : string)
| L_limit_sent (cmd : string).

(** Observable actions of a handler, in order.  A send that fails is
    caught and logged by the source; the trace records the attempt.  User
    interface texts are recorded without their pictographs and buttons.
    [OutsideModel]: the action template uses field syntax that
    [format_map] above does not model. *)
Inductive effect : Type :=
| Log (l : log_line)
| Send (via_bot : bool) (dest : jval) (text : string)
| SendCard (dest : jval) (cid : string) (card : PassCtx)
| Answer (text : string)
| EditEvent (text : string)
| Respond (text : string)
| EditMessage (chat msg : Z) (text : string)
| DeleteInput
| OutsideModel.

(** [get_age_minutes] *)
Definition get_age_minutes (now message_date : Q) : Q :=
  Qmax 0 ((now - message_date) / 60).

Definition _authorized (cfg : Config) (sender : option Z) : bool :=
  match sender with
  | None => false
  | Some s =>
      match ALLOWED_USER_IDS cfg with
      | [] => true
      | ids => existsb (Z.eqb s) ids
      end
  end.

(** [next(iter(ALLOWED_USER_IDS))]: the set is held in iteration order. *)
Definition _get_control_chat_id (cfg : Config) (w : World) : option Z :=
  match ALLOWED_USER_IDS cfg with
  | z :: _ => Some z
  | [] => BOT_CONTROL_CHAT_ID w
  end.

(** [strat.get('owner_id') or _get_control_chat_id()] *)
Definition notify_chat (cfg : Config) (w : World) (strat : Strategy) : jval :=
  let o := match owner_id strat with Some v => v | None => JNull end in
  if truthy o then o
  else match _get_control_chat_id cfg w with
       | Some z => JInt z
       | None => JNull
       end.

Definition strip_at (s : string) : string :=
  match s with String "@" r => r | _ => s end.

(** [_send_action_message] *)
Definition _send_action_message (target message : string) : list effect :=
  let chat := strip_at (Py.strip target) in
  [Send false (JStr chat) message; Log (L_sent chat message)].

Definition nonempty (o : option string) : option string :=
  match o with
  | Some s => if Py.is_empty s then None else Some s
  | None => None
  end.

Definition opt_cfloat (o : option Q) : cval :=
  match o with Some q => CFloat q | None => CNone end.

(** The notification of a match: context stored under a fresh id, card to
    the owner (or the control chat) and, if configured, to the group. *)
Definition notify (cfg : Config) (ev : Event) (inp : Inputs) (strat : Strategy)
    (card : PassCtx) (wn : World * nat) : (World * nat) * list effect :=
  let '(w, n) := wn in
  let cid := token_hex inp n in
  let w' := set_pass_ctx (<[cid := card]> (PASS_CTX w)) w in
  let chat := notify_chat cfg w strat in
  let sends :=
    if truthy chat then
      SendCard chat cid card
      :: (if POST_ORDER_LIMIT_IN_GROUPS cfg
          then [SendCard (JInt (chat_id ev)) cid card] else [])
    else [] in
  ((w', S n), sends).

(** The configured action: render the template and send it.  A rendering
    error reaches the [except] clause of the loop body. *)
Definition run_action (strat : Strategy) (ctx : gmap string cval) : list effect :=
  let a := match action strat with
           | Some a => a
           | None => {| target := None; template := None |}
           end in
  match nonempty (target a), nonempty (template a) with
  | Some tg, Some tp =>
      match _safe_format tp ctx with
      | Rendered msg => _send_action_message tg msg
      | ValueError => [Log (L_eval_error (name strat))]
      | NotModelled => [OutsideModel]
      end
  | _, _ => []
  end.

Definition opt_string_eqb (a b : option string) : bool :=
  match a, b with
  | Some x, Some y => String.eqb x y
  | None, None => true
  | _, _ => false
  end.

Definition name_or_empty (strat : Strategy) : string :=
  match name strat with Some s => s | None => "" end.

(** The filter checks with the name of the first failing one, as the
    debug log reports it. *)
Definition failing_filter (f0 : gmap string fval) (parsed : ParsedFields) (age : Q)
  : res (option string) :=
  let filters_dict := normalize_filters f0 in
  match token_age_passes filters_dict age with
  | Raised => Raised
  | Ok false => Ok (Some "Token Age")
  | Ok true =>
      if negb (range_filter_passes (filters_dict !! "First Buy (%)")
                                   (first_buy_pct parsed))
      then Ok (Some "First Buy %")
      else if negb (range_filter_passes (filters_dict !! "Balance (SOL)")
                                        (balance_sol parsed))
      then Ok (Some "Balance (SOL)")
      else if negb (range_filter_passes (filters_dict !! "Transactions (count)")
                                        (option_map inject_Z (tx_count parsed)))
      then Ok (Some "Transactions")
      else if negb (label_filter_passes (filters_dict !! "Label") (label parsed))
      then Ok (Some "Label")
      else Ok None
  end.

(** One iteration of the loop of [process_token_message]. *)
Definition token_strategy_step (cfg : Config) (ev : Event) (inp : Inputs)
    (age : Q) (parsed : ParsedFields) (msg_text gui_group : string)
    (wn : World * nat) (istrat : nat * Strategy) : (World * nat) * list effect :=
  let '(idx, strat) := istrat in
  if negb (match enabled strat with Some b => b | None => true end) then (wn, [])
  else if negb (opt_string_eqb (group strat) (Some gui_group)) then (wn, [])
  else
    match failing_filter (filters strat) parsed age with
    | Raised => (wn, [Log (L_eval_error (name strat))])
    | Ok (Some which) => (wn, [Log (L_fail (name strat) which)])
    | Ok None =>
        let token_address := extract_token_address msg_text in
        let '(wn', sends) :=
          match token_address with
          | Some tok =>
              if bot_client cfg then
                notify cfg ev inp strat
                  {| pc_token := tok; pc_payload := TokenMatch age parsed;
                     pc_strat_index := idx; pc_strat_name := name_or_empty strat |}
                  wn
              else (wn, [])
          | None => (wn, [])
          end in
        let ctx : gmap string cval :=
          list_to_map
            [ ("token", CStr (match token_address with Some t => t | None => "" end));
              ("age", CStr (fmt_2f age));
              ("first_buy_pct", opt_cfloat (first_buy_pct parsed));
              ("balance_sol", opt_cfloat (balance_sol parsed));
              ("tx_count", match tx_count parsed with
                           | Some z => CInt z | None => CNone end);
              ("label", CStr (match label parsed with Some l => l | None => "" end));
              ("name", CStr (name_or_empty strat)) ] in
        (wn', (Log (L_passed (name strat) token_address) :: sends
               ++ run_action strat ctx)%list)
    end.

Definition run_loop {S X : Type} (f : S -> X -> S * list effect)
    (xs : list X) (s : S) : S * list effect :=
  fold_left (fun acc x => let '(s', es) := f (fst acc) x in (s', (snd acc ++ es)%list))
            xs (s, []).

Definition enumerate {X : Type} (xs : list X) : list (nat * X) :=
  combine (seq 1 (List.length xs)) xs.

(** [process_token_message] *)
Definition process_token_message (cfg : Config) (ev : Event) (inp : Inputs)
    (group_username : string) (w : World) : World * list effect :=
  if PROCESSING_PAUSED w then (w, [Log L_paused_group])
  else
    let msg_text := message ev in
    let age := get_age_minutes (now inp) (date ev) in
    let parsed := parse_message_fields msg_text in
    let strategies := load_strategies w in
    let gui_group := "@" ++ group_username in
    let '((w', _), es) :=
      run_loop (token_strategy_step cfg ev inp age parsed msg_text gui_group)
               (enumerate strategies) (w, O) in
    (w', Log (L_age group_username age) :: Log (L_parsed parsed) :: es).

Definition all_some4 (a b c d : option Q) : option (Q * Q * Q * Q) :=
  match a, b, c, d with
  | Some a, Some b, Some c, Some d => Some (a, b, c, d)
  | _, _, _, _ => None
  end.

(** One iteration of the loop of [process_trojan_message]. *)
Definition trojan_strategy_step (cfg : Config) (ev : Event) (inp : Inputs)
    (token_address : option string) (gui_group : string)
    (wn : World * nat) (istrat : nat * Strategy) : (World * nat) * list effect :=
  let '(idx, strat) := istrat in
  if negb (match enabled strat with Some b => b | None => true end) then (wn, [])
  else if negb (opt_string_eqb (group strat) (Some gui_group)) then (wn, [])
  else
    let t := match trojan strat with
             | Some t => t
             | None => {| amount := None; expiry_minutes := None;
                          slippage_pct := None; trigger_price := None |}
             end in
    match all_some4 (amount t) (expiry_minutes t) (slippage_pct t) (trigger_price t) with
    | None => (wn, [Log (L_trojan_missing (name strat))])
    | Some (am, ex, sl, tr) =>
        let '(wn', sends) :=
          match token_address with
          | Some tok =>
              if bot_client cfg then
                notify cfg ev inp strat
                  {| pc_token := tok; pc_payload := TrojanReady am ex sl tr;
                     pc_strat_index := idx; pc_strat_name := name_or_empty strat |}
                  wn
              else (wn, [])
          | None => (wn, [])
          end in
        let ctx : gmap string cval :=
          list_to_map
            [ ("token", CStr (match token_address with Some t => t | None => "" end));
              ("amount", CFloat am); ("expiry", CFloat ex);
              ("slippage", CFloat sl); ("trigger", CFloat tr);
              ("name", CStr (name_or_empty strat)) ] in
        (wn', (Log (L_trojan_prepared (name strat) token_address) :: sends
               ++ run_action strat ctx)%list)
    end.

(** [process_trojan_message] *)
Definition process_trojan_message (cfg : Config) (ev : Event) (inp : Inputs)
    (group_username : string) (w : World) : World * list effect :=
  if PROCESSING_PAUSED w then (w, [Log L_paused_trojan])
  else
    let token_address := extract_token_address (message ev) in
    let strategies := load_strategies w in
    let gui_group := "@" ++ group_username in
    let '((w', _), es) :=
      run_loop (trojan_strategy_step cfg ev inp token_address gui_group)
               (enumerate strategies) (w, O) in
    (w', es).

Definition monitored_groups : list string := ["SolanaNewPumpfun"; "solana_trojanbot"].

(** [handler]: the listener of the user client for every new message. *)
Definition handler (cfg : Config) (ev : Event) (inp : Inputs) (w : World)
  : World * list effect :=
  match chat_username ev with
  | None => (w, [])
  | Some group_username =>
      if existsb (String.eqb group_username) monitored_groups then
        let '(dup, cache) := _is_duplicate (now inp) (message ev) (_processed_cache w) in
        let w1 := set_cache cache w in
        if dup then (w1, [Log (L_new_message group_username); Log L_duplicate])
        else
          let '(w2, es) :=
            if String.eqb group_username "solana_trojanbot"
            then process_trojan_message cfg ev inp group_username w1
            else process_token_message cfg ev inp group_username w1 in
          (w2, Log (L_new_message group_username) :: es)
      else (w, [])
  end.

(** ** The conversation: draft updates *)

Definition empty_trojan : Trojan :=
  {| amount := None; expiry_minutes := None; slippage_pct := None;
     trigger_price := None |}.
Definition empty_action : Action := {| target := None; template := None |}.

Definition with_name (v : option string) (d : Draft) : Draft :=
  {| d_name := v; d_group := d_group d; d_filters := d_filters d;
     d_action := d_action d; d_trojan := d_trojan d; d_token := d_token d;
     d_strategy_name := d_strategy_name d; d_amount := d_amount d;
     d_expiry := d_expiry d; d_slippage := d_slippage d; d_trigger := d_trigger d |}.
Definition with_group (v : option string) (d : Draft) : Draft :=
  {| d_name := d_name d; d_group := v; d_filters := d_filters d;
     d_action := d_action d; d_trojan := d_trojan d; d_token := d_token d;
     d_strategy_name := d_strategy_name d; d_amount := d_amount d;
     d_expiry := d_expiry d; d_slippage := d_slippage d; d_trigger := d_trigger d |}.
Definition with_filters (v : gmap string fval) (d : Draft) : Draft :=
  {| d_name := d_name d; d_group := d_group d; d_filters := v;
     d_action := d_action d; d_trojan := d_trojan d; d_token := d_token d;
     d_strategy_name := d_strategy_name d; d_amount := d_amount d;
     d_expiry := d_expiry d; d_slippage := d_slippage d; d_trigger := d_trigger d |}.
Definition with_action (v : option Action) (d : Draft) : Draft :=
  {| d_name := d_name d; d_group := d_group d; d_filters := d_filters d;
     d_action := v; d_trojan := d_trojan d; d_token := d_token d;
     d_strategy_name := d_strategy_name d; d_amount := d_amount d;
     d_expiry := d_expiry d; d_slippage := d_slippage d; d_trigger := d_trigger d |}.
Definition with_trojan (v : option Trojan) (d : Draft) : Draft :=
  {| d_name := d_name d; d_group := d_group d; d_filters := d_filters d;
     d_action := d_action d; d_trojan := v; d_token := d_token d;
     d_strategy_name := d_strategy_name d; d_amount := d_amount d;
     d_expiry := d_expiry d; d_slippage := d_slippage d; d_trigger := d_trigger d |}.
Definition with_token (v : option string) (d : Draft) : Draft :=
  {| d_name := d_name d; d_group := d_group d; d_filters := d_filters d;
     d_action := d_action d; d_trojan := d_trojan d; d_token := v;
     d_strategy_name := d_strategy_name d; d_amount := d_amount d;
     d_expiry := d_expiry d; d_slippage := d_slippage d; d_trigger := d_trigger d |}.
Definition with_amount (v : option Q) (d : Draft) : Draft :=
  {| d_name := d_name d; d_group := d_group d; d_filters := d_filters d;
     d_action := d_action d; d_trojan := d_trojan d; d_token := d_token d;
     d_strategy_name := d_strategy_name d; d_amount := v;
     d_expiry := d_expiry d; d_slippage := d_slippage d; d_trigger := d_trigger d |}.
Definition with_expiry (v : option Q) (d : Draft) : Draft :=
  {| d_name := d_name d; d_group := d_group d; d_filters := d_filters d;
     d_action := d_action d; d_trojan := d_trojan d; d_token := d_token d;
     d_strategy_name := d_strategy_name d; d_amount := d_amount d;
     d_expiry := v; d_slippage := d_slippage d; d_trigger := d_trigger d |}.
Definition with_slippage (v : option Q) (d : Draft) : Draft :=
  {| d_name := d_name d; d_group := d_group d; d_filters := d_filters d;
     d_action := d_action d; d_trojan := d_trojan d; d_token := d_token d;
     d_strategy_name := d_strategy_name d; d_amount := d_amount d;
     d_expiry := d_expiry d; d_slippage := v; d_trigger := d_trigger d |}.
Definition with_trigger (v : option Q) (d : Draft) : Draft :=
  {| d_name := d_name d; d_group := d_group d; d_filters := d_filters d;
     d_action := d_action d; d_trojan := d_trojan d; d_token := d_token d;
     d_strategy_name := d_strategy_name d; d_amount := d_amount d;
     d_expiry := d_expiry d; d_slippage := d_slippage d; d_trigger := v |}.

Definition with_step (v : string) (st : ConvState) : ConvState :=
  {| st_mode := st_mode st; step := v; data := data st;
     edit_index := edit_index st; msg_id := msg_id st |}.
Definition with_data (v : Draft) (st : ConvState) : ConvState :=
  {| st_mode := st_mode st; step := step st; data := v;
     edit_index := edit_index st; msg_id := msg_id st |}.
Definition with_msg_id (v : option Z) (st : ConvState) : ConvState :=
  {| st_mode := st_mode st; step := step st; data := data st;
     edit_index := edit_index st; msg_id := v |}.

Definition new_state (m : mode) (s : string) (d : Draft) : ConvState :=
  {| st_mode := m; step := s; data := d; edit_index := None; msg_id := None |}.

(** [trojan[dest] = number] after [mapping.get(key)] *)
Definition set_trojan_field (key : string) (number : Q) (t : Trojan) : Trojan :=
  if String.eqb key "amount" then
    {| amount := Some number; expiry_minutes := expiry_minutes t;
       slippage_pct := slippage_pct t; trigger_price := trigger_price t |}
  else if String.eqb key "expiry" then
    {| amount := amount t; expiry_minutes := Some number;
       slippage_pct := slippage_pct t; trigger_price := trigger_price t |}
  else if String.eqb key "slippage" then
    {| amount := amount t; expiry_minutes := expiry_minutes t;
       slippage_pct := Some number; trigger_price := trigger_price t |}
  else if String.eqb key "trigger" then
    {| amount := amount t; expiry_minutes := expiry_minutes t;
       slippage_pct := slippage_pct t; trigger_price := Some number |}
  else t.

(** [st['data'].setdefault('trojan', {})] *)
Definition trojan_or_empty (d : Draft) : Trojan :=
  match d_trojan d with Some t => t | None => empty_trojan end.
Definition action_or_empty (d : Draft) : Action :=
  match d_action d with Some a => a | None => empty_action end.

Definition order_key (key : string) : bool :=
  existsb (String.eqb key) ["amount"; "expiry"; "slippage"; "trigger"].

(** The mapping from the range keys of the builder to filter names. *)
Definition range_filter_name (key : string) : option string :=
  if String.eqb key "token_age" then Some "Token Age (minutes)"
  else if String.eqb key "first_buy" then Some "First Buy (%)"
  else if String.eqb key "balance" then Some "Balance (SOL)"
  else if String.eqb key "tx" then Some "Transactions (count)"
  else None.

Definition id_truthy (m : option Z) : option Z :=
  match m with
  | Some z => if z =? 0 then None else Some z
  | None => None
  end.

(** Redisplay of the builder: edit the anchor message, or send a new one
    and remember its id. *)
Definition show_builder (inp : Inputs) (chat : Z) (st : ConvState)
  : ConvState * list effect :=
  match id_truthy (msg_id st) with
  | Some m => (st, [EditMessage chat m "Strategy Builder"])
  | None => (with_msg_id (sent_id inp) st, [Send true (JInt chat) "Strategy Builder"])
  end.

Definition prompt (chat : Z) (st : ConvState) (text : string) : list effect :=
  match id_truthy (msg_id st) with
  | Some m => [EditMessage chat m text]
  | None => [Respond text]
  end.

Definition INVALID_EXPIRY : string :=
  "Invalid expiry. Use formats like 45s, 30m, 2h, 1d.".
Definition INVALID_NUMBER : string := "Invalid number. Try again or tap Back.".
Definition INVALID_RANGE : string :=
  "Invalid format. Use 'min,max'. Tap Back to cancel.".

Definition parse_order_value (key text : string) : option Q :=
  if String.eqb key "expiry" then _parse_duration_to_minutes text
  else _parse_number text.

Definition invalid_order_prompt (key : string) : string :=
  if String.eqb key "expiry" then INVALID_EXPIRY else INVALID_NUMBER.

(** The branch [st['step'].startswith('edit_')] of [bot_conversation]. *)
Definition edit_field (inp : Inputs) (chat : Z) (text : string) (st : ConvState)
  : ConvState * list effect :=
  let key := String.substring 5 (String.length (step st) - 5) (step st) in
  let d := data st in
  let finish (d' : Draft) := show_builder inp chat (with_step "builder" (with_data d' st)) in
  if opt_string_eqb (d_group d) (Some "@solana_trojanbot") then
    let t := trojan_or_empty d in
    let d1 := with_trojan (Some t) d in
    match parse_order_value key text with
    | None => (with_data d1 st, prompt chat st (invalid_order_prompt key))
    | Some number => finish (with_trojan (Some (set_trojan_field key number t)) d)
    end
  else if order_key key then
    match parse_order_value key text with
    | None => (st, prompt chat st (invalid_order_prompt key))
    | Some number =>
        finish (with_trojan (Some (set_trojan_field key number (trojan_or_empty d))) d)
    end
  else
    match range_filter_name key with
    | Some fname =>
        match _parse_range text with
        | None => (st, prompt chat st INVALID_RANGE)
        | Some (lo, hi) =>
            finish (with_filters (<[fname := FRange (Some lo) (Some hi)]> (d_filters d)) d)
        end
    | None =>
        if String.eqb key "action_target" then
          finish (with_action
                    (Some {| target := Some text;
                             template := template (action_or_empty d) |}) d)
        else if String.eqb key "action_template" then
          finish (with_action
                    (Some {| target := target (action_or_empty d);
                             template := Some text |}) d)
        else finish d
    end.

Definition opt_str {A : Type} (f : A -> string) (o : option A) : string :=
  match o with Some a => f a | None => "None" end.

(** The f-string of [_send_limit_to_trojan]; [int(None)] raises. *)
Definition limit_command (token : option string)
    (amount expiry slippage trigger : option Q) : res string :=
  match expiry with
  | None => Raised
  | Some e =>
      Ok ("/limit token=" ++ opt_str (fun s => s) token
          ++ " amount=" ++ opt_str float_str amount
          ++ " slippage=" ++ opt_str float_str slippage
          ++ " trigger=" ++ opt_str float_str trigger
          ++ " expiry=" ++ int_str (Qtrunc e))
  end.

(** [_send_limit_to_trojan], with the reply of the caller: a command that
    cannot be built raises into the caller's [except]. *)
Definition _send_limit_to_trojan (cfg : Config) (cmd : res string) : list effect :=
  match cmd with
  | Ok c => [Send (bot_client cfg) (JStr "solana_trojanbot") c;
             Log (L_limit_sent c); Respond "LIMIT sent"]
  | Raised => [Respond "Failed to send"]
  end.

Definition EXPIRY_PROMPT : string := "Expiry (e.g., 45s, 30m, 2h, 1d):".

(** The numeric steps shared by the modes 'limit' and 'limit_ad_hoc';
    [None]: the step is not one of them. *)
Definition limit_numeric_step (text : string) (st : ConvState) : option (ConvState * list effect) :=
  let d := data st in
  if String.eqb (step st) "amount" then
    Some match _parse_number text with
         | None => (st, [Respond "Invalid amount. Enter number."])
         | Some v => (with_step "expiry" (with_data (with_amount (Some v) d) st),
                      [Respond EXPIRY_PROMPT])
         end
  else if String.eqb (step st) "expiry" then
    Some match _parse_duration_to_minutes text with
         | None => (st, [Respond INVALID_EXPIRY])
         | Some v => (with_step "slippage" (with_data (with_expiry (Some v) d) st),
                      [Respond "Slippage %:"])
         end
  else if String.eqb (step st) "slippage" then
    Some match _parse_number text with
         | None => (st, [Respond "Invalid slippage. Enter percent."])
         | Some v => (with_step "trigger" (with_data (with_slippage (Some v) d) st),
                      [Respond "Trigger Price (SOL):"])
         end
  else None.

Definition first_owned_named (items : list Strategy) (owner : option Z)
    (nm : option string) : option Strategy :=
  find (fun x => _belongs_to x owner && opt_string_eqb (name x) nm) items.

Definition starts_with (p s : string) : bool :=
  match Py.prefix_of p s with Some _ => true | None => false end.

(** The steps of [bot_conversation] once the state is found: the new
    state ([None]: the entry is popped) and the effects. *)
Definition conversation_step (cfg : Config) (ev : Event) (inp : Inputs)
    (text : string) (st : ConvState) (w : World)
  : option ConvState * list effect :=
  let chat := chat_id ev in
  let some (r : ConvState * list effect) := (Some (fst r), snd r) in
  if String.eqb (step st) "name" || String.eqb (step st) "edit_name" then
    some (show_builder inp chat
            (with_step "builder" (with_data (with_name (Some text) (data st)) st)))
  else if starts_with "edit_" (step st) then some (edit_field inp chat text st)
  else
    match st_mode st with
    | Limit =>
        match limit_numeric_step text st with
        | Some r => some r
        | None =>
            if String.eqb (step st) "trigger" then
              match _parse_number text with
              | None => (Some st, [Respond "Invalid trigger price. Enter number."])
              | Some v =>
                  let d := with_trigger (Some v) (data st) in
                  match first_owned_named (load_strategies w) (sender_id ev)
                                          (d_strategy_name d) with
                  | Some _ =>
                      (None, _send_limit_to_trojan cfg
                               (limit_command (d_token d) (d_amount d) (d_expiry d)
                                              (d_slippage d) (d_trigger d)))
                  | None => (None, [Respond "Strategy not found. Use /start"])
                  end
              end
            else (Some st, [])
        end
    | LimitAdHoc =>
        if String.eqb (step st) "token" then
          (Some (with_step "amount" (with_data (with_token (Some text) (data st)) st)),
           [Respond "Amount (SOL):"])
        else
          match limit_numeric_step text st with
          | Some r => some r
          | None =>
              if String.eqb (step st) "trigger" then
                match _parse_number text with
                | None => (Some st, [Respond "Invalid trigger. Enter number."])
                | Some v =>
                    let d := with_trigger (Some v) (data st) in
                    (None, _send_limit_to_trojan cfg
                             match d_token d, d_amount d, d_slippage d with
                             | Some _, Some _, Some _ =>
                                 limit_command (d_token d) (d_amount d) (d_expiry d)
                                               (d_slippage d) (d_trigger d)
                             | _, _, _ => Raised   (* KeyError of d[...] *)
                             end)
                end
              else (Some st, [])
          end
    | _ => (Some st, [])
    end.

(** [bot_conversation]: free-text input of the bot's private chat. *)
Definition bot_conversation (cfg : Config) (ev : Event) (inp : Inputs) (w : World)
  : World * list effect :=
  if negb (is_private ev) || negb (_authorized cfg (sender_id ev)) then (w, [])
  else
    let chat := chat_id ev in
    let txt := Py.strip (message ev) in
    if starts_with "/" txt then (w, [])
    else
      match CONV_STATE w !! chat with
      | None => (w, [])
      | Some st =>
          let '(st', es) := conversation_step cfg ev inp txt st w in
          (set_conv match st' with
                    | Some s => <[chat := s]> (CONV_STATE w)
                    | None => delete chat (CONV_STATE w)
                    end w,
           DeleteInput :: es)
      end.

(** ** Inline buttons

    [on_button] dispatches on the callback data.  The branches modelled
    here are those that read or write the conversation state, the pause
    flag or the strategy document; [button_data] gives the data string of
    each ([field] of [BSet] holds no colon).  The screens that only
    display (dashboard, status, strategy pages, menus) and the branches
    for toggling and deleting a stored strategy are left out. *)

Inductive button : Type :=
| BEditStrategy (idx : Z)
| BNew
| BNewGroup (g : string)
| BBuilder
| BEdit (key : string)
| BLabel (l : string)
| BSet (field val : string)
| BSave
| BCancel
| BPause
| BResume
| BLimitMenu
| BLimitFor (cid : string).

Definition button_data (b : button) : string :=
  match b with
  | BEditStrategy idx => "edit_strategy:" ++ int_str idx
  | BNew => "new"
  | BNewGroup g => "new_group:" ++ g
  | BBuilder => "builder"
  | BEdit key => "edit:" ++ key
  | BLabel l => "label:" ++ l
  | BSet field val => "set:" ++ field ++ ":" ++ val
  | BSave => "save"
  | BCancel => "cancel"
  | BPause => "pause"
  | BResume => "resume"
  | BLimitMenu => "limit_menu"
  | BLimitFor cid => "limit:" ++ cid
  end.

Definition owned_by (items : list Strategy) (owner : option Z) : list Strategy :=
  List.filter (fun s => _belongs_to s owner) items.

(** Apply [f] to the [k]-th (from 1) strategy of [items] that belongs to
    [owner]: the element of the owner's view is the same object as the
    element of the full list. *)
Fixpoint update_owned (f : Strategy -> Strategy) (owner : option Z) (k : nat)
    (items : list Strategy) : list Strategy :=
  match items with
  | [] => []
  | s :: rest =>
      if _belongs_to s owner then
        match k with
        | O => items
        | 1%nat => f s :: rest
        | S k' => s :: update_owned f owner k' rest
        end
      else s :: update_owned f owner k rest
  end.

Definition first_nonempty (a b : option string) (c : string) : string :=
  match nonempty a with
  | Some s => s
  | None => match nonempty b with Some s => s | None => c end
  end.

Definition default_name (inp : Inputs) : string :=
  "Strategy " ++ int_str (Qtrunc (now inp)).

(** The assignments to [target] in the edit branch of 'save'. *)
Definition apply_draft (inp : Inputs) (d : Draft) (target : Strategy) : Strategy :=
  {| id := id target;
     name := Some (first_nonempty (d_name d) (name target) (default_name inp));
     group := d_group d;
     enabled := enabled target;
     filters := d_filters d;
     action := d_action d;
     trojan := d_trojan d;
     owner_id := owner_id target |}.

Definition new_strategy (inp : Inputs) (sender : Z) (d : Draft) : Strategy :=
  {| id := Qtrunc (now inp);
     name := Some (first_nonempty (d_name d) None (default_name inp));
     group := d_group d;
     enabled := Some true;
     filters := d_filters d;
     action := d_action d;
     trojan := d_trojan d;
     owner_id := Some (JInt sender) |}.

Definition MIN_FILTERS_MESSAGE : string :=
  "Set at least 3 filter options before saving".

(** The branch [data == 'save']. *)
Definition on_save (ev : Event) (inp : Inputs) (w : World) : World * list effect :=
  let chat := chat_id ev in
  match CONV_STATE w !! chat with
  | None => (w, [Answer "Nothing to save"])
  | Some st =>
      let d := data st in
      match nonempty (d_group d) with
      | None => (w, [Answer "Choose a group first"])
      | Some g =>
          if negb (String.eqb g "@solana_trojanbot")
             && (_count_filled_filters (d_filters d) <? 3)%nat
          then (w, [Answer MIN_FILTERS_MESSAGE; EditEvent "Strategy Builder"])
          else
            let popped := set_conv (delete chat (CONV_STATE w)) w in
            match st_mode st with
            | Edit =>
                let items := load_strategies w in
                let owned := owned_by items (sender_id ev) in
                let eidx := match edit_index st with Some z => z | None => 0 end in
                if negb ((1 <=? eidx) && (eidx <=? Z.of_nat (List.length owned)))
                then (popped, [EditEvent "Save failed"])
                else
                  let items' :=
                    update_owned (apply_draft inp d) (sender_id ev) (Z.to_nat eidx) items in
                  let '(ok, w') := save_strategies items' popped in
                  (w', [EditEvent (if ok then "Updated" else "Save failed")])
            | _ =>
                let sender := match sender_id ev with Some z => z | None => 0 end in
                let items := (load_strategies w ++ [new_strategy inp sender d])%list in
                let '(ok, w') := save_strategies items popped in
                (w', [EditEvent (if ok then "Saved" else "Save failed")])
            end
      end
  end.

Definition edit_prompt (key : string) : string :=
  if String.eqb key "token_age" then
    "Enter Token Age as 'min,max' (minutes) or a single value:"
  else if String.eqb key "first_buy" then
    "Enter First Buy % as 'min,max' or a single value:"
  else if String.eqb key "balance" then
    "Enter Balance (SOL) as 'min,max' or a single value:"
  else if String.eqb key "tx" then
    "Enter Transactions as 'min,max' or a single value:"
  else if String.eqb key "amount" then "Amount (SOL):"
  else if String.eqb key "expiry" then EXPIRY_PROMPT
  else if String.eqb key "slippage" then "Slippage %:"
  else if String.eqb key "trigger" then "Trigger Price (SOL):"
  else if String.eqb key "action_target" then "Action Target (e.g., @mychannel):"
  else if String.eqb key "action_template" then "Action Template (e.g., buy {token}):"
  else "Enter value:".

Definition put_state (chat : Z) (st : ConvState) (w : World) : World :=
  set_conv (<[chat := st]> (CONV_STATE w)) w.

Definition draft_of (s : Strategy) : Draft :=
  {| d_name := name s; d_group := group s; d_filters := filters s;
     d_action := Some (match action s with Some a => a | None => empty_action end);
     d_trojan := Some (match trojan s with Some t => t | None => empty_trojan end);
     d_token := None; d_strategy_name := None; d_amount := None;
     d_expiry := None; d_slippage := None; d_trigger := None |}.

(** [on_button], for the branches listed above. *)
Definition on_button (cfg : Config) (ev : Event) (inp : Inputs) (b : button)
    (w : World) : World * list effect :=
  if negb (is_private ev) || negb (_authorized cfg (sender_id ev))
  then (w, [Answer "Not allowed"])
  else
    let chat := chat_id ev in
    let with_builder (k : ConvState -> World * list effect) :=
      match CONV_STATE w !! chat with
      | None => (w, [Answer "No active builder"])
      | Some st => k st
      end in
    match b with
    | BEditStrategy idx =>
        let owned := owned_by (load_strategies w) (sender_id ev) in
        if negb ((1 <=? idx) && (idx <=? Z.of_nat (List.length owned)))
        then (w, [Answer "Out of range"])
        else
          match nth_error owned (Z.to_nat idx - 1) with
          | Some s =>
              (put_state chat
                 {| st_mode := Edit; step := "builder"; data := draft_of s;
                    edit_index := Some idx; msg_id := None |} w,
               [EditEvent "Strategy Builder"])
          | None => (w, [Answer "Out of range"])
          end
    | BNew =>
        (put_state chat (with_msg_id (sent_id inp) (new_state Create "builder" empty_draft)) w,
         [Answer "New Strategy"; Send true (JInt chat) "Strategy Builder"])
    | BNewGroup g =>
        let st := match CONV_STATE w !! chat with
                  | Some st => st
                  | None => new_state Create "group" empty_draft
                  end in
        (put_state chat (with_step "builder" (with_data (with_group (Some g) (data st)) st)) w,
         [EditEvent "Strategy Builder"])
    | BBuilder =>
        with_builder (fun st =>
          (put_state chat (with_step "builder" st) w, [EditEvent "Strategy Builder"]))
    | BEdit key =>
        if String.eqb key "name" then
          (* the branch [data == 'edit:name'] opens a state if there is none *)
          let st := match CONV_STATE w !! chat with
                    | Some st => st
                    | None => new_state Create "edit_name" empty_draft
                    end in
          (put_state chat (with_step "edit_name" st) w, [EditEvent "Enter strategy name:"])
        else
          with_builder (fun st =>
            (put_state chat (with_step ("edit_" ++ key) st) w,
             [EditEvent (edit_prompt key)]))
    | BLabel l =>
        with_builder (fun st =>
          (put_state chat
             (with_data (with_filters (<["Label" := FStr l]> (d_filters (data st))) (data st)) st)
             w,
           [EditEvent "Strategy Builder"]))
    | BSet field val =>
        with_builder (fun st =>
          let d := data st in
          let d' :=
            if order_key field then
              match parse_order_value field val with
              | Some num =>
                  with_trojan (Some (set_trojan_field field num (trojan_or_empty d))) d
              | None => d
              end
            else d in
          (put_state chat (with_step "builder" (with_data d' st)) w,
           [EditEvent "Strategy Builder"]))
    | BSave => on_save ev inp w
    | BCancel =>
        (set_conv (delete chat (CONV_STATE w)) w, [EditEvent "Canceled"])
    | BPause => (set_paused true w, [Answer "Paused"; EditEvent "My Strategies - Page 1"])
    | BResume => (set_paused false w, [Answer "Resumed"; EditEvent "My Strategies - Page 1"])
    | BLimitMenu =>
        (put_state chat (new_state LimitAdHoc "token" empty_draft) w,
         [EditEvent "Enter Token Address for LIMIT order:"])
    | BLimitFor cid =>
        let ctx := PASS_CTX w !! cid in
        let token := option_map pc_token ctx in
        let d := {| d_name := None; d_group := None; d_filters := ∅; d_action := None;
                    d_trojan := None; d_token := token;
                    d_strategy_name := option_map pc_strat_name ctx;
                    d_amount := None; d_expiry := None; d_slippage := None;
                    d_trigger := None |} in
        (put_state chat (new_state Limit "amount" d) w,
         [EditEvent ("Amount (SOL) for " ++ opt_str (fun s => s) token ++ ":")])
    end.

(** ** Definitions used to state the properties *)

(** The five filter checks of the loop body, as values, and their
    evaluation in an arbitrary order with the control flow of the source:
    a failed check is a [continue], an exception leaves the body. *)
Inductive check : Type := CAge | CFirstBuy | CBalance | CTx | CLabel.

Definition source_order : list check := [CAge; CFirstBuy; CBalance; CTx; CLabel].

Definition run_check (filters_dict : gmap string fval) (parsed : ParsedFields)
    (age : Q) (c : check) : res bool :=
  match c with
  | CAge => token_age_passes filters_dict age
  | CFirstBuy =>
      Ok (range_filter_passes (filters_dict !! "First Buy (%)") (first_buy_pct parsed))
  | CBalance =>
      Ok (range_filter_passes (filters_dict !! "Balance (SOL)") (balance_sol parsed))
  | CTx =>
      Ok (range_filter_passes (filters_dict !! "Transactions (count)")
                              (option_map inject_Z (tx_count parsed)))
  | CLabel => Ok (label_filter_passes (filters_dict !! "Label") (label parsed))
  end.

Fixpoint eval_in_order (cs : list check) (filters_dict : gmap string fval)
    (parsed : ParsedFields) (age : Q) : res bool :=
  match cs with
  | [] => Ok true
  | c :: cs' =>
      match run_check filters_dict parsed age c with
      | Raised => Raised
      | Ok false => Ok false
      | Ok true => eval_in_order cs' filters_dict parsed age
      end
  end.

(** The strategy matched: the loop body reached the line that logs PASSED. *)
Definition passed (r : res bool) : bool :=
  match r with Ok true => true | _ => false end.

Definition strategy_matches (f : gmap string fval) (parsed : ParsedFields) (age : Q)
  : bool :=
  match failing_filter f parsed age with
  | Ok None => true
  | _ => false
  end.

(** Every range of a filter dict with both bounds set has from <= to. *)
Definition ranges_ordered (f : gmap string fval) : Prop :=
  forall k lo hi, f !! k = Some (FRange (Some lo) (Some hi)) -> (lo <= hi)%Q.

Definition legacy_text_owner : Strategy :=
  {| id := 1; name := Some "s"; group := Some "@SolanaNewPumpfun";
     enabled := Some true; filters := ∅; action := None; trojan := None;
     owner_id := Some (JStr "abc") |}.

Definition numeric_or_comma (c : ascii) : bool := numeric_char c || Ascii.eqb c ",".

(** The canonical text [float] receives: commas become dots when the
    string holds commas and no dot, then everything but digits, dots and
    signs is dropped. *)
Definition canonical (s : string) : string :=
  Py.filter_str numeric_char
    (if (0 <? Py.count_char "," s)%nat && (Py.count_char "." s =? 0)%nat
     then Py.replace_char "," "." s else s).

Definition no_digit (s : string) : bool :=
  Py.forallb_str (fun c => negb (Py.is_digit c)) s.

(** The two ways in which two texts get the same key. *)
Definition same_dedup_identity (t1 t2 : string) : Prop :=
  (exists addr, extract_token_address t1 = Some addr
                /\ extract_token_address t2 = Some addr)
  \/ (extract_token_address t1 = None /\ extract_token_address t2 = None
      /\ _normalize_text t1 = _normalize_text t2).

Definition listing_a : string := "new token So11111111111111111111111111111111111111112".
Definition listing_b : string := "CA: So11111111111111111111111111111111111111112 launched".

(** Two texts with the same normalized text whose addresses differ in
    letter case. *)
Definition upper_address : string := "AAAAAAAAAAAAAAAAAAAAAAAAAAAAAAAA".
Definition lower_address : string := "aaaaaaaaaaaaaaaaaaaaaaaaaaaaaaaa".

Definition paused_outcome (ev : Event) (inp : Inputs) (w : World)
  : World * list effect :=
  match chat_username ev with
  | Some g =>
      if existsb (String.eqb g) monitored_groups then
        let r := _is_duplicate (now inp) (message ev) (_processed_cache w) in
        (set_cache (snd r) w,
         [Log (L_new_message g);
          Log (if fst r then L_duplicate
               else if String.eqb g "solana_trojanbot" then L_paused_trojan
               else L_paused_group)])
      else (w, [])
  | None => (w, [])
  end.

Definition paused_world : World :=
  {| _processed_cache := ∅; PROCESSING_PAUSED := true; CONV_STATE := ∅;
     PASS_CTX := ∅; BOT_CONTROL_CHAT_ID := None; strategies_json := [];
     json_writable := true |}.

Definition plain_config : Config :=
  {| ALLOWED_USER_IDS := []; POST_ORDER_LIMIT_IN_GROUPS := true; bot_client := true |}.

Definition group_event (text : string) : Event :=
  {| chat_username := Some "SolanaNewPumpfun"; chat_id := -1001; sender_id := Some 7;
     is_private := false; message := text; date := 0 |}.

Definition at_time (t : Q) : Inputs :=
  {| now := t; token_hex := fun _ => "00c0ffee"; sent_id := Some 1 |}.

Definition brace (c : ascii) : bool := Ascii.eqb c "{" || Ascii.eqb c "}".

(** A plain field name: not positional, and free of braces and of the
    characters that start an attribute, an index, a conversion or a format
    spec. *)
Definition plain_name (n : string) : bool :=
  negb (positional n)
  && Py.forallb_str (fun c => negb (brace c || field_extra c)) n.

(** What the specification says of rendering: text is copied, doubled
    braces stand for braces, and a named placeholder is replaced by the
    text of its context value, or by nothing when the context has none. *)
Inductive renders (ctx : gmap string cval) : string -> string -> Prop :=
| renders_end : renders ctx "" ""
| renders_char c t out :
    brace c = false -> renders ctx t out -> renders ctx (String c t) (String c out)
| renders_open t out : renders ctx t out -> renders ctx ("{{" ++ t) ("{" ++ out)
| renders_close t out : renders ctx t out -> renders ctx ("}}" ++ t) ("}" ++ out)
| renders_field n t out :
    plain_name n = true -> renders ctx t out ->
    renders ctx ("{" ++ n ++ "}" ++ t) (lookup_or_empty ctx n ++ out).

(** Templates made of text, doubled braces and plain named fields. *)
Inductive well_formed : string -> Prop :=
| wf_end : well_formed ""
| wf_char c t : brace c = false -> well_formed t -> well_formed (String c t)
| wf_open t : well_formed t -> well_formed ("{{" ++ t)
| wf_close t : well_formed t -> well_formed ("}}" ++ t)
| wf_field n t : plain_name n = true -> well_formed t -> well_formed ("{" ++ n ++ "}" ++ t).

Definition sample_ctx : gmap string cval :=
  list_to_map [("token", CStr "So11111111111111111111111111111111111111112");
               ("tx_count", CInt 7); ("balance_sol", CFloat (16 # 5))].

(** A text message in the bot's private chat. *)
Definition dm (chat sender : Z) (text : string) : Event :=
  {| chat_username := None; chat_id := chat; sender_id := Some sender;
     is_private := true; message := text; date := 0 |}.




Definition wsol : string := "So11111111111111111111111111111111111111112".


(** Following the specification's words: an option is meaningfully set if it
    is a range with both bounds non-null, or a label that is non-empty and
    not the wildcard. *)
Definition meaningfully_set (k : string) (v : fval) : bool :=
  match v with
  | FRange (Some _) (Some _) => true
  | FRange _ _ => false
  | FStr s => (String.eqb k "Label" || String.eqb k "Mention")
              && negb (Py.is_empty (Py.strip s)) && negb (String.eqb (Py.strip s) "Any")
  | FNull => false
  end.

Definition count_meaningfully_set (filters : gmap string fval) : nat :=
  map_fold (fun k v cnt => if meaningfully_set k v then S cnt else cnt) O filters.

(** A strategy of the document whose three ranges each lack a bound. *)
Definition half_open_ranges : gmap string fval :=
  list_to_map [("Token Age (minutes)", FRange None (Some 5%Q));
               ("First Buy (%)", FRange None (Some 50%Q));
               ("Balance (SOL)", FRange (Some 1%Q) None)].

Definition legacy_strategy : Strategy :=
  {| id := 1700000000; name := Some "legacy"; group := Some "@SolanaNewPumpfun";
     enabled := Some true; filters := half_open_ranges; action := None;
     trojan := None; owner_id := Some (JInt 7) |}.

Definition legacy_world : World :=
  {| _processed_cache := ∅; PROCESSING_PAUSED := false; CONV_STATE := ∅;
     PASS_CTX := ∅; BOT_CONTROL_CHAT_ID := None;
     strategies_json := [legacy_strategy]; json_writable := true |}.

(** The owner opens the stored strategy in the builder, renames it and
    presses Save. *)
Definition rename_and_save : World * list effect :=
  let w1 := fst (on_button plain_config (dm 5 7 "") (at_time 0) (BEditStrategy 1) legacy_world) in
  let w2 := fst (on_button plain_config (dm 5 7 "") (at_time 0) (BEdit "name") w1) in
  let w3 := fst (bot_conversation plain_config (dm 5 7 "renamed") (at_time 0) w2) in
  on_button plain_config (dm 5 7 "") (at_time 0) BSave w3.

(** ** Definitions for the properties of the remaining code *)

(** [w'] is [w] except for the correlation map. *)
Definition only_pass_ctx_differs (w w' : World) : Prop :=
  w' = set_pass_ctx (PASS_CTX w') w.

Definition outsider_event : Event :=
  {| chat_username := None; chat_id := 9; sender_id := Some 99; is_private := true;
     message := "hello"; date := 0 |}.

Definition closed_config : Config :=
  {| ALLOWED_USER_IDS := [7]; POST_ORDER_LIMIT_IN_GROUPS := true; bot_client := true |}.

(** A strategy written under the old schema, and a message with every
    signal. *)
Definition legacy_first_buy : gmap string fval :=
  list_to_map [("First Buy (count)", FRange (Some 10%Q) (Some 20%Q));
               ("Mention", FStr "Dev Wallet Empty")].

Definition rich_signals : ParsedFields :=
  {| first_buy_pct := Some (25 # 2)%Q; balance_sol := Some (16 # 5)%Q;
     tx_count := Some 7; label := Some "Dev Wallet Empty" |}.

(** A builder session with two ranges, and one for the order venue. *)
Definition two_filter_state : ConvState :=
  new_state Create "builder"
    (with_group (Some "@SolanaNewPumpfun")
       (with_filters (list_to_map [("Balance (SOL)", FRange (Some 1%Q) (Some 5%Q));
                                   ("First Buy (%)", FRange (Some 10%Q) (Some 20%Q))])
          empty_draft)).

Definition two_filter_world : World :=
  {| _processed_cache := ∅; PROCESSING_PAUSED := false;
     CONV_STATE := {[ 5 := two_filter_state ]};
     PASS_CTX := ∅; BOT_CONTROL_CHAT_ID := None; strategies_json := [];
     json_writable := true |}.

Definition venue_draft_state : ConvState :=
  new_state Create "builder" (with_group (Some "@solana_trojanbot") empty_draft).

Definition venue_draft_world : World :=
  {| _processed_cache := ∅; PROCESSING_PAUSED := false;
     CONV_STATE := {[ 5 := venue_draft_state ]};
     PASS_CTX := ∅; BOT_CONTROL_CHAT_ID := None; strategies_json := [];
     json_writable := true |}.

(** A document shared by two owners, and owner 7 editing their strategy. *)
Definition foreign_strategy : Strategy :=
  {| id := 11; name := Some "theirs"; group := Some "@solana_trojanbot";
     enabled := Some true; filters := ∅; action := None; trojan := None;
     owner_id := Some (JInt 8) |}.

Definition own_strategy : Strategy :=
  {| id := 12; name := Some "mine"; group := Some "@solana_trojanbot";
     enabled := Some false; filters := ∅; action := None; trojan := None;
     owner_id := Some (JInt 7) |}.

Definition shared_edit_state : ConvState :=
  {| st_mode := Edit; step := "builder";
     data := with_name (Some "renamed") (draft_of own_strategy);
     edit_index := Some 1; msg_id := None |}.

Definition shared_edit_world : World :=
  {| _processed_cache := ∅; PROCESSING_PAUSED := false;
     CONV_STATE := {[ 5 := shared_edit_state ]};
     PASS_CTX := ∅; BOT_CONTROL_CHAT_ID := None;
     strategies_json := [foreign_strategy; own_strategy]; json_writable := true |}.

(** A limit flow waiting for the expiry. *)
Definition expiry_step_state : ConvState :=
  new_state LimitAdHoc "expiry"
    (with_amount (Some 1%Q) (with_token (Some wsol) empty_draft)).

Definition expiry_step_world : World :=
  {| _processed_cache := ∅; PROCESSING_PAUSED := false;
     CONV_STATE := {[ 5 := expiry_step_state ]};
     PASS_CTX := ∅; BOT_CONTROL_CHAT_ID := None; strategies_json := [];
     json_writable := true |}.


(** The shape of a token address. *)
Definition address_shaped (a : string) : Prop :=
  (32 <= String.length a <= 44)%nat /\ Py.forallb_str alnum_ascii a = true.

(** ** The strategy list, the detail view and the enable switch *)

(** The bounds of [items[start:stop]]: a negative index counts from the
    end, and both are clamped to the list. *)
Definition slice_index (len i : Z) : Z :=
  if i <? 0 then Z.max 0 (i + len) else Z.min i len.

(** [items[start:stop]] *)
Definition py_slice {X : Type} (items : list X) (start stop : Z) : list X :=
  let len := Z.of_nat (List.length items) in
  let a := slice_index len start in
  let b := slice_index len stop in
  firstn (Z.to_nat (b - a)) (skipn (Z.to_nat a) items).

(** [enumerate(xs, start=n)] *)
Fixpoint enumerate_from {X : Type} (n : Z) (xs : list X) : list (Z * X) :=
  match xs with
  | [] => []
  | x :: r => (n, x) :: enumerate_from (n + 1) r
  end.

(** [s.get('enabled', True)] *)
Definition is_enabled (s : Strategy) : bool :=
  match enabled s with Some b => b | None => true end.

(** A row of the list: the button '#<i> <flag> <name>' with the callback
    data 'view:<i>'. *)
Record StrategyRow : Type := {
  row_number : Z;
  row_enabled : bool;
  row_name : string
}.

Definition strategy_row (i : Z) (s : Strategy) : StrategyRow :=
  {| row_number := i;
     row_enabled := is_enabled s;
     row_name := match name s with Some n => n | None => "(unnamed)" end |}.

(** What [_strategies_page] returns: the page number of the title, the
    rows, the targets of the buttons 'Prev' ('page:<n>') and 'Next', and
    whether the control row offers 'Resume' rather than 'Pause'. *)
Record StrategiesPage : Type := {
  page_title : Z;
  page_rows : list StrategyRow;
  page_prev : option Z;
  page_next : option Z;
  page_resume : bool
}.

Definition _strategies_page (owner : option Z) (page page_size : Z) (w : World)
  : StrategiesPage :=
  let items := owned_by (load_strategies w) owner in
  let total := Z.of_nat (List.length items) in
  let start := (page - 1) * page_size in
  let end_ := start + page_size in
  let page_items := py_slice items start end_ in
  {| page_title := page;
     page_rows := map (fun '(i, s) => strategy_row i s)
                      (enumerate_from (start + 1) page_items);
     page_prev := if 0 <? start then Some (page - 1) else None;
     page_next := if end_ <? total then Some (page + 1) else None;
     page_resume := PROCESSING_PAUSED w |}.

Definition PAGE_SIZE : Z := 6.

Definition _get_owned_strategy (owner : option Z) (index : Z) (w : World)
  : list Strategy * option Strategy :=
  let all_items := load_strategies w in
  let owned := owned_by all_items owner in
  if (1 <=? index) && (index <=? Z.of_nat (List.length owned))
  then (all_items, nth_error owned (Z.to_nat (index - 1)))
  else (all_items, None).

Definition set_enabled (b : bool) (s : Strategy) : Strategy :=
  {| id := id s; name := name s; group := group s; enabled := Some b;
     filters := filters s; action := action s; trojan := trojan s;
     owner_id := owner_id s |}.

(** The buttons of the list and of the detail view, with the parsed
    argument: [None] stands for a failed [int(data.split(':', 1)[1])]. *)
Inductive list_button : Type :=
| BStrats
| BPage (page : option Z)
| BView (idx : option Z)
| BToggle (idx : option Z).

(** What these branches show: an answer, a page of the list, or the detail
    view of a strategy, whose buttons 'Edit', 'Enable' or 'Disable' and
    'Delete' carry the index of the view. *)
Inductive list_effect : Type :=
| LAnswer (text : string)
| LPage (p : StrategiesPage)
| LDetail (idx : Z) (s : Strategy).

(** The branches 'strats', 'page:', 'view:' and 'toggle:' of [on_button]. *)
Definition on_list_button (cfg : Config) (ev : Event) (b : list_button) (w : World)
  : World * list list_effect :=
  if negb (is_private ev) || negb (_authorized cfg (sender_id ev))
  then (w, [LAnswer "Not allowed"])
  else
    match b with
    | BStrats => (w, [LPage (_strategies_page (sender_id ev) 1 PAGE_SIZE w)])
    | BPage p =>
        let page := match p with Some n => n | None => 1 end in
        (w, [LPage (_strategies_page (sender_id ev) page PAGE_SIZE w)])
    | BView i =>
        let idx := match i with Some n => n | None => 1 end in
        match snd (_get_owned_strategy (sender_id ev) idx w) with
        | None => (w, [LAnswer "Not found"])
        | Some s => (w, [LDetail idx s])
        end
    | BToggle None => (w, [LAnswer "Invalid"])
    | BToggle (Some idx) =>
        let items := load_strategies w in
        let owned := owned_by items (sender_id ev) in
        if negb ((1 <=? idx) && (idx <=? Z.of_nat (List.length owned)))
        then (w, [LAnswer "Out of range"])
        else
          match nth_error owned (Z.to_nat idx - 1) with
          | Some s =>
              let flip x := set_enabled (negb (is_enabled x)) x in
              let '(ok, w') :=
                save_strategies (update_owned flip (sender_id ev) (Z.to_nat idx) items) w in
              (w', [LAnswer (if ok then "Saved" else "Save failed");
                    LDetail idx (flip s)])
          | None => (w, [LAnswer "Out of range"])
          end
    end.

(** [str.isdigit] below code point 256: the decimal digits and the
    superscripts one, two and three. *)
Definition isdigit_char (c : ascii) : bool :=
  Py.is_digit c || (Py.code c =? 178)%N || (Py.code c =? 179)%N
  || (Py.code c =? 185)%N.

Definition str_isdigit (s : string) : bool :=
  negb (Py.is_empty s) && Py.forallb_str isdigit_char s.

(** The position (from 1) of the first element that satisfies [p]. *)
Fixpoint find_position {X : Type} (p : X -> bool) (xs : list X) : option nat :=
  match xs with
  | [] => None
  | x :: r => if p x then Some 1%nat else option_map S (find_position p r)
  end.

(** The selection of [_toggle_enable]: the position in the sender's view
    of the strategy that the argument names, by '#<index>' or by name
    without regard to case.  [Raised]: [int] rejects a superscript digit
    that [isdigit] accepts. *)
Definition toggle_target (strategies : list Strategy) (arg : string)
  : res (option nat) :=
  match arg with
  | String "#" r =>
      if str_isdigit r then
        match int_of_str r with
        | Some idx =>
            if (1 <=? idx) && (idx <=? Z.of_nat (List.length strategies))
            then Ok (Some (Z.to_nat idx)) else Ok None
        | None => Raised
        end
      else
        Ok (find_position
              (fun it => String.eqb (Py.lower (name_or_empty it)) (Py.lower arg))
              strategies)
  | _ =>
      Ok (find_position
            (fun it => String.eqb (Py.lower (name_or_empty it)) (Py.lower arg))
            strategies)
  end.

(** [_toggle_enable], the body of the commands '/enable' and '/disable';
    [None]: the exception of [int] leaves the handler. *)
Definition _toggle_enable (ev : Event) (enable : bool) (arg : string) (w : World)
  : option (World * list effect) :=
  let all_items := load_strategies w in
  let strategies := owned_by all_items (sender_id ev) in
  if Py.is_empty arg then Some (w, [Respond "Provide a name or #index"])
  else
    match toggle_target strategies arg with
    | Raised => None
    | Ok None => Some (w, [Respond "Strategy not found"])
    | Ok (Some k) =>
        match nth_error strategies (k - 1) with
        | None => Some (w, [Respond "Strategy not found"])
        | Some s =>
            let '(ok, w') :=
              save_strategies
                (update_owned (set_enabled enable) (sender_id ev) k all_items) w in
            Some (w',
                  [Respond
                     (if ok
                      then (if enable then "Enabled" else "Disabled") ++ ": "
                           ++ match name s with Some n => n | None => "None" end
                      else "Failed to save strategies.json")])
        end
    end.

(** [bot_enable] and [bot_disable], for the argument that the pattern of
    the command captures (the empty string if it captures none). *)
Definition bot_enable_disable (cfg : Config) (ev : Event) (enable : bool)
    (captured : string) (w : World) : option (World * list effect) :=
  if negb (is_private ev) || negb (_authorized cfg (sender_id ev))
  then Some (w, [])
  else _toggle_enable ev enable (Py.strip captured) w.

(** A strategy that the loops of [process_token_message] and
    [process_trojan_message] pass over: disabled, or of another group. *)
Definition dormant (gui_group : string) (s : Strategy) : bool :=
  negb (is_enabled s) || negb (opt_string_eqb (group s) (Some gui_group)).

(** The rows that a user sees who opens the list and presses 'Next' until
    the button is no longer offered, at most [presses] times. *)
Fixpoint browse (owner : option Z) (w : World) (presses : nat) (page : Z)
  : list StrategyRow :=
  let p := _strategies_page owner page PAGE_SIZE w in
  (page_rows p ++
   match presses, page_next p with
   | S n, Some next => browse owner w n next
   | _, _ => []
   end)%list.

(** A document with strategies of two owners; the view of owner 7 has nine
    entries. *)
Definition numbered (n owner : Z) : Strategy :=
  {| id := n; name := Some ("s" ++ int_str n); group := Some "@SolanaNewPumpfun";
     enabled := Some (Z.even n); filters := ∅; action := None; trojan := None;
     owner_id := Some (JInt owner) |}.

Definition crowded_world : World :=
  {| _processed_cache := ∅; PROCESSING_PAUSED := false; CONV_STATE := ∅;
     PASS_CTX := ∅; BOT_CONTROL_CHAT_ID := None;
     strategies_json :=
       [numbered 1 7; numbered 2 8; numbered 3 7; numbered 4 7; numbered 5 7;
        numbered 6 8; numbered 7 7; numbered 8 7; numbered 9 7; numbered 10 7;
        numbered 11 7];
     json_writable := true |}.

(** The command '/enable S3' in the crowded document. *)
Definition enable_s3 : option (World * list effect) :=
  bot_enable_disable plain_config (dm 5 7 "/enable S3") true " S3 " crowded_world.

(** A document whose only strategy for the monitored group is disabled. *)
Definition switched_off_world : World :=
  {| _processed_cache := ∅; PROCESSING_PAUSED := false; CONV_STATE := ∅;
     PASS_CTX := ∅; BOT_CONTROL_CHAT_ID := None;
     strategies_json := [numbered 3 7; foreign_strategy];
     json_writable := true |}.

(** Every card sent so far carries the token of the message, and the
    context stored under its id carries that token as well. *)
Definition cards_stored (txt : string) (w : World) (es : list effect) : Prop :=
  forall dest cid card, In (SendCard dest cid card) es ->
    extract_token_address txt = Some (pc_token card)
    /\ exists stored, PASS_CTX w !! cid = Some stored
                      /\ pc_token stored = pc_token card.

(** A document with one enabled strategy without filters, and the card
    that a listing of the wrapped SOL address produces for it. *)
Definition matching_world : World :=
  {| _processed_cache := ∅; PROCESSING_PAUSED := false; CONV_STATE := ∅;
     PASS_CTX := ∅; BOT_CONTROL_CHAT_ID := None;
     strategies_json := [numbered 4 7]; json_writable := true |}.

Definition sample_card : PassCtx :=
  {| pc_token := wsol;
     pc_payload := TokenMatch (get_age_minutes 60 0) (parse_message_fields wsol);
     pc_strat_index := 1; pc_strat_name := "s4" |}.

(** Every character that the pattern can consume is of the class [P]. *)
Fixpoint consumes (P : ascii -> bool) (r : Re.re) : Prop :=
  match r with
  | Re.Eps | Re.WordB => True
  | Re.Chr q => forall c, q c = true -> P c = true
  | Re.Seq a b | Re.Alt a b => consumes P a /\ consumes P b
  | Re.Star a | Re.Rep a _ _ | Re.Grp _ a => consumes P a
  end.

(** Every capture group of the pattern consumes characters of [P] only. *)
Fixpoint groups_in (P : ascii -> bool) (r : Re.re) : Prop :=
  match r with
  | Re.Eps | Re.WordB | Re.Chr _ => True
  | Re.Seq a b | Re.Alt a b => groups_in P a /\ groups_in P b
  | Re.Star a | Re.Rep a _ _ => groups_in P a
  | Re.Grp _ a => consumes P a /\ groups_in P a
  end.

Definition groups_ok (P : ascii -> bool) (gs : list (nat * string)) : Prop :=
  forall i v, In (i, v) gs -> Py.forallb_str P v = true.

(** A parsed number, if there is one, is not negative. *)
Definition not_negative (o : option Q) : Prop :=
  match o with Some q => (0 <= q)%Q | None => True end.

(** The characters of a number without sign. *)
Definition digit_or_dot (c : ascii) : bool := Py.is_digit c || Ascii.eqb c ".".

(** A filter dict whose balance range lies below zero. *)
Definition below_zero_balance : gmap string fval :=
  {[ "Balance (SOL)" := FRange (Some (-5)%Q) (Some (-1)%Q) ]}.

(** ** Durations as the builder shows them *)

(** One part of a shown duration: a positive count and its unit. *)
Definition duration_part (x : Z) (u : ascii) : string :=
  int_str x ++ String u "".

(** [_fmt_minutes_human]: [None] stands for a missing value, on which
    [float] raises. *)
Definition _fmt_minutes_human (minutes_val : option Q) : string :=
  match minutes_val with
  | None => "Not set"
  | Some v =>
      let total_seconds := py_round (v * 60) in
      if total_seconds <=? 0 then "Not set"
      else
        let d := total_seconds / 86400 in
        let rem := total_seconds mod 86400 in
        let h := rem / 3600 in
        let rem := rem mod 3600 in
        let m := rem / 60 in
        let s := rem mod 60 in
        let parts : list string := [] in
        let parts := if d =? 0 then parts else (parts ++ [duration_part d "d"])%list in
        let parts := if h =? 0 then parts else (parts ++ [duration_part h "h"])%list in
        let parts := if m =? 0 then parts else (parts ++ [duration_part m "m"])%list in
        let parts :=
          if negb (s =? 0) && match parts with [] => true | _ => false end
          then (parts ++ [duration_part s "s"])%list else parts in
        match parts with
        | [] => "0m"
        | _ => String.concat " " parts
        end
  end.

(** The value of a decimal numeral, most significant digit first. *)
Fixpoint uval (acc : Z) (u : Decimal.uint) : Z :=
  match u with
  | Decimal.Nil => acc
  | Decimal.D0 l => uval (10 * acc + 0) l
  | Decimal.D1 l => uval (10 * acc + 1) l
  | Decimal.D2 l => uval (10 * acc + 2) l
  | Decimal.D3 l => uval (10 * acc + 3) l
  | Decimal.D4 l => uval (10 * acc + 4) l
  | Decimal.D5 l => uval (10 * acc + 5) l
  | Decimal.D6 l => uval (10 * acc + 6) l
  | Decimal.D7 l => uval (10 * acc + 7) l
  | Decimal.D8 l => uval (10 * acc + 8) l
  | Decimal.D9 l => uval (10 * acc + 9) l
  end.

(** The character before the position reached after reading [a]. *)
Fixpoint last_char (pv : option ascii) (a : string) : option ascii :=
  match a with
  | EmptyString => pv
  | String c r => last_char (Some c) r
  end.

(** The head of [r], if any, is not of the class. *)
Definition stops (q : ascii -> bool) (r : string) : Prop :=
  match r with
  | EmptyString => True
  | String c _ => q c = false
  end.

(** A duration written as counts with unit letters, and its minutes. *)
Definition render_parts (parts : list (Z * ascii)) : string :=
  String.concat " " (map (fun '(x, u) => duration_part x u) parts).

Definition unit_minutes (u : ascii) : Q :=
  if Ascii.eqb u "s" then 1 # 60
  else if Ascii.eqb u "m" then 1
  else if Ascii.eqb u "h" then 60
  else if Ascii.eqb u "d" then 1440
  else 0.

Definition minutes_of (parts : list (Z * ascii)) : Q :=
  fold_left (fun total '(x, u) => (total + inject_Z x * unit_minutes u)%Q) parts 0%Q.

Definition part_ok (part : Z * ascii) : Prop :=
  0 < fst part /\ unit_char (snd part) = true.

(** What the loop of [_parse_duration_to_minutes] reads of a token. *)
Definition token_groups (m : Re.mtch) : string * string := (Re.group 1 m, Re.group 2 m).

(** The characters of a shown duration. *)
Definition shown_char (c : ascii) : bool :=
  Py.is_digit c || unit_char c || Ascii.eqb c " ".

(** The parts that [_fmt_minutes_human] shows for a number of seconds:
    days, hours and minutes that are not zero, or else the seconds. *)
Definition shown_parts (total_seconds : Z) : list (Z * ascii) :=
  let d := total_seconds / 86400 in
  let rem := total_seconds mod 86400 in
  let h := rem / 3600 in
  let rem := rem mod 3600 in
  let m := rem / 60 in
  let s := rem mod 60 in
  match List.filter (fun part => negb (fst part =? 0))
                    [(d, "d"%char); (h, "h"%char); (m, "m"%char)] with
  | [] => if s =? 0 then [] else [(s, "s"%char)]
  | big => big
  end.

(** The duration that a shown text stands for: the seconds below one
    minute, whole minutes from there on. *)
Definition shown_minutes (total_seconds : Z) : Q :=
  if total_seconds <? 60 then total_seconds # 60 else inject_Z (total_seconds / 60).


(** * Properties *)

(** ** Ownership *)

(** C10: a strategy whose [owner_id] is present but is not convertible by
    [int] belongs to every requesting owner id: the ownership test
    answers true, so the strategy is in every owner's scoped view. *)
Theorem belongs_to_fails_open (s : Strategy) (sid : jval) :
  owner_id s = Some sid ->
  py_int sid = None ->
  forall o : Z,
    _belongs_to s (Some o) = true
    /\ forall items, In s items -> In s (owned_by items (Some o)).
Proof.
  intros Hsid Hint o.
  assert (Hb : _belongs_to s (Some o) = true).
  { unfold _belongs_to. rewrite Hsid. destruct sid; try reflexivity; now rewrite Hint. }
  split; [exact Hb|].
  intros items Hin. unfold owned_by. apply filter_In. now split.
Qed.

Lemma belongs_to_fails_open_witness :
  _belongs_to legacy_text_owner (Some 42) = true
  /\ forall items, In legacy_text_owner items ->
                   In legacy_text_owner (owned_by items (Some 42)).
Proof.
  apply (belongs_to_fails_open legacy_text_owner (JStr "abc")); reflexivity.
Defined.

(** ** Filter evaluation *)



Lemma passed_true (r : res bool) : passed r = true <-> r = Ok true.
Proof. destruct r as [[|]|]; simpl; split; congruence. Qed.

Lemma passed_eval_in_order cs fd parsed age :
  passed (eval_in_order cs fd parsed age)
  = forallb (fun c => passed (run_check fd parsed age c)) cs.
Proof.
  induction cs as [|c cs IH]; [reflexivity|].
  simpl. destruct (run_check fd parsed age c) as [[|]|]; simpl; auto.
Qed.

Lemma forallb_permutation {A : Type} (p : A -> bool) (l l' : list A) :
  Permutation l l' -> forallb p l = forallb p l'.
Proof.
  induction 1; simpl; try congruence.
  - now rewrite !andb_assoc, (andb_comm (p y)).
Qed.

Lemma strategy_matches_source_order f parsed age :
  strategy_matches f parsed age
  = passed (eval_in_order source_order (normalize_filters f) parsed age).
Proof.
  unfold strategy_matches, failing_filter, source_order. simpl.
  destruct (token_age_passes _ _) as [[|]|]; try reflexivity.
  repeat (match goal with
          | |- context [range_filter_passes ?a ?b] =>
              destruct (range_filter_passes a b); simpl; try reflexivity
          end).
  destruct (label_filter_passes _ _); reflexivity.
Qed.

(** C5: a strategy matches exactly when each of the five checks (age
    range, first-buy range, balance range, transaction range, label)
    passes on its own, and evaluating the checks in any other order gives
    the same verdict. *)
Theorem match_is_conjunction_in_any_order
    (f : gmap string fval) (parsed : ParsedFields) (age : Q) :
  (strategy_matches f parsed age = true
   <-> forall c, run_check (normalize_filters f) parsed age c = Ok true)
  /\ (forall order,
        Permutation source_order order ->
        passed (eval_in_order order (normalize_filters f) parsed age)
        = strategy_matches f parsed age).
Proof.
  split.
  - rewrite strategy_matches_source_order, passed_eval_in_order, forallb_forall.
    split.
    + intros H c. apply passed_true, H. destruct c; simpl; tauto.
    + intros H c _. apply passed_true, H.
  - intros order Hperm.
    rewrite strategy_matches_source_order, !passed_eval_in_order.
    symmetry. now apply forallb_permutation.
Qed.

Lemma match_is_conjunction_in_any_order_witness :
  passed (eval_in_order [CLabel; CTx; CBalance; CFirstBuy; CAge]
            (normalize_filters {["Balance (SOL)" := FRange (Some 1%Q) (Some 5%Q)]})
            {| first_buy_pct := None; balance_sol := Some (16 # 5)%Q;
               tx_count := None; label := None |} 0%Q)
  = strategy_matches {["Balance (SOL)" := FRange (Some 1%Q) (Some 5%Q)]}
      {| first_buy_pct := None; balance_sol := Some (16 # 5)%Q;
         tx_count := None; label := None |} 0%Q.
Proof.
  apply (proj2 (match_is_conjunction_in_any_order _ _ _)).
  change [CLabel; CTx; CBalance; CFirstBuy; CAge] with (rev source_order).
  apply Permutation_rev.
Defined.

(** ** The builder's range input *)

Lemma parse_range_ordered text lo hi :
  _parse_range text = Some (lo, hi) -> (lo <= hi)%Q.
Proof.
  unfold _parse_range.
  destruct (existsb _ _); [discriminate|].
  destruct (range_bounds _) as [[a|] [b|]]; try discriminate.
  destruct (Qle_bool a b) eqn:E; intros [= <- <-].
  - now apply Qle_bool_iff.
  - apply Qlt_le_weak, Qnot_le_lt. intros H.
    apply Qle_bool_iff in H. congruence.
Qed.

Lemma ranges_ordered_insert f k lo hi :
  ranges_ordered f -> (lo <= hi)%Q ->
  ranges_ordered (<[k := FRange (Some lo) (Some hi)]> f).
Proof.
  intros Hf Hle k' lo' hi'. rewrite lookup_insert.
  destruct (decide (k = k')) as [->|Hne].
  - intros [= <- <-]. exact Hle.
  - apply Hf.
Qed.

Lemma show_builder_data inp chat st :
  data (fst (show_builder inp chat st)) = data st.
Proof. unfold show_builder. destruct (id_truthy _); reflexivity. Qed.

Lemma edit_field_ranges inp chat text st :
  ranges_ordered (d_filters (data st)) ->
  ranges_ordered (d_filters (data (fst (edit_field inp chat text st)))).
Proof.
  intros H. unfold edit_field.
  repeat (match goal with
          | |- context [if ?b then _ else _] => destruct b
          | |- context [match parse_order_value ?a ?b with _ => _ end] =>
              destruct (parse_order_value a b)
          | |- context [match range_filter_name ?a with _ => _ end] =>
              destruct (range_filter_name a)
          | |- context [match _parse_range ?a with _ => _ end] =>
              let E := fresh "E" in destruct (_parse_range a) as [[? ?]|] eqn:E
          end; rewrite ?show_builder_data; simpl; try exact H).
  all: apply ranges_ordered_insert; [exact H|]; eapply parse_range_ordered; eauto.
Qed.

Lemma limit_numeric_step_filters text st r :
  limit_numeric_step text st = Some r ->
  d_filters (data (fst r)) = d_filters (data st).
Proof.
  unfold limit_numeric_step.
  repeat (match goal with
          | |- context [if ?b then _ else _] => destruct b
          | |- context [match ?x with Some _ => _ | None => _ end] => destruct x
          end); intros [= <-]; reflexivity.
Qed.

Lemma conversation_step_ranges cfg ev inp text st w st' es :
  conversation_step cfg ev inp text st w = (Some st', es) ->
  ranges_ordered (d_filters (data st)) ->
  ranges_ordered (d_filters (data st')).
Proof.
  unfold conversation_step. intros Hstep H.
  destruct (_ || _).
  { injection Hstep as <- _. now rewrite show_builder_data. }
  destruct (starts_with _ _).
  { injection Hstep as <- _. now apply edit_field_ranges. }
  destruct (st_mode st); try (injection Hstep as <- _; exact H).
  - destruct (limit_numeric_step text st) as [r|] eqn:E.
    + injection Hstep as <- _. now rewrite (limit_numeric_step_filters _ _ _ E).
    + destruct (String.eqb _ _); [|injection Hstep as <- _; exact H].
      destruct (_parse_number text); [|injection Hstep as <- _; exact H].
      destruct (first_owned_named _ _ _); discriminate.
  - destruct (String.eqb (step st) "token").
    { injection Hstep as <- _. exact H. }
    destruct (limit_numeric_step text st) as [r|] eqn:E.
    + injection Hstep as <- _. now rewrite (limit_numeric_step_filters _ _ _ E).
    + destruct (String.eqb _ _); [|injection Hstep as <- _; exact H].
      destruct (_parse_number text); [discriminate|injection Hstep as <- _; exact H].
Qed.

(** C9: every range the builder's free-text input commits to a draft has
    from <= to: [_parse_range] orders the two bounds it parsed, the
    accepted range is stored as parsed, and a text message to the
    conversation keeps every range of the draft ordered. *)
Theorem range_input_keeps_ranges_ordered :
  (forall text lo hi, _parse_range text = Some (lo, hi) -> (lo <= hi)%Q)
  /\ (forall inp chat text st fname lo hi,
        d_group (data st) <> Some "@solana_trojanbot" ->
        In (step st, fname)
           [("edit_token_age", "Token Age (minutes)"); ("edit_first_buy", "First Buy (%)");
            ("edit_balance", "Balance (SOL)"); ("edit_tx", "Transactions (count)")] ->
        _parse_range text = Some (lo, hi) ->
        d_filters (data (fst (edit_field inp chat text st))) !! fname
        = Some (FRange (Some lo) (Some hi)) /\ (lo <= hi)%Q)
  /\ (forall cfg ev inp w st st',
        CONV_STATE w !! chat_id ev = Some st ->
        ranges_ordered (d_filters (data st)) ->
        CONV_STATE (fst (bot_conversation cfg ev inp w)) !! chat_id ev = Some st' ->
        ranges_ordered (d_filters (data st'))).
Proof.
  split; [exact parse_range_ordered|split].
  - intros inp chat text st fname lo hi Hg Hin Hr.
    split; [|now apply parse_range_ordered in Hr].
    unfold edit_field.
    assert (Hng : opt_string_eqb (d_group (data st)) (Some "@solana_trojanbot") = false).
    { destruct (d_group (data st)) as [g|]; [|reflexivity]. simpl.
      destruct (String.eqb_spec g "@solana_trojanbot"); congruence. }
    rewrite Hng.
    simpl in Hin.
    destruct Hin as [E|[E|[E|[E|[]]]]]; injection E as Es <-; rewrite <- Es;
      simpl; rewrite Hr, show_builder_data; simpl; apply lookup_insert_eq.
  - intros cfg ev inp w st st' Hst Hord.
    unfold bot_conversation.
    destruct (_ || _); [simpl; intros H; rewrite Hst in H; now injection H as <-|].
    destruct (starts_with _ _); [simpl; intros H; rewrite Hst in H; now injection H as <-|].
    rewrite Hst.
    destruct (conversation_step _ _ _ _ _ _) as [[s1|] es] eqn:E; simpl.
    + rewrite lookup_insert_eq. intros [= <-].
      eapply conversation_step_ranges; eauto.
    + rewrite lookup_delete_eq. discriminate.
Qed.

Lemma range_input_keeps_ranges_ordered_witness :
  _parse_range "5 - 1" = Some (1%Q, 5%Q) /\ (1 <= 5)%Q.
Proof.
  assert (H : _parse_range "5 - 1" = Some (1%Q, 5%Q)) by (vm_compute; reflexivity).
  split; [exact H|].
  exact (proj1 range_input_keeps_ranges_ordered "5 - 1" 1%Q 5%Q H).
Defined.

(** ** Numeric parsing *)

Section FilterIgnoresSpace.

Variable p : ascii -> bool.
Hypothesis p_space : forall c, Py.is_space c = true -> p c = false.

Lemma filter_lstrip s : Py.filter_str p (Py.lstrip s) = Py.filter_str p s.
Proof.
  induction s as [|c r IH]; [reflexivity|]. simpl.
  destruct (Py.is_space c) eqn:E; [|reflexivity].
  now rewrite (p_space c E).
Qed.

Lemma filter_rstrip s : Py.filter_str p (Py.rstrip s) = Py.filter_str p s.
Proof.
  induction s as [|c r IH]; [reflexivity|]. simpl.
  destruct (Py.rstrip r) as [|c' r'] eqn:E.
  - simpl in IH. destruct (Py.is_space c) eqn:Es.
    + now rewrite (p_space c Es).
    + simpl. now rewrite <- IH.
  - simpl. simpl in IH. now rewrite IH.
Qed.

Lemma filter_strip s : Py.filter_str p (Py.strip s) = Py.filter_str p s.
Proof. unfold Py.strip. now rewrite filter_rstrip, filter_lstrip. Qed.

Lemma filter_remove_space s :
  Py.filter_str p (Py.remove_char " " s) = Py.filter_str p s.
Proof.
  induction s as [|c r IH]; [reflexivity|]. unfold Py.remove_char in *. simpl.
  destruct (Ascii.eqb_spec c " ") as [->|_]; simpl.
  - now rewrite IH, (p_space " " eq_refl).
  - now rewrite IH.
Qed.

End FilterIgnoresSpace.

Lemma count_as_filter a s :
  Py.count_char a s = String.length (Py.filter_str (fun c => Ascii.eqb c a) s).
Proof.
  induction s as [|c r IH]; [reflexivity|]. simpl.
  destruct (Ascii.eqb c a); simpl; now rewrite IH.
Qed.

Lemma space_not_numeric_or_comma c :
  Py.is_space c = true -> numeric_or_comma c = false.
Proof. destruct c as [[] [] [] [] [] [] [] []]; vm_compute; congruence. Qed.

Lemma space_not_numeric c : Py.is_space c = true -> numeric_char c = false.
Proof. destruct c as [[] [] [] [] [] [] [] []]; vm_compute; congruence. Qed.

Lemma space_not_comma c : Py.is_space c = true -> Ascii.eqb c "," = false.
Proof. destruct c as [[] [] [] [] [] [] [] []]; vm_compute; congruence. Qed.

Lemma space_not_dot c : Py.is_space c = true -> Ascii.eqb c "." = false.
Proof. destruct c as [[] [] [] [] [] [] [] []]; vm_compute; congruence. Qed.

Lemma filter_replace_comma s :
  Py.filter_str numeric_char (Py.replace_char "," "." s)
  = Py.replace_char "," "." (Py.filter_str numeric_or_comma s).
Proof.
  induction s as [|c r IH]; [reflexivity|].
  unfold Py.replace_char in *. simpl.
  destruct (Ascii.eqb_spec c ",") as [->|Hc].
  - simpl. now rewrite IH.
  - unfold numeric_or_comma at 1.
    replace (Ascii.eqb c ",") with false by (symmetry; now apply Ascii.eqb_neq).
    rewrite orb_false_r. destruct (numeric_char c); simpl; rewrite IH; [|reflexivity].
    now replace (Ascii.eqb c ",") with false by (symmetry; now apply Ascii.eqb_neq).
Qed.

Lemma only_signs_or_dots_float x : only_signs_or_dots x = true -> Py.float x = None.
Proof.
  unfold only_signs_or_dots. intros H.
  apply existsb_exists in H. destruct H as [y [Hin Heq]].
  apply String.eqb_eq in Heq. subst y. simpl in Hin.
  repeat (destruct Hin as [<-|Hin]; [reflexivity|]). contradiction.
Qed.

Lemma float_empty : Py.float "" = None.
Proof. reflexivity. Qed.

Lemma parse_number_canonical s : _parse_number s = Py.float (canonical s).
Proof.
  unfold _parse_number, canonical.
  rewrite !count_as_filter.
  rewrite !(filter_remove_space _ space_not_comma), !(filter_remove_space _ space_not_dot).
  rewrite !(filter_strip _ space_not_comma), !(filter_strip _ space_not_dot).
  set (cond := (_ && _)%bool).
  assert (Hsame :
    Py.filter_str numeric_char
      (if cond then Py.replace_char "," "." (Py.remove_char " " (Py.strip s))
       else Py.remove_char " " (Py.strip s))
    = Py.filter_str numeric_char (if cond then Py.replace_char "," "." s else s)).
  { destruct cond.
    - rewrite !filter_replace_comma.
      now rewrite (filter_remove_space _ space_not_numeric_or_comma),
                  (filter_strip _ space_not_numeric_or_comma).
    - now rewrite (filter_remove_space _ space_not_numeric),
                  (filter_strip _ space_not_numeric). }
  rewrite Hsame.
  destruct (Py.is_empty (Py.strip s)) eqn:Eempty.
  - assert (Hs : Py.strip s = "") by (destruct (Py.strip s); [reflexivity|discriminate]).
    symmetry. destruct cond.
    + rewrite filter_replace_comma, <- (filter_strip _ space_not_numeric_or_comma), Hs.
      reflexivity.
    + rewrite <- (filter_strip _ space_not_numeric), Hs. reflexivity.
  - destruct (only_signs_or_dots _) eqn:E; [|reflexivity].
    symmetry. now apply only_signs_or_dots_float.
Qed.

Lemma filter_remove_char p a s :
  p a = false -> Py.filter_str p (Py.remove_char a s) = Py.filter_str p s.
Proof.
  intros Hp. induction s as [|c r IH]; [reflexivity|].
  unfold Py.remove_char in *. simpl.
  destruct (Ascii.eqb_spec c a) as [->|_]; simpl; rewrite IH; [now rewrite Hp|reflexivity].
Qed.

Lemma replace_absent a b s :
  Py.count_char a s = O -> Py.replace_char a b s = s.
Proof.
  induction s as [|c r IH]; [reflexivity|]. unfold Py.replace_char in *. simpl.
  destruct (Ascii.eqb c a); [discriminate|]. intros H. now rewrite IH.
Qed.

Lemma count_replaced a b s :
  Ascii.eqb b a = false -> Py.count_char a (Py.replace_char a b s) = O.
Proof.
  intros Hb. induction s as [|c r IH]; [reflexivity|].
  unfold Py.replace_char in *. simpl.
  destruct (Ascii.eqb c a) eqn:E; [rewrite Hb|rewrite E]; exact IH.
Qed.

Lemma replace_remove_space s :
  Py.replace_char "," "." (Py.remove_char " " s)
  = Py.remove_char " " (Py.replace_char "," "." s).
Proof.
  induction s as [|c r IH]; [reflexivity|].
  unfold Py.replace_char, Py.remove_char in *. simpl.
  destruct (Ascii.eqb_spec c " ") as [->|Hs]; simpl; [exact IH|].
  destruct (Ascii.eqb_spec c ",") as [->|Hc]; simpl; [now rewrite IH|].
  replace (Ascii.eqb c " ") with false by (symmetry; now apply Ascii.eqb_neq).
  simpl. now rewrite IH.
Qed.

Lemma no_digit_filter p s : no_digit s = true -> no_digit (Py.filter_str p s) = true.
Proof.
  unfold no_digit. induction s as [|c r IH]; [reflexivity|]. simpl.
  intros H. apply andb_true_iff in H as [Hc Hr].
  destruct (p c); simpl; [rewrite Hc|]; auto.
Qed.

Lemma no_digit_replace s :
  no_digit s = true -> no_digit (Py.replace_char "," "." s) = true.
Proof.
  unfold no_digit, Py.replace_char. induction s as [|c r IH]; [reflexivity|]. simpl.
  intros H. apply andb_true_iff in H as [Hc Hr].
  rewrite (IH Hr), andb_true_r. destruct (Ascii.eqb c ","); [reflexivity|exact Hc].
Qed.

Lemma digits_and_no_digit s :
  Py.forallb_str Py.is_digit s = true -> no_digit s = true -> s = "".
Proof.
  destruct s as [|c r]; [reflexivity|]. unfold no_digit. simpl.
  intros H1 H2. apply andb_true_iff in H1 as [H1 _]. apply andb_true_iff in H2 as [H2 _].
  rewrite H1 in H2. discriminate.
Qed.

Lemma split_dot_no_digit s :
  no_digit s = true ->
  no_digit (fst (Py.split_dot s)) = true
  /\ no_digit (match snd (Py.split_dot s) with Some fr => fr | None => "" end) = true.
Proof.
  unfold no_digit. induction s as [|c r IH]; [split; reflexivity|]. simpl.
  intros H. apply andb_true_iff in H as [Hc Hr].
  destruct (Ascii.eqb c "."); [split; [reflexivity|exact Hr]|].
  destruct (Py.split_dot r) as [i f]. simpl in *.
  destruct (IH Hr) as [Hi Hf]. split; [now rewrite Hc, Hi|exact Hf].
Qed.

Lemma unsigned_float_no_digit s : no_digit s = true -> Py.unsigned_float s = None.
Proof.
  intros H. unfold Py.unsigned_float.
  destruct (split_dot_no_digit s H) as [Hi Hf].
  destruct (Py.split_dot s) as [i f]. simpl in Hi, Hf.
  set (fr := match f with Some fr => fr | None => "" end) in *.
  destruct (Py.forallb_str Py.is_digit i) eqn:Ei; [|reflexivity].
  destruct (Py.forallb_str Py.is_digit fr) eqn:Ef; [|reflexivity].
  rewrite (digits_and_no_digit _ Ei Hi), (digits_and_no_digit _ Ef Hf). reflexivity.
Qed.

Lemma float_no_digit s : no_digit s = true -> Py.float s = None.
Proof.
  intros H. destruct s as [|c r]; [reflexivity|].
  assert (Hr : no_digit r = true).
  { unfold no_digit in *. simpl in H. now apply andb_true_iff in H as [_ H]. }
  pose proof (unsigned_float_no_digit _ H) as Hu.
  pose proof (unsigned_float_no_digit _ Hr) as Hur.
  destruct c as [[] [] [] [] [] [] [] []]; simpl; rewrite ?Hur; try exact Hu; reflexivity.
Qed.

(** C6: a comma is the decimal separator when the string has no dot;
    spaces and, next to a dot, commas (thousands separators) are dropped;
    a string without a digit (one that reduces to signs and dots) gives
    null; and the three examples of the specification hold. *)
Theorem parse_number_normalizes :
  (forall s, Py.count_char "." s = O ->
             _parse_number s = _parse_number (Py.replace_char "," "." s))
  /\ (forall s, _parse_number (Py.remove_char " " s) = _parse_number s)
  /\ (forall s, Py.count_char "." s <> O ->
                _parse_number (Py.remove_char "," s) = _parse_number s)
  /\ (forall s, no_digit s = true -> _parse_number s = None)
  /\ (_parse_number "1 000,50" = Some (2001 # 2)%Q /\ (2001 # 2 == 1000.50)%Q)
  /\ _parse_number "-" = None
  /\ (_parse_number "12.3abc" = Some (123 # 10)%Q /\ (123 # 10 == 12.3)%Q).
Proof.
  repeat split; try reflexivity.
  - intros s Hdot. rewrite !parse_number_canonical. unfold canonical.
    rewrite (count_replaced "," "." s eq_refl), Hdot. simpl.
    destruct (Py.count_char "," s) eqn:E; simpl; [|reflexivity].
    now rewrite (replace_absent _ _ _ E).
  - intros s. rewrite !parse_number_canonical. unfold canonical.
    rewrite !count_as_filter, !(filter_remove_char _ " " s eq_refl).
    destruct (_ && _)%bool.
    + rewrite replace_remove_space. now rewrite filter_remove_char.
    + now rewrite filter_remove_char.
  - intros s Hdot. rewrite !parse_number_canonical. unfold canonical.
    assert (Hc : Py.count_char "." (Py.remove_char "," s) = Py.count_char "." s).
    { rewrite !count_as_filter. now rewrite filter_remove_char. }
    rewrite Hc. destruct (Py.count_char "." s); [congruence|].
    simpl. rewrite !andb_false_r. now rewrite filter_remove_char.
  - intros s H. rewrite parse_number_canonical. apply float_no_digit.
    unfold canonical. apply no_digit_filter.
    destruct (_ && _)%bool; [now apply no_digit_replace|exact H].
Qed.

Lemma parse_number_normalizes_witness :
  _parse_number "1 000,50" = _parse_number "1 000.50"
  /\ _parse_number "1,000.50" = _parse_number "1000.50"
  /\ _parse_number "+-." = None.
Proof.
  destruct parse_number_normalizes as [Hcomma [_ [Hthousands [Hnone _]]]].
  split; [|split].
  - apply (Hcomma "1 000,50"). reflexivity.
  - apply (Hthousands "1,000.50"). discriminate.
  - apply (Hnone "+-."). reflexivity.
Defined.

(** ** Deduplication *)

Lemma live_true now ts :
  live now ts = true <-> (now - ts <= DEDUP_TTL_SECONDS)%Q.
Proof. unfold live. apply Qle_bool_iff. Qed.

Lemma live_false now ts :
  (DEDUP_TTL_SECONDS < now - ts)%Q -> live now ts = false.
Proof.
  intros H. destruct (live now ts) eqn:E; [|reflexivity].
  apply live_true in E. exfalso. exact (Qlt_not_le _ _ H E).
Qed.

Lemma is_duplicate_fresh now text (cache : gmap string Q) :
  cache !! _dedupe_key_for text = None ->
  fst (_is_duplicate now text cache) = false
  /\ snd (_is_duplicate now text cache) !! _dedupe_key_for text = Some now.
Proof.
  intros Hnone. unfold _is_duplicate.
  assert (Hf : filter (fun kv : string * Q => live now kv.2 = true) cache
               !! _dedupe_key_for text = None).
  { apply map_lookup_filter_None. left. exact Hnone. }
  rewrite Hf. simpl. split; [reflexivity|apply lookup_insert_eq].
Qed.

Lemma is_duplicate_live now text ts (cache : gmap string Q) :
  cache !! _dedupe_key_for text = Some ts ->
  (now - ts <= DEDUP_TTL_SECONDS)%Q ->
  fst (_is_duplicate now text cache) = true
  /\ snd (_is_duplicate now text cache) !! _dedupe_key_for text = Some ts.
Proof.
  intros Hsome Hlive. apply live_true in Hlive. unfold _is_duplicate.
  assert (Hf : filter (fun kv : string * Q => live now kv.2 = true) cache
               !! _dedupe_key_for text = Some ts).
  { apply map_lookup_filter_Some. split; [exact Hsome|exact Hlive]. }
  rewrite Hf, Hlive. simpl. split; [reflexivity|exact Hf].
Qed.

Lemma is_duplicate_expired now text ts (cache : gmap string Q) :
  cache !! _dedupe_key_for text = Some ts ->
  (DEDUP_TTL_SECONDS < now - ts)%Q ->
  fst (_is_duplicate now text cache) = false
  /\ snd (_is_duplicate now text cache) !! _dedupe_key_for text = Some now.
Proof.
  intros Hsome Hold. apply live_false in Hold. unfold _is_duplicate.
  assert (Hf : filter (fun kv : string * Q => live now kv.2 = true) cache
               !! _dedupe_key_for text = None).
  { apply map_lookup_filter_None. right. intros x Hx. simpl.
    rewrite Hsome in Hx. injection Hx as <-. congruence. }
  rewrite Hf. simpl. split; [reflexivity|apply lookup_insert_eq].
Qed.

Lemma same_identity_same_key t1 t2 :
  same_dedup_identity t1 t2 -> _dedupe_key_for t1 = _dedupe_key_for t2.
Proof.
  unfold _dedupe_key_for. intros [[a [H1 H2]]|[H1 [H2 Hn]]]; rewrite H1, H2.
  - reflexivity.
  - now rewrite Hn.
Qed.

(** C4, as the code has it: from an empty cache the first call on a text
    answers false; a following call within the TTL with a text of the same
    identity (the same extracted token address, or, when neither text
    holds an address, the same normalized text) answers true and leaves
    the stored timestamp as it was; once the entry is older than the TTL a
    call with that key answers false again. *)
Theorem dedup_round_trip (now1 now2 now3 : Q) (t1 t2 : string) :
  let first := _is_duplicate now1 t1 ∅ in
  fst first = false
  /\ (same_dedup_identity t1 t2 ->
      (now2 - now1 <= DEDUP_TTL_SECONDS)%Q ->
      let second := _is_duplicate now2 t2 (snd first) in
      fst second = true
      /\ snd second !! _dedupe_key_for t2 = Some now1
      /\ ((DEDUP_TTL_SECONDS < now3 - now1)%Q ->
          fst (_is_duplicate now3 t2 (snd second)) = false)).
Proof.
  destruct (is_duplicate_fresh now1 t1 ∅ (lookup_empty _)) as [H1 H1'].
  split; [exact H1|].
  intros Hsame Hlive.
  rewrite (same_identity_same_key _ _ Hsame) in H1'.
  destruct (is_duplicate_live now2 t2 now1 _ H1' Hlive) as [H2 H2'].
  split; [exact H2|split; [exact H2'|]].
  intros Hold. exact (proj1 (is_duplicate_expired now3 t2 now1 _ H2' Hold)).
Qed.

Lemma dedup_round_trip_witness :
  fst (_is_duplicate 0 listing_a ∅) = false
  /\ fst (_is_duplicate 60 listing_b (snd (_is_duplicate 0 listing_a ∅))) = true.
Proof.
  destruct (dedup_round_trip 0 60 30000 listing_a listing_b) as [H1 H2].
  split; [exact H1|].
  refine (proj1 (H2 _ _)).
  - left. exists "So11111111111111111111111111111111111111112".
    split; vm_compute; reflexivity.
  - vm_compute. discriminate.
Defined.

(** The round trip as the specification words it fails: two texts with
    the same normalized text whose addresses differ in letter case get
    different keys, so the second call is not a duplicate. *)
Lemma same_normalized_text_is_not_duplicate :
  _normalize_text upper_address = _normalize_text lower_address
  /\ fst (_is_duplicate 0 upper_address ∅) = false
  /\ fst (_is_duplicate 0 lower_address (snd (_is_duplicate 0 upper_address ∅))) = false.
Proof. vm_compute. repeat split. Qed.

(** ** The pause flag *)

(** C1, as the code has it: with the pause flag set,
    [process_token_message] returns at its first statement, so
    [parse_message_fields] is not invoked, the strategy document is not
    read and nothing is sent; but [handler] has run [_is_duplicate] on the
    message before, so the cache is swept and, unless the message is a
    live duplicate, its key is recorded.  The only other effects are log
    lines. *)
Theorem paused_message_only_touches_dedup_cache
    (cfg : Config) (ev : Event) (inp : Inputs) (w : World) :
  PROCESSING_PAUSED w = true ->
  (forall g, process_token_message cfg ev inp g w = (w, [Log L_paused_group]))
  /\ handler cfg ev inp w = paused_outcome ev inp w.
Proof.
  intros Hp. split.
  - intros g. unfold process_token_message. now rewrite Hp.
  - unfold handler, paused_outcome.
    destruct (chat_username ev) as [g|]; [|reflexivity].
    destruct (existsb _ _); [|reflexivity].
    destruct (_is_duplicate _ _ _) as [dup cache]. simpl.
    destruct dup; [reflexivity|].
    unfold process_trojan_message, process_token_message. simpl. rewrite Hp.
    destruct (String.eqb g "solana_trojanbot"); reflexivity.
Qed.

Lemma paused_message_only_touches_dedup_cache_witness :
  handler plain_config (group_event "token X") (at_time 10) paused_world
  = paused_outcome (group_event "token X") (at_time 10) paused_world.
Proof.
  apply (paused_message_only_touches_dedup_cache
           plain_config (group_event "token X") (at_time 10) paused_world).
  reflexivity.
Defined.

(** The specification's wording fails: a message that arrives while
    processing is paused is recorded in the cache. *)
Lemma paused_message_is_recorded_in_cache :
  PROCESSING_PAUSED paused_world = true
  /\ _processed_cache paused_world !! _dedupe_key_for "token X" = None
  /\ _processed_cache
       (fst (handler plain_config (group_event "token X") (at_time 10) paused_world))
     !! _dedupe_key_for "token X" = Some 10%Q.
Proof. vm_compute. repeat split. Qed.

(** ** Template rendering *)

Lemma string_app_assoc (a b c : string) : (a ++ b) ++ c = a ++ (b ++ c).
Proof. induction a as [|x a IH]; simpl; [reflexivity|now rewrite IH]. Qed.

Lemma string_app_empty (a : string) : a ++ "" = a.
Proof. induction a as [|x a IH]; simpl; [reflexivity|now rewrite IH]. Qed.

Lemma format_text_char ctx c t :
  brace c = false ->
  format_map ctx None (String c t) = emit (String c "") (format_map ctx None t).
Proof.
  destruct c as [[] [] [] [] [] [] [] []]; intros H; try discriminate H; reflexivity.
Qed.

Lemma format_open_field ctx c r :
  Ascii.eqb c "{" = false ->
  format_map ctx None (String "{" (String c r)) = format_map ctx (Some "") (String c r).
Proof.
  destruct c as [[] [] [] [] [] [] [] []]; intros H; try discriminate H; reflexivity.
Qed.

Lemma format_field_name ctx t n : forall acc,
  Py.forallb_str (fun c => negb (brace c || field_extra c)) n = true ->
  format_map ctx (Some acc) (n ++ "}" ++ t)
  = if positional (acc ++ n) then ValueError
    else emit (lookup_or_empty ctx (acc ++ n)) (format_map ctx None t).
Proof.
  induction n as [|c n IH]; intros acc Hn.
  - rewrite string_app_empty. reflexivity.
  - simpl in Hn. apply andb_true_iff in Hn as [Hc Hn].
    apply negb_true_iff, orb_false_iff in Hc as [Hb He].
    unfold brace in Hb. apply orb_false_iff in Hb as [Ho Hcl].
    change (String c n ++ "}" ++ t) with (String c (n ++ "}" ++ t)).
    cbn [format_map]. rewrite Hcl, Ho, He.
    rewrite (IH _ Hn), string_app_assoc. reflexivity.
Qed.

Lemma format_plain_field ctx n t :
  plain_name n = true ->
  format_map ctx None ("{" ++ n ++ "}" ++ t)
  = emit (lookup_or_empty ctx n) (format_map ctx None t).
Proof.
  unfold plain_name. intros H. apply andb_true_iff in H as [Hpos Hn].
  apply negb_true_iff in Hpos.
  destruct n as [|c n]; [discriminate Hpos|].
  assert (Hc : Ascii.eqb c "{" = false).
  { simpl in Hn. apply andb_true_iff in Hn as [Hc _].
    apply negb_true_iff, orb_false_iff in Hc as [Hb _].
    unfold brace in Hb. now apply orb_false_iff in Hb as [Ho _]. }
  change ("{" ++ String c n ++ "}" ++ t) with (String "{" (String c (n ++ "}" ++ t))).
  rewrite (format_open_field ctx c _ Hc).
  change (String c (n ++ "}" ++ t)) with (String c n ++ "}" ++ t).
  rewrite (format_field_name ctx t (String c n) "" Hn).
  change ("" ++ String c n) with (String c n). now rewrite Hpos.
Qed.

Lemma renders_format ctx t out :
  renders ctx t out -> _safe_format t ctx = Rendered out.
Proof.
  unfold _safe_format. induction 1.
  - reflexivity.
  - rewrite format_text_char by assumption. now rewrite IHrenders.
  - simpl. now rewrite IHrenders.
  - simpl. now rewrite IHrenders.
  - rewrite format_plain_field by assumption. now rewrite IHrenders.
Qed.

Lemma well_formed_renders ctx t : well_formed t -> exists out, renders ctx t out.
Proof.
  induction 1 as [|c t Hc _ [out IH]|t _ [out IH]|t _ [out IH]|n t Hn _ [out IH]].
  - exists "". constructor.
  - exists (String c out). now constructor.
  - exists ("{" ++ out). now constructor.
  - exists ("}" ++ out). now constructor.
  - exists (lookup_or_empty ctx n ++ out). now constructor.
Qed.

(** C8, as the code has it: for a template made of text, doubled braces
    and plain named placeholders, rendering returns a string for every
    context; each placeholder is replaced by the text of its context
    value, and by the empty string when the context has no value for it.
    (Other templates are not covered: an unmatched brace raises.) *)
Theorem safe_format_renders_well_formed_templates (ctx : gmap string cval) :
  (forall t, well_formed t -> exists out, _safe_format t ctx = Rendered out)
  /\ (forall t out, renders ctx t out -> _safe_format t ctx = Rendered out)
  /\ (forall n v, plain_name n = true -> ctx !! n = Some v ->
                  _safe_format ("{" ++ n ++ "}") ctx = Rendered (cval_str v))
  /\ (forall n, plain_name n = true -> ctx !! n = None ->
                _safe_format ("{" ++ n ++ "}") ctx = Rendered "").
Proof.
  split; [|split; [|split]].
  - intros t Hwf. destruct (well_formed_renders ctx t Hwf) as [out Hr].
    exists out. now apply renders_format.
  - apply renders_format.
  - intros n v Hn Hv. unfold _safe_format.
    change ("{" ++ n ++ "}") with ("{" ++ n ++ "}" ++ "").
    rewrite (format_plain_field ctx n "" Hn). unfold lookup_or_empty. rewrite Hv.
    simpl. now rewrite string_app_empty.
  - intros n Hn Hv. unfold _safe_format.
    change ("{" ++ n ++ "}") with ("{" ++ n ++ "}" ++ "").
    rewrite (format_plain_field ctx n "" Hn). unfold lookup_or_empty. now rewrite Hv.
Qed.

Lemma safe_format_renders_well_formed_templates_witness :
  _safe_format "{token}" sample_ctx
  = Rendered "So11111111111111111111111111111111111111112"
  /\ _safe_format "{amount}" sample_ctx = Rendered "".
Proof.
  destruct (safe_format_renders_well_formed_templates sample_ctx) as [_ [_ [Hv Hm]]].
  split.
  - apply (Hv "token" (CStr "So11111111111111111111111111111111111111112"));
      vm_compute; reflexivity.
  - apply (Hm "amount"); vm_compute; reflexivity.
Defined.

(** The specification's wording fails: a template with an unmatched brace raises
    [ValueError] instead of returning a string. *)
Lemma safe_format_raises_on_unmatched_brace :
  _safe_format "buy {token" sample_ctx = ValueError
  /\ ~ exists out, _safe_format "buy {token" sample_ctx = Rendered out.
Proof.
  assert (H : _safe_format "buy {token" sample_ctx = ValueError) by reflexivity.
  split; [exact H|]. intros [out Hout]. rewrite H in Hout. discriminate.
Qed.

(** ** The limit-order flows *)

Lemma text_step cfg ev inp w st :
  is_private ev = true ->
  _authorized cfg (sender_id ev) = true ->
  starts_with "/" (Py.strip (message ev)) = false ->
  CONV_STATE w !! chat_id ev = Some st ->
  bot_conversation cfg ev inp w
  = (set_conv
       match fst (conversation_step cfg ev inp (Py.strip (message ev)) st w) with
       | Some s => <[chat_id ev := s]> (CONV_STATE w)
       | None => delete (chat_id ev) (CONV_STATE w)
       end w,
     DeleteInput :: snd (conversation_step cfg ev inp (Py.strip (message ev)) st w)).
Proof.
  intros Hp Ha Hs Hst. unfold bot_conversation.
  rewrite Hp, Ha, Hs, Hst. simpl.
  now destruct (conversation_step _ _ _ _ _ _).
Qed.

Lemma lookup_put_state chat st w : CONV_STATE (put_state chat st w) !! chat = Some st.
Proof. apply lookup_insert_eq. Qed.


Section LimitFlow.

Variables (cfg : Config) (inp : Inputs) (chat sender : Z).
Variables (m_amount m_expiry m_slippage m_trigger : string).
Variables (a e s t : Q).

Hypothesis authorized : _authorized cfg (Some sender) = true.
Hypothesis no_command :
  Forall (fun m => starts_with "/" (Py.strip m) = false)
         [m_amount; m_expiry; m_slippage; m_trigger].
Hypothesis amount_ok : _parse_number (Py.strip m_amount) = Some a.
Hypothesis expiry_ok : _parse_duration_to_minutes (Py.strip m_expiry) = Some e.
Hypothesis slippage_ok : _parse_number (Py.strip m_slippage) = Some s.
Hypothesis trigger_ok : _parse_number (Py.strip m_trigger) = Some t.





End LimitFlow.



(** ** The minimum-filters check of 'save' *)

(** The check as coded: a draft for another group than the order venue
    whose filters count fewer than three by [_count_filled_filters] is
    rejected with the validation message, and the world is unchanged. *)
Lemma save_rejected_below_three (ev : Event) (inp : Inputs) (w : World)
    (st : ConvState) (g : string) :
  CONV_STATE w !! chat_id ev = Some st ->
  d_group (data st) = Some g -> g <> "" -> g <> "@solana_trojanbot" ->
  (_count_filled_filters (d_filters (data st)) < 3)%nat ->
  on_save ev inp w = (w, [Answer MIN_FILTERS_MESSAGE; EditEvent "Strategy Builder"]).
Proof.
  intros Hst Hg Hne Hnt Hcnt. unfold on_save. rewrite Hst, Hg.
  destruct g as [|c g]; [congruence|]. cbn [nonempty Py.is_empty].
  destruct (String.eqb_spec (String c g) "@solana_trojanbot") as [E|_]; [congruence|].
  apply Nat.ltb_lt in Hcnt. now rewrite Hcnt.
Qed.

(** C3 at the failing input: none of the three filter options is
    meaningfully set, yet [_count_filled_filters] counts three (a range
    that fails the both-bounds test falls into the final [else], where any
    value other than null, '' and 'Any' counts), so the save is accepted
    and the document is rewritten. *)
Theorem save_accepts_ranges_without_bounds :
  count_meaningfully_set half_open_ranges = O
  /\ _count_filled_filters half_open_ranges = 3%nat
  /\ snd rename_and_save = [EditEvent "Updated"]
  /\ map name (strategies_json (fst rename_and_save)) = [Some "renamed"]
  /\ map filters (strategies_json (fst rename_and_save)) = [half_open_ranges].
Proof. vm_compute. repeat split. Qed.

(** * Further properties of the code *)

(** ** Access control *)

(** X1: an event that is not from a private chat, or whose sender is not
    authorized (a missing sender id never is; with an empty allow-list
    every other sender is), changes nothing: a text message is ignored
    without any effect, a button press is answered 'Not allowed'. *)
Theorem unauthorized_events_change_nothing
    (cfg : Config) (ev : Event) (inp : Inputs) (w : World) :
  _authorized cfg None = false
  /\ (forall z, ALLOWED_USER_IDS cfg = [] -> _authorized cfg (Some z) = true)
  /\ (forall z, ALLOWED_USER_IDS cfg <> [] ->
                (_authorized cfg (Some z) = true <-> In z (ALLOWED_USER_IDS cfg)))
  /\ (is_private ev = false \/ _authorized cfg (sender_id ev) = false ->
      bot_conversation cfg ev inp w = (w, [])
      /\ forall b, on_button cfg ev inp b w = (w, [Answer "Not allowed"])).
Proof.
  split; [reflexivity|split; [|split]].
  - intros z H. unfold _authorized. now rewrite H.
  - intros z H. unfold _authorized.
    destruct (ALLOWED_USER_IDS cfg) as [|i ids] eqn:E; [congruence|].
    rewrite existsb_exists. split.
    + intros [x [Hin Hx]]. apply Z.eqb_eq in Hx. now subst.
    + intros Hin. exists z. split; [exact Hin|apply Z.eqb_refl].
  - intros H.
    assert (Hg : negb (is_private ev) || negb (_authorized cfg (sender_id ev)) = true).
    { destruct H as [-> | ->]; [reflexivity|apply orb_true_r]. }
    split; [|intros b]; [unfold bot_conversation|unfold on_button]; now rewrite Hg.
Qed.

Lemma unauthorized_events_change_nothing_witness :
  bot_conversation closed_config outsider_event (at_time 0) legacy_world
  = (legacy_world, [])
  /\ on_button closed_config outsider_event (at_time 0) BSave legacy_world
     = (legacy_world, [Answer "Not allowed"]).
Proof.
  destruct (unauthorized_events_change_nothing
              closed_config outsider_event (at_time 0) legacy_world)
    as [_ [_ [_ H]]].
  destruct (H (or_intror eq_refl)) as [H1 H2]. split; [exact H1|apply H2].
Defined.

(** ** The deduplication cache *)

Lemma is_duplicate_cache now text (cache : gmap string Q) :
  let swept := filter (fun kv : string * Q => live now kv.2 = true) cache in
  snd (_is_duplicate now text cache)
  = if fst (_is_duplicate now text cache) then swept
    else <[_dedupe_key_for text := now]> swept.
Proof.
  unfold _is_duplicate. simpl.
  destruct (filter _ cache !! _dedupe_key_for text) as [ts|]; [|reflexivity].
  destruct (live now ts); reflexivity.
Qed.

Lemma live_now now : live now now = true.
Proof.
  apply live_true. unfold DEDUP_TTL_SECONDS. lra.
Qed.

(** X2: after a call of [_is_duplicate] no entry of the cache is older
    than the TTL, every entry is either the one just recorded or was in
    the cache before with the same timestamp, and the key of the text is
    in the cache. *)
Theorem is_duplicate_leaves_only_live_entries
    (now : Q) (text : string) (cache : gmap string Q) :
  (forall k ts,
     snd (_is_duplicate now text cache) !! k = Some ts ->
     (now - ts <= DEDUP_TTL_SECONDS)%Q
     /\ (cache !! k = Some ts \/ (k = _dedupe_key_for text /\ ts = now)))
  /\ is_Some (snd (_is_duplicate now text cache) !! _dedupe_key_for text).
Proof.
  rewrite is_duplicate_cache. cbv zeta. split.
  - intros k ts H.
    assert (Hswept : forall k ts,
              filter (fun kv : string * Q => live now kv.2 = true) cache !! k = Some ts ->
              (now - ts <= DEDUP_TTL_SECONDS)%Q /\ cache !! k = Some ts).
    { intros k' ts' H'. apply map_lookup_filter_Some in H' as [Hc Hl].
      split; [now apply live_true|exact Hc]. }
    destruct (fst (_is_duplicate now text cache)).
    + destruct (Hswept _ _ H) as [Hl Hc]. auto.
    + rewrite lookup_insert in H.
      destruct (decide (_dedupe_key_for text = k)) as [<-|Hne].
      * injection H as <-. split; [apply live_true, live_now|auto].
      * destruct (Hswept _ _ H) as [Hl Hc]. auto.
  - destruct (fst (_is_duplicate now text cache)) eqn:E.
    + unfold _is_duplicate in E.
      destruct (filter _ cache !! _dedupe_key_for text) as [ts|] eqn:Ek; [eauto|discriminate].
    + rewrite lookup_insert_eq. eauto.
Qed.

(** X3: [_is_duplicate] answers true exactly when the cache holds an
    entry for the key of the text that is not older than the TTL; entries
    under other keys are kept if they are live and dropped if not. *)
Theorem is_duplicate_iff_live_entry
    (now : Q) (text : string) (cache : gmap string Q) :
  (fst (_is_duplicate now text cache) = true
   <-> exists ts, cache !! _dedupe_key_for text = Some ts
                  /\ (now - ts <= DEDUP_TTL_SECONDS)%Q)
  /\ (forall k, k <> _dedupe_key_for text ->
        snd (_is_duplicate now text cache) !! k
        = match cache !! k with
          | Some ts => if live now ts then Some ts else None
          | None => None
          end).
Proof.
  split.
  - unfold _is_duplicate.
    destruct (filter _ cache !! _dedupe_key_for text) as [ts|] eqn:E.
    + apply map_lookup_filter_Some in E as [Hc Hl]. simpl in Hl. rewrite Hl. simpl.
      split; [|reflexivity]. intros _. exists ts. split; [exact Hc|now apply live_true].
    + simpl. split; [discriminate|]. intros [ts [Hc Hl]].
      apply map_lookup_filter_None in E as [E|E]; [congruence|].
      apply live_true in Hl. exfalso. exact (E ts Hc Hl).
  - intros k Hk. rewrite is_duplicate_cache. cbv zeta.
    assert (Hswept : filter (fun kv : string * Q => live now kv.2 = true) cache !! k
                     = match cache !! k with
                       | Some ts => if live now ts then Some ts else None
                       | None => None
                       end).
    { destruct (cache !! k) as [ts|] eqn:Ec.
      - destruct (live now ts) eqn:El.
        + apply map_lookup_filter_Some. split; assumption.
        + apply map_lookup_filter_None. right. intros x Hx. simpl.
          rewrite Ec in Hx. injection Hx as <-. congruence.
      - apply map_lookup_filter_None. now left. }
    destruct (fst (_is_duplicate now text cache)); [exact Hswept|].
    rewrite lookup_insert_ne by congruence. exact Hswept.
Qed.

Lemma is_duplicate_iff_live_entry_witness :
  snd (_is_duplicate 30000 "other text" {[ _dedupe_key_for listing_a := 0%Q ]})
  !! _dedupe_key_for listing_a = None.
Proof.
  rewrite (proj2 (is_duplicate_iff_live_entry 30000 "other text"
                    {[ _dedupe_key_for listing_a := 0%Q ]})).
  - vm_compute. reflexivity.
  - vm_compute. discriminate.
Defined.

Lemma is_duplicate_leaves_only_live_entries_witness :
  (10 - 10 <= DEDUP_TTL_SECONDS)%Q
  /\ ((∅ : gmap string Q) !! _dedupe_key_for listing_a = Some 10%Q
      \/ (_dedupe_key_for listing_a = _dedupe_key_for listing_a /\ 10%Q = 10%Q)).
Proof.
  apply (proj1 (is_duplicate_leaves_only_live_entries 10 listing_a ∅)).
  vm_compute. reflexivity.
Defined.

(** ** The message pipeline *)

Lemma set_pass_ctx_twice c c' w :
  set_pass_ctx c (set_pass_ctx c' w) = set_pass_ctx c w.
Proof. reflexivity. Qed.

Lemma only_pass_ctx_refl w : only_pass_ctx_differs w w.
Proof. unfold only_pass_ctx_differs. now destruct w. Qed.

Lemma only_pass_ctx_step w w1 c :
  only_pass_ctx_differs w w1 -> only_pass_ctx_differs w (set_pass_ctx c w1).
Proof.
  unfold only_pass_ctx_differs. intros H.
  destruct w1, w. cbn in *. injection H as -> -> -> -> -> ->. reflexivity.
Qed.

Lemma run_loop_invariant {S X : Type} (P : S -> Prop)
    (f : S -> X -> S * list effect) (xs : list X) (s : S) :
  P s -> (forall s x, P s -> P (fst (f s x))) -> P (fst (run_loop f xs s)).
Proof.
  intros Hs Hf. unfold run_loop.
  assert (H : forall acc : S * list effect, P (fst acc) ->
            P (fst (fold_left
                      (fun acc x => let '(s', es) := f (fst acc) x in
                                    (s', (snd acc ++ es)%list)) xs acc))).
  { induction xs as [|x xs IH]; intros acc Hacc; [exact Hacc|].
    simpl. apply IH. specialize (Hf (fst acc) x Hacc).
    destruct (f (fst acc) x). exact Hf. }
  now apply H.
Qed.

Lemma notify_only_pass_ctx cfg ev inp strat card w0 wn :
  only_pass_ctx_differs w0 (fst wn) ->
  only_pass_ctx_differs w0 (fst (fst (notify cfg ev inp strat card wn))).
Proof.
  destruct wn as [w n]. unfold notify. simpl. intros H.
  now apply only_pass_ctx_step.
Qed.

Lemma token_step_only_pass_ctx cfg ev inp age parsed txt g w0 wn x :
  only_pass_ctx_differs w0 (fst wn) ->
  only_pass_ctx_differs w0
    (fst (fst (token_strategy_step cfg ev inp age parsed txt g wn x))).
Proof.
  intros H. unfold token_strategy_step. destruct x as [idx strat].
  destruct (negb _); [exact H|]. destruct (negb _); [exact H|].
  destruct (failing_filter _ _ _) as [[which|]|]; try exact H.
  destruct (extract_token_address txt) as [tok|]; [|exact H].
  destruct (bot_client cfg); [|exact H].
  pose proof (notify_only_pass_ctx cfg ev inp strat
                {| pc_token := tok; pc_payload := TokenMatch age parsed;
                   pc_strat_index := idx; pc_strat_name := name_or_empty strat |}
                w0 wn H) as Hn.
  destruct (notify _ _ _ _ _ _) as [wn' sends]. exact Hn.
Qed.

Lemma trojan_step_only_pass_ctx cfg ev inp tok g w0 wn x :
  only_pass_ctx_differs w0 (fst wn) ->
  only_pass_ctx_differs w0 (fst (fst (trojan_strategy_step cfg ev inp tok g wn x))).
Proof.
  intros H. unfold trojan_strategy_step. destruct x as [idx strat].
  destruct (negb _); [exact H|]. destruct (negb _); [exact H|].
  destruct (all_some4 _ _ _ _) as [[[[am ex] sl] tr]|]; [|exact H].
  destruct tok as [tok|]; [|exact H].
  destruct (bot_client cfg); [|exact H].
  pose proof (notify_only_pass_ctx cfg ev inp strat
                {| pc_token := tok; pc_payload := TrojanReady am ex sl tr;
                   pc_strat_index := idx; pc_strat_name := name_or_empty strat |}
                w0 wn H) as Hn.
  destruct (notify _ _ _ _ _ _) as [wn' sends]. exact Hn.
Qed.

Lemma process_token_only_pass_ctx cfg ev inp g w :
  only_pass_ctx_differs w (fst (process_token_message cfg ev inp g w)).
Proof.
  unfold process_token_message.
  destruct (PROCESSING_PAUSED w); [apply only_pass_ctx_refl|].
  pose proof (run_loop_invariant (fun wn => only_pass_ctx_differs w (fst wn))
                (token_strategy_step cfg ev inp (get_age_minutes (now inp) (date ev))
                   (parse_message_fields (message ev)) (message ev) ("@" ++ g))
                (enumerate (load_strategies w)) (w, O)
                (only_pass_ctx_refl w)) as H.
  destruct (run_loop _ _ _) as [[w' n] es]. simpl in *. apply H.
  intros wn x Hwn. now apply token_step_only_pass_ctx.
Qed.

Lemma process_trojan_only_pass_ctx cfg ev inp g w :
  only_pass_ctx_differs w (fst (process_trojan_message cfg ev inp g w)).
Proof.
  unfold process_trojan_message.
  destruct (PROCESSING_PAUSED w); [apply only_pass_ctx_refl|].
  pose proof (run_loop_invariant (fun wn => only_pass_ctx_differs w (fst wn))
                (trojan_strategy_step cfg ev inp (extract_token_address (message ev))
                   ("@" ++ g))
                (enumerate (load_strategies w)) (w, O)
                (only_pass_ctx_refl w)) as H.
  destruct (run_loop _ _ _) as [[w' n] es]. simpl in *. apply H.
  intros wn x Hwn. now apply trojan_step_only_pass_ctx.
Qed.

Lemma handler_world cfg ev inp w :
  let w' := fst (handler cfg ev inp w) in
  w' = w
  \/ w' = set_pass_ctx (PASS_CTX w')
            (set_cache (snd (_is_duplicate (now inp) (message ev) (_processed_cache w))) w).
Proof.
  unfold handler. destruct (chat_username ev) as [g|]; [|now left].
  destruct (existsb _ _); [|now left]. right.
  destruct (_is_duplicate _ _ _) as [dup cache]. simpl.
  destruct dup; [reflexivity|].
  destruct (String.eqb g "solana_trojanbot").
  - pose proof (process_trojan_only_pass_ctx cfg ev inp g (set_cache cache w)) as H.
    destruct (process_trojan_message _ _ _ _ _) as [w2 es]. exact H.
  - pose proof (process_token_only_pass_ctx cfg ev inp g (set_cache cache w)) as H.
    destruct (process_token_message _ _ _ _ _) as [w2 es]. exact H.
Qed.

(** X4: whatever the message and the stored strategies, [handler] never
    writes the strategy document, the conversation states, the pause flag
    or the control chat; of the globals it changes only the deduplication
    cache (as [_is_duplicate] leaves it) and the correlation map. *)
Theorem handler_only_updates_cache_and_contexts
    (cfg : Config) (ev : Event) (inp : Inputs) (w : World) :
  let w' := fst (handler cfg ev inp w) in
  strategies_json w' = strategies_json w
  /\ json_writable w' = json_writable w
  /\ CONV_STATE w' = CONV_STATE w
  /\ PROCESSING_PAUSED w' = PROCESSING_PAUSED w
  /\ BOT_CONTROL_CHAT_ID w' = BOT_CONTROL_CHAT_ID w
  /\ (_processed_cache w' = _processed_cache w
      \/ _processed_cache w'
         = snd (_is_duplicate (now inp) (message ev) (_processed_cache w))).
Proof.
  cbv zeta. destruct (handler_world cfg ev inp w) as [H|H]; rewrite H.
  - repeat split; auto.
  - repeat split; auto.
Qed.

Lemma monitored_true g :
  In g monitored_groups -> existsb (String.eqb g) monitored_groups = true.
Proof.
  intros H. apply existsb_exists. exists g. split; [exact H|apply String.eqb_refl].
Qed.

Lemma handler_monitored_cache cfg ev inp w g :
  chat_username ev = Some g -> In g monitored_groups ->
  _processed_cache (fst (handler cfg ev inp w))
  = snd (_is_duplicate (now inp) (message ev) (_processed_cache w)).
Proof.
  intros Hg Hin. unfold handler. rewrite Hg, (monitored_true g Hin).
  destruct (_is_duplicate _ _ _) as [dup cache]. simpl.
  destruct dup; [reflexivity|].
  destruct (String.eqb g "solana_trojanbot").
  - pose proof (process_trojan_only_pass_ctx cfg ev inp g (set_cache cache w)) as H.
    destruct (process_trojan_message _ _ _ _ _) as [w2 es]. simpl in *. now rewrite H.
  - pose proof (process_token_only_pass_ctx cfg ev inp g (set_cache cache w)) as H.
    destruct (process_token_message _ _ _ _ _) as [w2 es]. simpl in *. now rewrite H.
Qed.

(** X5: when a listing with a token address has been let through by
    [handler], a later message of either monitored group with the same
    extracted address, arriving within the TTL, is dropped as a duplicate:
    the only effects are the two log lines, no strategy is evaluated and
    no correlation entry is stored. *)
Theorem repeated_listing_is_dropped
    (cfg : Config) (ev1 ev2 : Event) (inp1 inp2 : Inputs) (w : World)
    (g1 g2 addr : string) :
  chat_username ev1 = Some g1 -> In g1 monitored_groups ->
  chat_username ev2 = Some g2 -> In g2 monitored_groups ->
  extract_token_address (message ev1) = Some addr ->
  extract_token_address (message ev2) = Some addr ->
  fst (_is_duplicate (now inp1) (message ev1) (_processed_cache w)) = false ->
  (now inp2 - now inp1 <= DEDUP_TTL_SECONDS)%Q ->
  let w1 := fst (handler cfg ev1 inp1 w) in
  snd (handler cfg ev2 inp2 w1) = [Log (L_new_message g2); Log L_duplicate]
  /\ PASS_CTX (fst (handler cfg ev2 inp2 w1)) = PASS_CTX w1.
Proof.
  intros Hg1 Hm1 Hg2 Hm2 Ha1 Ha2 Hfresh Hlive w1.
  assert (Hkey : _dedupe_key_for (message ev2) = _dedupe_key_for (message ev1)).
  { unfold _dedupe_key_for. now rewrite Ha1, Ha2. }
  assert (Hc : _processed_cache w1 !! _dedupe_key_for (message ev2) = Some (now inp1)).
  { unfold w1. rewrite (handler_monitored_cache cfg ev1 inp1 w g1 Hg1 Hm1).
    rewrite is_duplicate_cache, Hfresh, Hkey. cbv zeta. apply lookup_insert_eq. }
  destruct (is_duplicate_live (now inp2) (message ev2) (now inp1) _ Hc Hlive) as [Hdup _].
  unfold handler. rewrite Hg2, (monitored_true g2 Hm2).
  destruct (_is_duplicate (now inp2) (message ev2) (_processed_cache w1)) as [dup cache].
  simpl in Hdup. subst dup. split; reflexivity.
Qed.

Lemma repeated_listing_is_dropped_witness :
  snd (handler plain_config (group_event listing_b) (at_time 60)
         (fst (handler plain_config (group_event listing_a) (at_time 0) legacy_world)))
  = [Log (L_new_message "SolanaNewPumpfun"); Log L_duplicate].
Proof.
  refine (proj1 (repeated_listing_is_dropped plain_config (group_event listing_a)
                   (group_event listing_b) (at_time 0) (at_time 60) legacy_world
                   "SolanaNewPumpfun" "SolanaNewPumpfun" wsol
                   eq_refl _ eq_refl _ _ _ _ _)).
  - left. reflexivity.
  - left. reflexivity.
  - vm_compute. reflexivity.
  - vm_compute. reflexivity.
  - vm_compute. reflexivity.
  - vm_compute. discriminate.
Defined.

(** ** Filters *)

Lemma lookup_alias new old (f : gmap string fval) k :
  alias new old f !! k
  = if decide (k = new)
    then match f !! new with Some v => Some v | None => f !! old end
    else f !! k.
Proof.
  unfold alias. destruct (decide (k = new)) as [->|Hne].
  - destruct (f !! new) as [v|] eqn:En; [exact En|].
    destruct (f !! old) as [v|] eqn:Eo; [apply lookup_insert_eq|exact En].
  - destruct (f !! new) as [v|]; [reflexivity|].
    destruct (f !! old) as [v|]; [|reflexivity].
    now rewrite lookup_insert_ne by congruence.
Qed.

(** What the checks read after the legacy keys have been copied. *)
Lemma normalized_lookups (f : gmap string fval) :
  normalize_filters f !! "Token Age (minutes)" = f !! "Token Age (minutes)"
  /\ normalize_filters f !! "Balance (SOL)" = f !! "Balance (SOL)"
  /\ normalize_filters f !! "Transactions (count)" = f !! "Transactions (count)"
  /\ normalize_filters f !! "First Buy (%)"
     = match f !! "First Buy (%)" with
       | Some v => Some v
       | None => f !! "First Buy (count)"
       end
  /\ normalize_filters f !! "Label"
     = match f !! "Label" with Some v => Some v | None => f !! "Mention" end.
Proof.
  unfold normalize_filters. rewrite !lookup_alias.
  repeat split; repeat (destruct (decide _) as [E|E]; try discriminate E; try congruence).
Qed.

Lemma strategy_matches_by_lookups f g parsed age :
  f !! "Token Age (minutes)" = g !! "Token Age (minutes)" ->
  f !! "Balance (SOL)" = g !! "Balance (SOL)" ->
  f !! "Transactions (count)" = g !! "Transactions (count)" ->
  match f !! "First Buy (%)" with Some v => Some v | None => f !! "First Buy (count)" end
  = match g !! "First Buy (%)" with Some v => Some v | None => g !! "First Buy (count)" end ->
  match f !! "Label" with Some v => Some v | None => f !! "Mention" end
  = match g !! "Label" with Some v => Some v | None => g !! "Mention" end ->
  strategy_matches f parsed age = strategy_matches g parsed age.
Proof.
  intros H1 H2 H3 H4 H5.
  destruct (normalized_lookups f) as [F1 [F2 [F3 [F4 F5]]]].
  destruct (normalized_lookups g) as [G1 [G2 [G3 [G4 G5]]]].
  unfold strategy_matches, failing_filter, token_age_passes.
  rewrite F1, F2, F3, F4, F5, G1, G2, G3, G4, G5, H1, H2, H3, H4, H5. reflexivity.
Qed.

(** X6: the legacy filter names are fallbacks.  A range stored only under
    'First Buy (count)' (a label stored only under 'Mention') is evaluated
    as if it were stored under 'First Buy (%)' ('Label'); when the current
    name is present, whatever the legacy key holds has no influence on the
    verdict. *)
Theorem legacy_filter_keys_are_fallbacks
    (f : gmap string fval) (parsed : ParsedFields) (age : Q) :
  (forall v, f !! "First Buy (%)" = None -> f !! "First Buy (count)" = Some v ->
             strategy_matches f parsed age
             = strategy_matches (<["First Buy (%)" := v]> f) parsed age)
  /\ (forall v, f !! "Label" = None -> f !! "Mention" = Some v ->
                strategy_matches f parsed age
                = strategy_matches (<["Label" := v]> f) parsed age)
  /\ (forall x, is_Some (f !! "First Buy (%)") ->
                strategy_matches (<["First Buy (count)" := x]> f) parsed age
                = strategy_matches f parsed age)
  /\ (forall x, is_Some (f !! "Label") ->
                strategy_matches (<["Mention" := x]> f) parsed age
                = strategy_matches f parsed age).
Proof.
  repeat split.
  - intros v Hn Ho. apply strategy_matches_by_lookups;
      rewrite ?lookup_insert_eq, ?lookup_insert_ne by discriminate; try reflexivity.
    now rewrite Hn, Ho.
  - intros v Hn Ho. apply strategy_matches_by_lookups;
      rewrite ?lookup_insert_eq, ?lookup_insert_ne by discriminate; try reflexivity.
    now rewrite Hn, Ho.
  - intros x [v Hv]. apply strategy_matches_by_lookups;
      rewrite ?lookup_insert_eq, ?lookup_insert_ne by discriminate; try reflexivity.
    now rewrite Hv.
  - intros x [v Hv]. apply strategy_matches_by_lookups;
      rewrite ?lookup_insert_eq, ?lookup_insert_ne by discriminate; try reflexivity.
    now rewrite Hv.
Qed.

Lemma legacy_filter_keys_are_fallbacks_witness :
  strategy_matches legacy_first_buy rich_signals 0
  = strategy_matches (<["First Buy (%)" := FRange (Some 10%Q) (Some 20%Q)]> legacy_first_buy)
      rich_signals 0.
Proof.
  apply (proj1 (legacy_filter_keys_are_fallbacks legacy_first_buy rich_signals 0)
           (FRange (Some 10%Q) (Some 20%Q))); vm_compute; reflexivity.
Defined.

Lemma forallb_false_of {A : Type} (p : A -> bool) (l : list A) (x : A) :
  In x l -> p x = false -> forallb p l = false.
Proof.
  intros Hin Hp. destruct (forallb p l) eqn:E; [|reflexivity].
  rewrite forallb_forall in E. rewrite (E x Hin) in Hp. discriminate.
Qed.

(** X7: a range filter with a null bound can never be satisfied: whatever
    the signals and the age, a strategy holding such a range under one of
    the four range names does not match (for the token age the conversion
    of the bound raises and the strategy is skipped as in error). *)
Theorem range_without_bound_never_matches
    (f : gmap string fval) (parsed : ParsedFields) (age : Q)
    (k : string) (lo hi : option Q) :
  In k ["Token Age (minutes)"; "First Buy (%)"; "Balance (SOL)"; "Transactions (count)"] ->
  normalize_filters f !! k = Some (FRange lo hi) ->
  lo = None \/ hi = None ->
  strategy_matches f parsed age = false.
Proof.
  intros Hk Hf Hnull.
  rewrite strategy_matches_source_order, passed_eval_in_order.
  assert (Hr : forall v, range_filter_passes (Some (FRange lo hi)) v = false).
  { intros [v|]; [|reflexivity]. simpl. destruct Hnull as [-> | ->]; [reflexivity|].
    now destruct lo. }
  simpl in Hk. destruct Hk as [<-|[<-|[<-|[<-|[]]]]].
  - apply (forallb_false_of _ _ CAge); [simpl; tauto|].
    simpl. unfold token_age_passes. rewrite Hf.
    destruct Hnull as [-> | ->]; [reflexivity|now destruct lo].
  - apply (forallb_false_of _ _ CFirstBuy); [simpl; tauto|].
    simpl. now rewrite Hf, Hr.
  - apply (forallb_false_of _ _ CBalance); [simpl; tauto|].
    simpl. now rewrite Hf, Hr.
  - apply (forallb_false_of _ _ CTx); [simpl; tauto|].
    simpl. now rewrite Hf, Hr.
Qed.

Lemma range_without_bound_never_matches_witness :
  strategy_matches half_open_ranges rich_signals 3 = false.
Proof.
  apply (range_without_bound_never_matches half_open_ranges rich_signals 3
           "Balance (SOL)" (Some 1%Q) None).
  - simpl. tauto.
  - vm_compute. reflexivity.
  - now right.
Defined.

(** ** Saving a draft *)

Lemma count_filled_le_size (f : gmap string fval) :
  (_count_filled_filters f <= size f)%nat.
Proof.
  unfold _count_filled_filters.
  apply (map_fold_weak_ind (fun r (m : gmap string fval) => (r <= size m)%nat)).
  - rewrite map_size_empty. lia.
  - intros k v m r Hk IH. rewrite (map_size_insert_None k v m Hk).
    destruct (filter_filled k v); lia.
Qed.

Lemma on_button_save cfg ev inp w :
  is_private ev = true -> _authorized cfg (sender_id ev) = true ->
  on_button cfg ev inp BSave w = on_save ev inp w.
Proof. intros Hp Ha. unfold on_button. now rewrite Hp, Ha. Qed.

(** X8: [_count_filled_filters] never exceeds the number of entries of
    the filter dict, so a draft for another group than the order venue
    that holds fewer than three filter entries cannot be saved: the press
    of Save is answered with the validation message and nothing changes
    (the draft stays open). *)
Theorem save_needs_three_filter_entries
    (cfg : Config) (ev : Event) (inp : Inputs) (w : World)
    (st : ConvState) (g : string) :
  is_private ev = true -> _authorized cfg (sender_id ev) = true ->
  CONV_STATE w !! chat_id ev = Some st ->
  d_group (data st) = Some g -> g <> "" -> g <> "@solana_trojanbot" ->
  (size (d_filters (data st)) < 3)%nat ->
  (_count_filled_filters (d_filters (data st)) <= size (d_filters (data st)))%nat
  /\ on_button cfg ev inp BSave w
     = (w, [Answer MIN_FILTERS_MESSAGE; EditEvent "Strategy Builder"]).
Proof.
  intros Hp Ha Hst Hg Hne Hnt Hsize.
  pose proof (count_filled_le_size (d_filters (data st))) as Hle.
  split; [exact Hle|].
  rewrite (on_button_save cfg ev inp w Hp Ha).
  apply (save_rejected_below_three ev inp w st g); auto. lia.
Qed.

Lemma save_needs_three_filter_entries_witness :
  on_button plain_config (dm 5 7 "") (at_time 0) BSave two_filter_world
  = (two_filter_world, [Answer MIN_FILTERS_MESSAGE; EditEvent "Strategy Builder"]).
Proof.
  refine (proj2 (save_needs_three_filter_entries plain_config (dm 5 7 "") (at_time 0)
                   two_filter_world two_filter_state "@SolanaNewPumpfun"
                   eq_refl eq_refl _ eq_refl _ _ _)).
  - vm_compute. reflexivity.
  - discriminate.
  - discriminate.
  - vm_compute. lia.
Defined.

(** X9: a press of Save that passes the checks in a conversation that is
    not an edit closes the conversation and, when the document can be
    written, appends exactly one strategy to it: enabled, owned by the
    sender, with the group, filters, action and order settings of the
    draft; the strategies already stored are not touched.  When the write
    fails the document stays as it was, the reply is 'Save failed', and
    the draft is discarded all the same. *)
Theorem save_appends_one_owned_strategy
    (cfg : Config) (ev : Event) (inp : Inputs) (w : World)
    (st : ConvState) (g : string) (sender : Z) :
  is_private ev = true -> sender_id ev = Some sender ->
  _authorized cfg (Some sender) = true ->
  CONV_STATE w !! chat_id ev = Some st ->
  st_mode st <> Edit ->
  d_group (data st) = Some g -> g <> "" ->
  (g = "@solana_trojanbot" \/ (3 <= _count_filled_filters (d_filters (data st)))%nat) ->
  let r := on_button cfg ev inp BSave w in
  let s := new_strategy inp sender (data st) in
  CONV_STATE (fst r) = delete (chat_id ev) (CONV_STATE w)
  /\ owner_id s = Some (JInt sender) /\ enabled s = Some true
  /\ group s = Some g /\ filters s = d_filters (data st)
  /\ (json_writable w = true ->
      strategies_json (fst r) = (strategies_json w ++ [s])%list
      /\ snd r = [EditEvent "Saved"])
  /\ (json_writable w = false ->
      strategies_json (fst r) = strategies_json w
      /\ snd r = [EditEvent "Save failed"]).
Proof.
  intros Hp Hs Ha Hst Hmode Hg Hne Hok r s.
  assert (Hr : r = on_save ev inp w).
  { unfold r. apply on_button_save; [exact Hp|now rewrite Hs]. }
  assert (Hgate : negb (String.eqb g "@solana_trojanbot")
                  && (_count_filled_filters (d_filters (data st)) <? 3)%nat = false).
  { destruct Hok as [-> | Hc]; [reflexivity|].
    apply andb_false_iff. right. apply Nat.ltb_ge. exact Hc. }
  assert (Hsave : r = let '(ok, w') :=
                        save_strategies (load_strategies w ++ [s])%list
                          (set_conv (delete (chat_id ev) (CONV_STATE w)) w) in
                      (w', [EditEvent (if ok then "Saved" else "Save failed")])).
  { rewrite Hr. unfold on_save. rewrite Hst, Hg.
    destruct g as [|c g]; [congruence|]. cbn [nonempty Py.is_empty].
    rewrite Hgate, Hs. destruct (st_mode st); try congruence; reflexivity. }
  rewrite Hsave. unfold save_strategies. cbn [json_writable set_conv].
  split; [now destruct (json_writable w)|].
  split; [reflexivity|]. split; [reflexivity|]. split; [exact Hg|].
  split; [reflexivity|].
  split; intros Hw; rewrite Hw; split; reflexivity.
Qed.

Lemma save_appends_one_owned_strategy_witness :
  strategies_json
    (fst (on_button plain_config (dm 5 7 "") (at_time 0) BSave venue_draft_world))
  = [new_strategy (at_time 0) 7 (data venue_draft_state)].
Proof.
  refine (proj1 (proj1 (proj2 (proj2 (proj2 (proj2 (proj2
            (save_appends_one_owned_strategy plain_config (dm 5 7 "") (at_time 0)
               venue_draft_world venue_draft_state "@solana_trojanbot" 7
               eq_refl eq_refl eq_refl _ _ eq_refl _ _)))))) eq_refl)).
  - vm_compute. reflexivity.
  - discriminate.
  - discriminate.
  - now left.
Defined.

Lemma belongs_to_apply_draft inp d s owner :
  _belongs_to (apply_draft inp d s) owner = _belongs_to s owner.
Proof. reflexivity. Qed.

Lemma update_owned_spec inp d owner items : forall k,
  let f := apply_draft inp d in
  let items' := update_owned f owner k items in
  List.length items' = List.length items
  /\ List.filter (fun s => negb (_belongs_to s owner)) items'
     = List.filter (fun s => negb (_belongs_to s owner)) items
  /\ map id items' = map id items
  /\ map owner_id items' = map owner_id items
  /\ map enabled items' = map enabled items
  /\ ((1 <= k)%nat ->
      owned_by items' owner = alter f (k - 1)%nat (owned_by items owner)).
Proof.
  induction items as [|s rest IH]; intros k; cbv zeta.
  - simpl. repeat split; reflexivity.
  - simpl. destruct (_belongs_to s owner) eqn:Eb.
    + destruct k as [|[|j]].
      * simpl. rewrite Eb. repeat split; try reflexivity. lia.
      * simpl. rewrite belongs_to_apply_draft, Eb. simpl. repeat split; reflexivity.
      * destruct (IH (S j)) as [H1 [H2 [H3 [H4 [H5 H6]]]]].
        simpl. rewrite Eb. simpl.
        repeat split; try congruence.
        intros _. rewrite H6 by lia. simpl. now rewrite Nat.sub_0_r.
    + destruct (IH k) as [H1 [H2 [H3 [H4 [H5 H6]]]]].
      simpl. rewrite Eb. simpl. repeat split; try congruence. exact H6.
Qed.

(** X10: Save in an edit conversation rewrites one strategy only, the one
    at the edited index of the sender's own view: in that view it is the
    only entry that changes, strategies of other owners are not touched,
    the list keeps its length, and the id, owner and enabled flag of every
    strategy are kept.  An index outside the view answers 'Save failed'
    without writing.  In both cases the conversation is closed. *)
Theorem edit_save_rewrites_only_the_selected_strategy
    (cfg : Config) (ev : Event) (inp : Inputs) (w : World)
    (st : ConvState) (g : string) (eidx : Z) :
  is_private ev = true -> _authorized cfg (sender_id ev) = true ->
  CONV_STATE w !! chat_id ev = Some st ->
  st_mode st = Edit -> edit_index st = Some eidx ->
  d_group (data st) = Some g -> g <> "" ->
  (g = "@solana_trojanbot" \/ (3 <= _count_filled_filters (d_filters (data st)))%nat) ->
  json_writable w = true ->
  let r := on_button cfg ev inp BSave w in
  let owned := owned_by (strategies_json w) (sender_id ev) in
  let f := apply_draft inp (data st) in
  CONV_STATE (fst r) = delete (chat_id ev) (CONV_STATE w)
  /\ (1 <= eidx <= Z.of_nat (List.length owned) ->
      snd r = [EditEvent "Updated"]
      /\ owned_by (strategies_json (fst r)) (sender_id ev)
         = alter f (Z.to_nat eidx - 1)%nat owned
      /\ List.filter (fun s => negb (_belongs_to s (sender_id ev))) (strategies_json (fst r))
         = List.filter (fun s => negb (_belongs_to s (sender_id ev))) (strategies_json w)
      /\ List.length (strategies_json (fst r)) = List.length (strategies_json w)
      /\ map id (strategies_json (fst r)) = map id (strategies_json w)
      /\ map owner_id (strategies_json (fst r)) = map owner_id (strategies_json w)
      /\ map enabled (strategies_json (fst r)) = map enabled (strategies_json w))
  /\ (~ (1 <= eidx <= Z.of_nat (List.length owned)) ->
      snd r = [EditEvent "Save failed"]
      /\ strategies_json (fst r) = strategies_json w).
Proof.
  intros Hp Ha Hst Hmode Hidx Hg Hne Hok Hw r owned f.
  assert (Hgate : negb (String.eqb g "@solana_trojanbot")
                  && (_count_filled_filters (d_filters (data st)) <? 3)%nat = false).
  { destruct Hok as [-> | Hc]; [reflexivity|].
    apply andb_false_iff. right. apply Nat.ltb_ge. exact Hc. }
  assert (Hr : r = if negb ((1 <=? eidx) && (eidx <=? Z.of_nat (List.length owned)))
                   then (set_conv (delete (chat_id ev) (CONV_STATE w)) w,
                         [EditEvent "Save failed"])
                   else let '(ok, w') :=
                          save_strategies
                            (update_owned f (sender_id ev) (Z.to_nat eidx) (strategies_json w))
                            (set_conv (delete (chat_id ev) (CONV_STATE w)) w) in
                        (w', [EditEvent (if ok then "Updated" else "Save failed")])).
  { unfold r. rewrite (on_button_save cfg ev inp w Hp Ha).
    unfold on_save. rewrite Hst, Hg.
    destruct g as [|c g]; [congruence|]. cbn [nonempty Py.is_empty].
    rewrite Hgate, Hmode, Hidx. reflexivity. }
  rewrite Hr. unfold save_strategies. cbn [json_writable set_conv]. rewrite Hw.
  destruct ((1 <=? eidx) && (eidx <=? Z.of_nat (List.length owned))) eqn:Erange.
  - apply andb_true_iff in Erange as [E1 E2].
    apply Z.leb_le in E1. apply Z.leb_le in E2. cbn [negb fst snd].
    destruct (update_owned_spec inp (data st) (sender_id ev) (strategies_json w)
                (Z.to_nat eidx)) as [H1 [H2 [H3 [H4 [H5 H6]]]]].
    split; [reflexivity|]. split.
    + intros _. cbn [strategies_json]. repeat split; try assumption.
      apply H6. lia.
    + intros Hn. exfalso. apply Hn. lia.
  - cbn [negb fst snd]. split; [reflexivity|]. split.
    + intros [E1 E2]. apply Z.leb_le in E1. apply Z.leb_le in E2.
      rewrite E1, E2 in Erange. discriminate.
    + intros _. split; reflexivity.
Qed.

Lemma edit_save_rewrites_only_the_selected_strategy_witness :
  snd (on_button plain_config (dm 5 7 "") (at_time 0) BSave shared_edit_world)
  = [EditEvent "Updated"]
  /\ List.filter (fun s => negb (_belongs_to s (Some 7)))
       (strategies_json
          (fst (on_button plain_config (dm 5 7 "") (at_time 0) BSave shared_edit_world)))
     = [foreign_strategy].
Proof.
  destruct (edit_save_rewrites_only_the_selected_strategy plain_config (dm 5 7 "")
              (at_time 0) shared_edit_world shared_edit_state "@solana_trojanbot" 1
              eq_refl eq_refl eq_refl eq_refl eq_refl eq_refl
              ltac:(discriminate) (or_introl eq_refl) eq_refl) as [_ [H _]].
  assert (Hrange : 1 <= 1 <= Z.of_nat (List.length
                      (owned_by (strategies_json shared_edit_world) (sender_id (dm 5 7 "")))))
    by (vm_compute; split; discriminate).
  destruct (H Hrange) as [H1 [_ [H2 _]]].
  split; [exact H1|exact H2].
Defined.

(** ** The conversation *)

Lemma set_conv_same w : set_conv (CONV_STATE w) w = w.
Proof. now destruct w. Qed.




Lemma conversation_stays cfg ev inp w st es :
  is_private ev = true -> _authorized cfg (sender_id ev) = true ->
  starts_with "/" (Py.strip (message ev)) = false ->
  CONV_STATE w !! chat_id ev = Some st ->
  conversation_step cfg ev inp (Py.strip (message ev)) st w = (Some st, es) ->
  bot_conversation cfg ev inp w = (w, DeleteInput :: es).
Proof.
  intros Hp Ha Hs Hst Hstep.
  rewrite (text_step cfg ev inp w st Hp Ha Hs Hst), Hstep. cbn [fst snd].
  now rewrite (insert_id _ _ _ Hst), set_conv_same.
Qed.

(** X12: input that does not parse never advances a conversation.  In a
    limit flow a text that is not a number (at the steps amount, slippage
    and trigger) or not a duration (at the step expiry) leaves the whole
    state as it was and is answered with a prompt; nothing is sent to the
    venue.  In the builder, for a group other than the order venue, a text
    that is not a range leaves the draft and the step as they were. *)
Theorem invalid_input_does_not_advance
    (cfg : Config) (ev : Event) (inp : Inputs) (w : World) (st : ConvState) :
  is_private ev = true -> _authorized cfg (sender_id ev) = true ->
  starts_with "/" (Py.strip (message ev)) = false ->
  CONV_STATE w !! chat_id ev = Some st ->
  ((st_mode st = Limit \/ st_mode st = LimitAdHoc) ->
   (In (step st) ["amount"; "slippage"; "trigger"]
    /\ _parse_number (Py.strip (message ev)) = None)
   \/ (step st = "expiry"
       /\ _parse_duration_to_minutes (Py.strip (message ev)) = None) ->
   exists reply, bot_conversation cfg ev inp w = (w, [DeleteInput; Respond reply]))
  /\ (In (step st) ["edit_token_age"; "edit_first_buy"; "edit_balance"; "edit_tx"] ->
      d_group (data st) <> Some "@solana_trojanbot" ->
      _parse_range (Py.strip (message ev)) = None ->
      bot_conversation cfg ev inp w
      = (w, DeleteInput :: prompt (chat_id ev) st INVALID_RANGE)).
Proof.
  intros Hp Ha Hs Hst. split.
  - intros Hmode Hbad.
    assert (H : exists reply,
              conversation_step cfg ev inp (Py.strip (message ev)) st w
              = (Some st, [Respond reply])).
    { unfold conversation_step, limit_numeric_step.
      destruct Hbad as [[Hin Hnum]|[Hstep Hdur]].
      - simpl in Hin.
        destruct Hin as [E|[E|[E|[]]]]; rewrite <- E; cbn; rewrite Hnum;
          destruct Hmode as [-> | ->]; cbn; eauto.
      - rewrite Hstep. cbn. rewrite Hdur.
        destruct Hmode as [-> | ->]; cbn; eauto. }
    destruct H as [reply H]. exists reply.
    now apply (conversation_stays cfg ev inp w st _ Hp Ha Hs Hst).
  - intros Hin Hg Hr.
    apply (conversation_stays cfg ev inp w st _ Hp Ha Hs Hst).
    assert (Hng : opt_string_eqb (d_group (data st)) (Some "@solana_trojanbot") = false).
    { destruct (d_group (data st)) as [g|]; [|reflexivity]. simpl.
      destruct (String.eqb_spec g "@solana_trojanbot"); congruence. }
    unfold conversation_step, edit_field.
    simpl in Hin.
    destruct Hin as [E|[E|[E|[E|[]]]]]; rewrite <- E; cbn; rewrite Hng, Hr; reflexivity.
Qed.

Lemma invalid_input_does_not_advance_witness :
  exists reply,
    bot_conversation plain_config (dm 5 7 "soon") (at_time 0) expiry_step_world
    = (expiry_step_world, [DeleteInput; Respond reply]).
Proof.
  refine (proj1 (invalid_input_does_not_advance plain_config (dm 5 7 "soon") (at_time 0)
                   expiry_step_world expiry_step_state eq_refl eq_refl eq_refl _) _ _).
  - vm_compute. reflexivity.
  - now right.
  - right. split; vm_compute; reflexivity.
Defined.








(** ** The token address *)

(** Every match goes through the continuation, at a suffix of the text. *)
Lemma run_through (r : Re.re) : forall s k e,
  Re.run r s k = Some e ->
  exists s' pre, k s' = Some e /\ Re.rest s = pre ++ Re.rest s'.
Proof.
  induction r as [|p|a IHa b IHb|a IHa b IHb|a IHa|a IHa lo hi|i a IHa|];
    intros s k e H; simpl in H.
  - exists s, "". auto.
  - destruct (Re.rest s) as [|c t]; [discriminate|].
    destruct (p c); [|discriminate].
    eexists _, (String c ""). split; [exact H|reflexivity].
  - apply IHa in H as [s1 [p1 [H E1]]]. apply IHb in H as [s2 [p2 [H E2]]].
    exists s2, (p1 ++ p2). split; [exact H|].
    now rewrite E1, E2, string_app_assoc.
  - destruct (Re.run a s k) eqn:E; [injection H as <-; now apply IHa in E|].
    now apply IHb in H.
  - revert H. generalize (String.length (Re.rest s)) at 1. intros n.
    revert s. induction n as [|n IHn]; intros s H; [exists s, ""; auto|].
    match type of H with
    | match ?x with _ => _ end = _ => destruct x as [e'|] eqn:E
    end; [|exists s, ""; auto].
    injection H as <-. apply IHa in E as [s1 [p1 [E E1]]].
    destruct (_ <? _)%nat; [|discriminate].
    apply IHn in E as [s2 [p2 [E E2]]].
    exists s2, (p1 ++ p2). split; [exact E|].
    now rewrite E1, E2, string_app_assoc.
  - revert s H. generalize O. induction hi as [|h IHh]; intros cnt s H.
    + destruct (lo <=? cnt)%nat; [exists s, ""; auto|discriminate].
    + match type of H with
      | match ?x with _ => _ end = _ => destruct x as [e'|] eqn:E
      end.
      * injection H as <-. apply IHa in E as [s1 [p1 [E E1]]].
        apply IHh in E as [s2 [p2 [E E2]]].
        exists s2, (p1 ++ p2). split; [exact E|].
        now rewrite E1, E2, string_app_assoc.
      * destruct (lo <=? cnt)%nat; [exists s, ""; auto|discriminate].
  - apply IHa in H as [s1 [p1 [H E1]]]. eexists _, p1. split; [exact H|exact E1].
  - destruct (xorb _ _); [exists s, ""; auto|discriminate].
Qed.

Lemma rep_class_loop p lo : forall hi cnt s k e,
  (fix loop (h cnt : nat) (s : Re.st) {struct h} : option Re.st :=
     match h with
     | O => if (lo <=? cnt)%nat then k s else None
     | S h' =>
         match Re.run (Re.Chr p) s (fun s' => loop h' (S cnt) s') with
         | Some e => Some e
         | None => if (lo <=? cnt)%nat then k s else None
         end
     end) hi cnt s = Some e ->
  exists m s',
    (lo <= cnt + m)%nat /\ (m <= hi)%nat /\ k s' = Some e
    /\ Re.pos s' = (Re.pos s + m)%nat /\ Re.grps s' = Re.grps s
    /\ String.length (String.substring 0 m (Re.rest s)) = m
    /\ Py.forallb_str p (String.substring 0 m (Re.rest s)) = true.
Proof.
  induction hi as [|h IH]; intros cnt s k e H.
  - destruct (lo <=? cnt)%nat eqn:El; [|discriminate].
    apply Nat.leb_le in El. exists O, s.
    repeat split; try lia; try assumption; now destruct (Re.rest s).
  - match type of H with
    | match ?x with _ => _ end = _ => destruct x as [e'|] eqn:E
    end.
    + injection H as <-. simpl in E.
      destruct (Re.rest s) as [|c t] eqn:Er; [discriminate|].
      destruct (p c) eqn:Ep; [|discriminate].
      apply IH in E as [m [s' [H1 [H2 [H3 [H4 [H5 [H6 H7]]]]]]]].
      exists (S m), s'. simpl in *.
      repeat split; try lia; try assumption.
      now rewrite Ep, H7.
    + destruct (lo <=? cnt)%nat eqn:El; [|discriminate].
      apply Nat.leb_le in El. exists O, s.
      repeat split; try lia; try assumption; now destruct (Re.rest s).
Qed.

Lemma run_seq a b s k :
  Re.run (Re.Seq a b) s k = Re.run a s (fun s' => Re.run b s' k).
Proof. reflexivity. Qed.

Lemma run_grp i a s k :
  Re.run (Re.Grp i a) s k
  = Re.run a s (fun s' =>
      k (Re.St (Re.prev s') (Re.rest s') (Re.pos s')
           ((i, String.substring 0 (Re.pos s' - Re.pos s) (Re.rest s)) :: Re.grps s'))).
Proof. reflexivity. Qed.

(** A match of a bounded repetition of a class consumes between [lo] and
    [hi] characters of the class. *)
Lemma rep_class_run p lo hi s k e :
  Re.run (Re.Rep (Re.Chr p) lo hi) s k = Some e ->
  exists m s',
    (lo <= m <= hi)%nat /\ k s' = Some e
    /\ Re.pos s' = (Re.pos s + m)%nat /\ Re.grps s' = Re.grps s
    /\ String.length (String.substring 0 m (Re.rest s)) = m
    /\ Py.forallb_str p (String.substring 0 m (Re.rest s)) = true.
Proof.
  intros H. apply (rep_class_loop p lo hi O s k e) in H
    as [m [s' [H1 [H2 [H3 [H4 [H5 [H6 H7]]]]]]]].
  exists m, s'. repeat split; auto; lia.
Qed.

(** The bounded repetition of a class succeeds wherever enough characters of
    the class follow. *)
Lemma rep_class_loop_complete p lo : forall hi cnt s k m,
  (lo <= cnt + m)%nat -> (m <= hi)%nat ->
  String.length (String.substring 0 m (Re.rest s)) = m ->
  Py.forallb_str p (String.substring 0 m (Re.rest s)) = true ->
  (forall s', k s' <> None) ->
  (fix loop (h cnt : nat) (s : Re.st) {struct h} : option Re.st :=
     match h with
     | O => if (lo <=? cnt)%nat then k s else None
     | S h' =>
         match Re.run (Re.Chr p) s (fun s' => loop h' (S cnt) s') with
         | Some e => Some e
         | None => if (lo <=? cnt)%nat then k s else None
         end
     end) hi cnt s <> None.
Proof.
  induction hi as [|h IH]; intros cnt s k m H1 H2 H3 H4 Hk.
  - assert ((lo <=? cnt)%nat = true) as -> by (apply Nat.leb_le; lia). apply Hk.
  - match goal with
    | |- match ?x with _ => _ end <> _ => destruct x as [e'|] eqn:E
    end; [discriminate|].
    destruct (lo <=? cnt)%nat eqn:El; [apply Hk|].
    apply Nat.leb_gt in El. exfalso.
    destruct m as [|m]; [lia|]. simpl in E.
    destruct (Re.rest s) as [|c t]; [discriminate|]. simpl in H3, H4.
    destruct (p c); [|discriminate]. simpl in H4.
    revert E. apply (IH (S cnt) _ k m); simpl; auto; lia.
Qed.

Lemma rep_class_complete p lo hi s k m :
  (lo <= m <= hi)%nat ->
  String.length (String.substring 0 m (Re.rest s)) = m ->
  Py.forallb_str p (String.substring 0 m (Re.rest s)) = true ->
  (forall s', k s' <> None) ->
  Re.run (Re.Rep (Re.Chr p) lo hi) s k <> None.
Proof.
  intros Hm Hl Hc Hk.
  apply (rep_class_loop_complete p lo hi O s k m); auto; lia.
Qed.

Lemma substring_prefix : forall m t,
  String.length (String.substring 0 m t) = m ->
  exists post, t = String.substring 0 m t ++ post.
Proof.
  induction m as [|m IH]; intros t H.
  - exists t. now destruct t.
  - destruct t as [|c t]; [discriminate|]. simpl in H.
    injection H as H. apply IH in H as [post H]. exists post.
    simpl. now rewrite <- H.
Qed.

Lemma shaped_of_run m t :
  (32 <= m <= 44)%nat ->
  String.length (String.substring 0 m t) = m ->
  Py.forallb_str alnum_ascii (String.substring 0 m t) = true ->
  address_shaped (String.substring 0 m t).
Proof. intros Hm Hl Hc. unfold address_shaped. rewrite Hl. auto. Qed.

(** A match of the address pattern is a run of 32 to 44 letters and digits
    at the start of the remaining text. *)
Lemma address_match pv p txt m :
  Re.match_at address_re pv p txt = Some m ->
  address_shaped (Re.group0 m) /\ exists post, txt = Re.group0 m ++ post.
Proof.
  unfold Re.match_at. intros H.
  destruct (Re.run address_re _ Some) as [e|] eqn:E; [|discriminate].
  injection H as <-. unfold address_re in E.
  apply rep_class_run in E as [n [s' [H1 [H3 [H4 [H5 [H6 H7]]]]]]].
  injection H3 as ->. cbn [Re.pos Re.rest Re.group0] in *. rewrite H4.
  replace (p + n - p)%nat with n by lia. split.
  - now apply shaped_of_run.
  - now apply substring_prefix.
Qed.

(** A match of a pattern that ends in the captured address pattern. *)
Lemma grouped_match a b pv p txt m :
  Re.match_at (Re.Seq a (Re.Seq b (Re.Grp 1 address_re))) pv p txt = Some m ->
  address_shaped (Re.group 1 m)
  /\ exists pre post, txt = pre ++ Re.group 1 m ++ post.
Proof.
  unfold Re.match_at. intros H.
  destruct (Re.run _ _ Some) as [e|] eqn:E; [|discriminate].
  injection H as <-. rewrite run_seq in E.
  apply run_through in E as [s1 [p1 [E E1]]]. rewrite run_seq in E.
  apply run_through in E as [s2 [p2 [E E2]]]. rewrite run_grp in E.
  unfold address_re in E.
  apply rep_class_run in E as [n [s' [H1 [H3 [H4 [H5 [H6 H7]]]]]]].
  injection H3 as <-. unfold Re.group.
  cbn [Re.pos Re.rest Re.grps Re.m_groups Re.assoc Nat.eqb] in *.
  rewrite H4. replace (Re.pos s2 + n - Re.pos s2)%nat with n by lia. split.
  - now apply shaped_of_run.
  - apply substring_prefix in H6 as [post H6].
    exists (p1 ++ p2), post. rewrite E1, E2, string_app_assoc. now rewrite <- H6.
Qed.

(** [re.search] returns a match at some suffix of the text. *)
Lemma search_from_match r : forall txt pv p m,
  Re.search_from r pv p txt = Some m ->
  exists pre t pv' p', txt = pre ++ t /\ Re.match_at r pv' p' t = Some m.
Proof.
  induction txt as [|c t IH]; intros pv p m H; cbn [Re.search_from] in H.
  - destruct (Re.match_at r pv p "") eqn:E; [|discriminate].
    injection H as ->. exists "", "", pv, p. auto.
  - destruct (Re.match_at r pv p (String c t)) eqn:E.
    + injection H as ->. exists "", (String c t), pv, p. auto.
    + apply IH in H as [pre [t' [pv' [p' [H1 H2]]]]].
      exists (String c pre), t', pv', p'. split; [|exact H2].
      cbn [String.append]. now rewrite H1.
Qed.

(** [re.search] finds the address pattern wherever a run of letters and
    digits of a fitting length occurs. *)
Lemma search_finds_address n t : forall pre pv p,
  (32 <= n <= 44)%nat ->
  String.length (String.substring 0 n t) = n ->
  Py.forallb_str alnum_ascii (String.substring 0 n t) = true ->
  Re.search_from address_re pv p (pre ++ t) <> None.
Proof.
  assert (Hhere : forall pv p,
    (32 <= n <= 44)%nat ->
    String.length (String.substring 0 n t) = n ->
    Py.forallb_str alnum_ascii (String.substring 0 n t) = true ->
    Re.match_at address_re pv p t <> None).
  { intros pv p Hn Hl Hc. unfold Re.match_at.
    destruct (Re.run address_re _ Some) eqn:E; [discriminate|].
    exfalso. revert E. unfold address_re.
    apply (rep_class_complete alnum_ascii 32 44 (Re.St pv t p []) Some n);
      auto; discriminate. }
  induction pre as [|c pre IH]; intros pv p Hn Hl Hc.
  - change ("" ++ t) with t. destruct t as [|c t']; cbn [Re.search_from].
    + destruct (Re.match_at address_re pv p "") eqn:E; [discriminate|].
      now apply Hhere in E.
    + destruct (Re.match_at address_re pv p (String c t')) eqn:E; [discriminate|].
      now apply Hhere in E.
  - change (String c pre ++ t) with (String c (pre ++ t)). cbn [Re.search_from].
    destruct (Re.match_at address_re pv p _); [discriminate|]. now apply IH.
Qed.

(** A pattern that ends in the captured address pattern matches only texts
    in which the bare address pattern matches as well. *)
Lemma grouped_search_needs_address a b txt :
  Re.search address_re txt = None ->
  Re.search (Re.Seq a (Re.Seq b (Re.Grp 1 address_re))) txt = None.
Proof.
  intros Hnone.
  destruct (Re.search (Re.Seq a _) txt) as [m|] eqn:E; [|reflexivity]. exfalso.
  apply search_from_match in E as [pre [t [pv [p [Ht E]]]]].
  unfold Re.match_at in E.
  destruct (Re.run _ _ Some) as [e|] eqn:Er; [|discriminate].
  rewrite run_seq in Er.
  apply run_through in Er as [s1 [p1 [Er E1]]]. rewrite run_seq in Er.
  apply run_through in Er as [s2 [p2 [Er E2]]]. rewrite run_grp in Er.
  unfold address_re in Er.
  apply rep_class_run in Er as [n [s' [H1 [H3 [H4 [H5 [H6 H7]]]]]]].
  cbn [Re.rest] in E1. revert Hnone. unfold Re.search.
  rewrite Ht, E1, E2, <- !string_app_assoc.
  apply search_finds_address with (n := n); auto.
Qed.

Lemma extract_is_search txt :
  extract_token_address txt = option_map Re.group0 (Re.search address_re txt).
Proof.
  unfold extract_token_address, address_patterns. cbn [first_address].
  destruct (Re.search address_re txt) eqn:E; [reflexivity|].
  now rewrite !grouped_search_needs_address.
Qed.

(** X14: the address that [extract_token_address] returns is a run of 32 to
    44 ASCII letters and digits that occurs in the message text. *)
Theorem extracted_address_is_alphanumeric_run (text a : string) :
  extract_token_address text = Some a ->
  address_shaped a /\ exists pre post, text = pre ++ a ++ post.
Proof.
  rewrite extract_is_search. intros H.
  destruct (Re.search address_re text) as [m|] eqn:E; [|discriminate].
  injection H as <-.
  apply search_from_match in E as [pre [t [pv [p [Ht E]]]]].
  apply address_match in E as [H1 [post H2]].
  split; [exact H1|]. exists pre, post. now rewrite Ht, H2 at 1.
Qed.

Lemma extracted_address_is_alphanumeric_run_witness :
  address_shaped wsol /\ exists pre post, ("CA: " ++ wsol ++ " is live")%string = pre ++ wsol ++ post.
Proof.
  apply (extracted_address_is_alphanumeric_run ("CA: " ++ wsol ++ " is live") wsol).
  vm_compute. reflexivity.
Defined.

(** X15: the 'CA:' and 'Token:' patterns of [extract_token_address] never
    decide the result: for every text the function returns what a search for
    the first pattern alone returns, the leftmost run of 32 to 44 letters and
    digits, so the text before the run plays no part. *)
Theorem only_the_first_address_pattern_decides (text : string) :
  extract_token_address text
  = option_map Re.group0 (Re.search address_re text).
Proof. apply extract_is_search. Qed.

(** ** Durations *)

Lemma digit_val_nonneg c : Py.is_digit c = true -> 0 <= Py.digit_val c.
Proof.
  unfold Py.is_digit, Py.in_range, Py.digit_val. intros H.
  apply andb_true_iff in H as [H _]. apply N.leb_le in H. lia.
Qed.

Lemma digits_val_nonneg s : forall acc,
  Py.forallb_str Py.is_digit s = true -> 0 <= acc -> 0 <= Py.digits_val acc s.
Proof.
  induction s as [|c r IH]; intros acc H Hacc; simpl in *; [exact Hacc|].
  apply andb_true_iff in H as [Hc Hr]. apply IH; [exact Hr|].
  apply digit_val_nonneg in Hc. lia.
Qed.

Lemma forallb_str_app p a b :
  Py.forallb_str p a = true -> Py.forallb_str p b = true ->
  Py.forallb_str p (a ++ b) = true.
Proof.
  induction a as [|c r IH]; simpl; intros Ha Hb; [exact Hb|].
  apply andb_true_iff in Ha as [-> Hr]. now apply IH.
Qed.

Lemma unsigned_float_nonneg s q : Py.unsigned_float s = Some q -> (0 <= q)%Q.
Proof.
  unfold Py.unsigned_float. destruct (Py.split_dot s) as [i f].
  set (fr := match f with Some fr => fr | None => "" end).
  destruct (Py.forallb_str Py.is_digit i) eqn:Hi; [|discriminate].
  destruct (Py.forallb_str Py.is_digit fr) eqn:Hf; [|discriminate].
  simpl. destruct (negb _); [|discriminate]. intros H. injection H as <-.
  rewrite Qred_correct. unfold Qle. simpl.
  pose proof (digits_val_nonneg (i ++ fr) 0 (forallb_str_app _ _ _ Hi Hf)).
  lia.
Qed.

Lemma float_of_digit_start c r :
  Py.is_digit c = true -> Py.float (String c r) = Py.unsigned_float (String c r).
Proof.
  destruct c as [[] [] [] [] [] [] [] []]; intros H;
    try reflexivity; discriminate H.
Qed.

Lemma number_starts_with_digit t :
  Re.fullmatch number_re t = true ->
  exists c r, t = String c r /\ Py.is_digit c = true.
Proof.
  unfold Re.fullmatch, number_re, Re.Plus, Re.digit. intros H.
  destruct t as [|c r]; simpl in H; [discriminate|].
  destruct (Py.is_digit c) eqn:Hc; [eauto|discriminate].
Qed.

(** X16: [_parse_duration_to_minutes] never returns a negative number of
    minutes, and it returns zero only for a text that is a bare number; a
    duration written with unit letters is accepted only when it is strictly
    positive (so '0' is a duration and '0m' is not). *)
Theorem parsed_duration_is_not_negative (text : string) (q : Q) :
  _parse_duration_to_minutes text = Some q ->
  (0 <= q)%Q
  /\ (Re.fullmatch number_re (Py.lower (Py.strip text)) = false -> (0 < q)%Q).
Proof.
  unfold _parse_duration_to_minutes.
  set (t := Py.lower (Py.strip text)).
  destruct (Py.is_empty t); [discriminate|].
  destruct (Re.fullmatch number_re t) eqn:Hnum.
  - intros H. split; [|discriminate].
    destruct (number_starts_with_digit t Hnum) as [c [r [Ht Hc]]].
    rewrite Ht, (float_of_digit_start c r Hc) in H.
    now apply unsigned_float_nonneg in H.
  - destruct (negb _); simpl; [|discriminate].
    destruct (Qpositive _) eqn:Hpos; [|discriminate].
    intros H. injection H as <-. rewrite Qred_correct.
    unfold Qpositive in Hpos. apply negb_true_iff in Hpos.
    assert (Hlt : (0 < fold_left add_duration_token
                          (Re.finditer duration_token_re t) 0)%Q).
    { apply Qnot_le_lt. intros Hle. apply Qle_bool_iff in Hle. congruence. }
    split; [now apply Qlt_le_weak|intros _; exact Hlt].
Qed.

Lemma parsed_duration_is_not_negative_witness :
  (0 <= 90)%Q
  /\ (Re.fullmatch number_re (Py.lower (Py.strip " 1H 30m ")) = false -> (0 < 90)%Q).
Proof.
  apply (parsed_duration_is_not_negative " 1H 30m " 90%Q).
  vm_compute. reflexivity.
Defined.

(** ** The strategy list *)

Lemma py_slice_from start size {X : Type} (items : list X) :
  0 <= start -> 0 <= size ->
  py_slice items start (start + size)
  = firstn (Z.to_nat size) (skipn (Z.to_nat start) items).
Proof.
  intros Hs Hz. unfold py_slice, slice_index.
  destruct (start <? 0) eqn:E1; [apply Z.ltb_lt in E1; lia|].
  destruct (start + size <? 0) eqn:E2; [apply Z.ltb_lt in E2; lia|].
  set (len := Z.of_nat (List.length items)).
  destruct (Z.le_gt_cases len start) as [Hge|Hlt].
  - rewrite !skipn_all2 by (unfold len in *; lia). now rewrite !firstn_nil.
  - rewrite (Z.min_l start len) by lia.
    destruct (Z.le_gt_cases (start + size) len) as [Hin|Hout].
    + rewrite Z.min_l by lia. f_equal. lia.
    + rewrite Z.min_r by lia.
      rewrite !firstn_all2; try reflexivity;
        rewrite length_skipn; unfold len in *; lia.
Qed.

Lemma enumerate_from_app {X : Type} (a b : list X) : forall n,
  enumerate_from n (a ++ b)
  = (enumerate_from n a ++ enumerate_from (n + Z.of_nat (List.length a)) b)%list.
Proof.
  induction a as [|x a IH]; intros n; simpl.
  - f_equal. lia.
  - rewrite IH. do 3 f_equal. lia.
Qed.

Lemma enumerate_from_In {X : Type} (l : list X) : forall n i x,
  In (i, x) (enumerate_from n l) ->
  exists j, i = n + Z.of_nat j /\ nth_error l j = Some x.
Proof.
  induction l as [|y l IH]; intros n i x H; simpl in H; [contradiction|].
  destruct H as [H|H].
  - injection H as <- <-. exists O. split; [lia|reflexivity].
  - apply IH in H as [j [H1 H2]]. exists (S j). split; [lia|exact H2].
Qed.

Lemma nth_error_window {X : Type} (l : list X) a k j x :
  nth_error (firstn k (skipn a l)) j = Some x -> nth_error l (a + j) = Some x.
Proof.
  intros H.
  destruct (Nat.lt_ge_cases j k) as [Hlt|Hge].
  - rewrite nth_error_firstn in H.
    destruct (j <? k)%nat eqn:E; [|apply Nat.ltb_ge in E; lia].
    now rewrite nth_error_skipn in H.
  - assert (Hnone : nth_error (firstn k (skipn a l)) j = None).
    { apply nth_error_None. rewrite length_firstn. lia. }
    congruence.
Qed.

(** X17: on every page of the list from the first on, the button of a row
    opens the strategy that the row shows: the index in its callback data
    is the position of that strategy in the sender's view, which is where
    [_get_owned_strategy] looks it up. *)
Theorem row_button_opens_the_strategy_of_its_row
    (cfg : Config) (ev : Event) (w : World) (page : Z) (r : StrategyRow) :
  is_private ev = true -> _authorized cfg (sender_id ev) = true ->
  1 <= page ->
  In r (page_rows (_strategies_page (sender_id ev) page PAGE_SIZE w)) ->
  exists s,
    on_list_button cfg ev (BView (Some (row_number r))) w
    = (w, [LDetail (row_number r) s])
    /\ r = strategy_row (row_number r) s
    /\ nth_error (owned_by (load_strategies w) (sender_id ev))
                 (Z.to_nat (row_number r) - 1) = Some s.
Proof.
  intros Hp Ha Hpage Hin.
  unfold _strategies_page, PAGE_SIZE in Hin. cbn [page_rows] in Hin.
  rewrite py_slice_from in Hin by lia.
  apply in_map_iff in Hin as [[i s] [Hr Hin]].
  apply enumerate_from_In in Hin as [j [Hi Hnth]].
  apply nth_error_window in Hnth.
  assert (Hlen : (Z.to_nat ((page - 1) * 6) + j
                  < List.length (owned_by (load_strategies w) (sender_id ev)))%nat).
  { apply nth_error_Some. congruence. }
  exists s. subst r. cbn [row_number strategy_row].
  assert (Hidx : Z.to_nat (i - 1) = (Z.to_nat ((page - 1) * 6) + j)%nat) by lia.
  unfold on_list_button, _get_owned_strategy. rewrite Hp, Ha. cbn [negb orb].
  assert ((1 <=? i) && (i <=? Z.of_nat (List.length
            (owned_by (load_strategies w) (sender_id ev)))) = true) as ->.
  { apply andb_true_iff. split; apply Z.leb_le; lia. }
  cbn [snd]. rewrite Hidx, Hnth. repeat split.
  replace (Z.to_nat i - 1)%nat with (Z.to_nat ((page - 1) * 6) + j)%nat by lia.
  exact Hnth.
Qed.

Lemma row_button_opens_the_strategy_of_its_row_witness :
  exists s,
    on_list_button plain_config (dm 5 7 "") (BView (Some 8)) crowded_world
    = (crowded_world, [LDetail 8 s])
    /\ strategy_row 8 (numbered 10 7) = strategy_row 8 s
    /\ nth_error (owned_by (load_strategies crowded_world) (Some 7)) 7 = Some s.
Proof.
  apply (row_button_opens_the_strategy_of_its_row plain_config (dm 5 7 "")
           crowded_world 2 (strategy_row 8 (numbered 10 7))).
  - reflexivity.
  - reflexivity.
  - lia.
  - vm_compute. right. left. reflexivity.
Defined.

Lemma page_rows_from (owner : option Z) (w : World) (k : nat) :
  page_rows (_strategies_page owner (Z.of_nat k + 1) PAGE_SIZE w)
  = map (fun '(i, s) => strategy_row i s)
        (enumerate_from (Z.of_nat (6 * k) + 1)
           (firstn 6 (skipn (6 * k) (owned_by (load_strategies w) owner)))).
Proof.
  unfold _strategies_page, PAGE_SIZE. cbn [page_rows].
  rewrite py_slice_from by lia.
  replace (Z.to_nat ((Z.of_nat k + 1 - 1) * 6)) with (6 * k)%nat by lia.
  replace ((Z.of_nat k + 1 - 1) * 6 + 1) with (Z.of_nat (6 * k) + 1) by lia.
  reflexivity.
Qed.

Lemma page_next_from (owner : option Z) (w : World) (k : nat) :
  page_next (_strategies_page owner (Z.of_nat k + 1) PAGE_SIZE w)
  = if (6 * k + 6 <? List.length (owned_by (load_strategies w) owner))%nat
    then Some (Z.of_nat (S k) + 1) else None.
Proof.
  unfold _strategies_page, PAGE_SIZE. cbn [page_next].
  destruct (6 * k + 6 <? _)%nat eqn:E.
  - apply Nat.ltb_lt in E.
    destruct (_ <? _) eqn:E'; [f_equal; lia|apply Z.ltb_ge in E'; lia].
  - apply Nat.ltb_ge in E.
    destruct (_ <? _) eqn:E'; [apply Z.ltb_lt in E'; lia|reflexivity].
Qed.

Lemma browse_from (owner : option Z) (w : World) : forall presses k,
  (List.length (owned_by (load_strategies w) owner) <= 6 * (k + presses + 1))%nat ->
  browse owner w presses (Z.of_nat k + 1)
  = map (fun '(i, s) => strategy_row i s)
        (enumerate_from (Z.of_nat (6 * k) + 1)
           (skipn (6 * k) (owned_by (load_strategies w) owner))).
Proof.
  set (owned := owned_by (load_strategies w) owner).
  assert (Hlast : forall k,
    (List.length owned <= 6 * k + 6)%nat ->
    firstn 6 (skipn (6 * k) owned) = skipn (6 * k) owned).
  { intros k H. apply firstn_all2. rewrite length_skipn. lia. }
  induction presses as [|n IH]; intros k Hlen.
  - cbn [browse]. rewrite page_rows_from. fold owned.
    rewrite Hlast by lia. now rewrite app_nil_r.
  - cbn [browse]. rewrite page_rows_from, page_next_from. fold owned.
    destruct (6 * k + 6 <? List.length owned)%nat eqn:E.
    + apply Nat.ltb_lt in E. rewrite IH by lia.
      rewrite <- map_app. f_equal.
      rewrite <- (firstn_skipn 6 (skipn (6 * k) owned)) at 2.
      rewrite enumerate_from_app, skipn_skipn, length_firstn, length_skipn.
      replace (6 + 6 * k)%nat with (6 * S k)%nat by lia.
      do 2 f_equal. lia.
    + apply Nat.ltb_ge in E. rewrite Hlast by lia. now rewrite app_nil_r.
Qed.

(** X18: the pages of the list partition the sender's view.  Opening the
    list and pressing 'Next' as long as it is offered shows every strategy
    of the view exactly once, in the order of the document, numbered from
    1; strategies of other owners never appear. *)
Theorem browsing_shows_every_own_strategy_once
    (owner : option Z) (w : World) (presses : nat) :
  (List.length (owned_by (load_strategies w) owner) <= 6 * (presses + 1))%nat ->
  browse owner w presses 1
  = map (fun '(i, s) => strategy_row i s)
        (enumerate_from 1 (owned_by (load_strategies w) owner)).
Proof.
  intros H. apply (browse_from owner w presses O). lia.
Qed.

Lemma browsing_shows_every_own_strategy_once_witness :
  browse (Some 7) crowded_world 1 1
  = map (fun '(i, s) => strategy_row i s)
        (enumerate_from 1 (owned_by (load_strategies crowded_world) (Some 7))).
Proof.
  apply (browsing_shows_every_own_strategy_once (Some 7) crowded_world 1).
  vm_compute. lia.
Defined.

(** ** The enable switch *)

Lemma belongs_to_set_enabled b s owner :
  _belongs_to (set_enabled b s) owner = _belongs_to s owner.
Proof. reflexivity. Qed.

(** [update_owned] changes the selected entry of the owner's view and
    nothing else, for every update that keeps the owner. *)
Lemma update_owned_view (f : Strategy -> Strategy) owner items :
  (forall s, _belongs_to (f s) owner = _belongs_to s owner) ->
  forall k,
  let items' := update_owned f owner k items in
  List.length items' = List.length items
  /\ List.filter (fun s => negb (_belongs_to s owner)) items'
     = List.filter (fun s => negb (_belongs_to s owner)) items
  /\ ((1 <= k)%nat ->
      owned_by items' owner = alter f (k - 1)%nat (owned_by items owner)).
Proof.
  intros Hf. unfold owned_by.
  induction items as [|s rest IH]; intros k; cbv zeta.
  - simpl. repeat split; reflexivity.
  - destruct (_belongs_to s owner) eqn:Eb.
    + destruct k as [|[|j]].
      * cbn [update_owned]. rewrite Eb. repeat split; try reflexivity. lia.
      * cbn [update_owned]. rewrite Eb. cbn [List.length List.filter].
        rewrite Hf, Eb. repeat split; reflexivity.
      * destruct (IH (S j)) as [H1 [H2 H3]].
        cbn [update_owned]. rewrite Eb. cbn [List.length List.filter].
        rewrite Eb. cbn [negb]. split; [now rewrite H1|]. split; [exact H2|].
        intros _. rewrite H3 by lia. simpl. now rewrite Nat.sub_0_r.
    + destruct (IH k) as [H1 [H2 H3]].
      cbn [update_owned]. rewrite Eb. cbn [List.length List.filter].
      rewrite Eb. cbn [negb]. split; [now rewrite H1|]. split; [now rewrite H2|].
      exact H3.
Qed.

(** Updating the same entry twice is updating it once with the composed
    update. *)
Lemma update_owned_twice (f g : Strategy -> Strategy) owner items :
  (forall s, _belongs_to (f s) owner = _belongs_to s owner) ->
  forall k,
  update_owned g owner k (update_owned f owner k items)
  = update_owned (fun s => g (f s)) owner k items.
Proof.
  intros Hf. induction items as [|s rest IH]; intros k; [reflexivity|].
  simpl. destruct (_belongs_to s owner) eqn:Eb.
  - destruct k as [|[|j]].
    + simpl. now rewrite Eb.
    + simpl. now rewrite Hf, Eb.
    + simpl. rewrite Eb. now rewrite IH.
  - simpl. rewrite Eb. now rewrite IH.
Qed.

Lemma map_update_owned {Y : Type} (h : Strategy -> Y) f owner items :
  (forall s, h (f s) = h s) ->
  forall k, map h (update_owned f owner k items) = map h items.
Proof.
  intros Hh. induction items as [|s rest IH]; intros k; [reflexivity|].
  simpl. destruct (_belongs_to s owner); [|simpl; now rewrite IH].
  destruct k as [|[|j]]; [reflexivity|simpl; now rewrite Hh|simpl; now rewrite IH].
Qed.

Lemma nth_error_alter {X : Type} (f : X -> X) (l : list X) : forall i x,
  nth_error l i = Some x -> nth_error (alter f i l) i = Some (f x).
Proof.
  induction l as [|y l IH]; intros [|i] x H; try discriminate.
  - injection H as ->. reflexivity.
  - simpl in *. now apply IH.
Qed.

Lemma length_alter_list {X : Type} (f : X -> X) (l : list X) : forall i,
  List.length (alter f i l) = List.length l.
Proof.
  induction l as [|y l IH]; intros [|i]; simpl; try reflexivity.
  f_equal. apply IH.
Qed.

(** The branch 'toggle:' for an index of the view and a writable document. *)
Lemma on_toggle_in_range (cfg : Config) (ev : Event) (w : World) (idx : Z) :
  is_private ev = true -> _authorized cfg (sender_id ev) = true ->
  json_writable w = true ->
  1 <= idx <= Z.of_nat (List.length (owned_by (strategies_json w) (sender_id ev))) ->
  let flip x := set_enabled (negb (is_enabled x)) x in
  exists s,
    nth_error (owned_by (strategies_json w) (sender_id ev)) (Z.to_nat idx - 1) = Some s
    /\ snd (on_list_button cfg ev (BToggle (Some idx)) w)
       = [LAnswer "Saved"; LDetail idx (flip s)]
    /\ strategies_json (fst (on_list_button cfg ev (BToggle (Some idx)) w))
       = update_owned flip (sender_id ev) (Z.to_nat idx) (strategies_json w)
    /\ json_writable (fst (on_list_button cfg ev (BToggle (Some idx)) w)) = true.
Proof.
  intros Hp Ha Hw Hr flip. unfold on_list_button. rewrite Hp, Ha. cbn [negb orb].
  unfold load_strategies.
  assert ((1 <=? idx) && (idx <=? Z.of_nat
            (List.length (owned_by (strategies_json w) (sender_id ev)))) = true) as ->.
  { apply andb_true_iff. split; apply Z.leb_le; lia. }
  cbn [negb].
  destruct (nth_error (owned_by (strategies_json w) (sender_id ev)) (Z.to_nat idx - 1))
    as [s|] eqn:En.
  - exists s. split; [reflexivity|].
    unfold save_strategies. rewrite Hw. repeat split.
  - apply nth_error_None in En. lia.
Qed.

(** X19: the button 'Enable' or 'Disable' of the detail view switches the
    strategy at the index of the sender's view and nothing else: strategies
    of other owners, the length of the document and every field but the
    flag are kept, the view that is shown afterwards is that of the
    switched strategy, and a second press restores the effective flag of
    every strategy. *)
Theorem toggle_switches_only_the_selected_strategy
    (cfg : Config) (ev : Event) (w : World) (idx : Z) :
  is_private ev = true -> _authorized cfg (sender_id ev) = true ->
  json_writable w = true ->
  1 <= idx <= Z.of_nat (List.length (owned_by (strategies_json w) (sender_id ev))) ->
  let flip x := set_enabled (negb (is_enabled x)) x in
  let r := on_list_button cfg ev (BToggle (Some idx)) w in
  let r2 := on_list_button cfg ev (BToggle (Some idx)) (fst r) in
  owned_by (strategies_json (fst r)) (sender_id ev)
  = alter flip (Z.to_nat idx - 1)%nat (owned_by (strategies_json w) (sender_id ev))
  /\ List.filter (fun s => negb (_belongs_to s (sender_id ev))) (strategies_json (fst r))
     = List.filter (fun s => negb (_belongs_to s (sender_id ev))) (strategies_json w)
  /\ List.length (strategies_json (fst r)) = List.length (strategies_json w)
  /\ map (set_enabled true) (strategies_json (fst r))
     = map (set_enabled true) (strategies_json w)
  /\ (exists s, snd r = [LAnswer "Saved"; LDetail idx s]
                /\ nth_error (owned_by (strategies_json (fst r)) (sender_id ev))
                             (Z.to_nat idx - 1) = Some s)
  /\ map is_enabled (strategies_json (fst r2)) = map is_enabled (strategies_json w).
Proof.
  intros Hp Ha Hw Hidx flip r r2.
  assert (Hflip : forall s, _belongs_to (flip s) (sender_id ev)
                            = _belongs_to s (sender_id ev)) by reflexivity.
  destruct (update_owned_view flip (sender_id ev) (strategies_json w) Hflip
              (Z.to_nat idx)) as [H1 [H2 H3]].
  destruct (on_toggle_in_range cfg ev w idx Hp Ha Hw Hidx) as [s [Hs [Hr [Hdoc Hw1]]]].
  fold flip in Hr, Hdoc. fold r in Hr, Hdoc, Hw1.
  assert (Hview : owned_by (strategies_json (fst r)) (sender_id ev)
                  = alter flip (Z.to_nat idx - 1)%nat
                      (owned_by (strategies_json w) (sender_id ev))).
  { rewrite Hdoc. apply H3. lia. }
  split; [exact Hview|]. rewrite Hdoc at 1 2 3.
  split; [exact H2|]. split; [exact H1|].
  split; [now apply map_update_owned|]. split.
  - exists (flip s). split; [exact Hr|]. rewrite Hview. now apply nth_error_alter.
  - assert (Hidx1 : 1 <= idx <= Z.of_nat (List.length
                      (owned_by (strategies_json (fst r)) (sender_id ev)))).
    { rewrite Hview, length_alter_list. exact Hidx. }
    destruct (on_toggle_in_range cfg ev (fst r) idx Hp Ha Hw1 Hidx1)
      as [s' [_ [_ [Hdoc2 _]]]].
    fold flip in Hdoc2. fold r2 in Hdoc2.
    rewrite Hdoc2, Hdoc, update_owned_twice by exact Hflip.
    apply map_update_owned. intros x. unfold flip, is_enabled. cbn [enabled set_enabled].
    apply negb_involutive.
Qed.

Lemma toggle_switches_only_the_selected_strategy_witness :
  let flip x := set_enabled (negb (is_enabled x)) x in
  let ev := dm 5 7 "" in
  let r := on_list_button plain_config ev (BToggle (Some 2)) crowded_world in
  let r2 := on_list_button plain_config ev (BToggle (Some 2)) (fst r) in
  owned_by (strategies_json (fst r)) (sender_id ev)
  = alter flip 1%nat (owned_by (strategies_json crowded_world) (sender_id ev))
  /\ List.filter (fun s => negb (_belongs_to s (sender_id ev))) (strategies_json (fst r))
     = List.filter (fun s => negb (_belongs_to s (sender_id ev)))
         (strategies_json crowded_world)
  /\ List.length (strategies_json (fst r)) = List.length (strategies_json crowded_world)
  /\ map (set_enabled true) (strategies_json (fst r))
     = map (set_enabled true) (strategies_json crowded_world)
  /\ (exists s, snd r = [LAnswer "Saved"; LDetail 2 s]
                /\ nth_error (owned_by (strategies_json (fst r)) (sender_id ev)) 1
                   = Some s)
  /\ map is_enabled (strategies_json (fst r2))
     = map is_enabled (strategies_json crowded_world).
Proof.
  apply (toggle_switches_only_the_selected_strategy plain_config (dm 5 7 "")
           crowded_world 2).
  - reflexivity.
  - reflexivity.
  - reflexivity.
  - simpl. lia.
Defined.

Lemma find_position_alter {X : Type} (p : X -> bool) (f : X -> X) (l : list X) :
  (forall x, p (f x) = p x) ->
  forall i, find_position p (alter f i l) = find_position p l.
Proof.
  intros Hp. induction l as [|y l IH]; intros [|i]; simpl; try reflexivity.
  - now rewrite Hp.
  - change (list_alter f i l) with (alter f i l). now rewrite IH.
Qed.

(** The selection looks at the names and at the length of the view only. *)
Lemma toggle_target_alter (f : Strategy -> Strategy) (l : list Strategy) arg i :
  (forall s, name (f s) = name s) ->
  toggle_target (alter f i l) arg = toggle_target l arg.
Proof.
  intros Hn. unfold toggle_target. rewrite length_alter_list.
  rewrite find_position_alter; [reflexivity|].
  intros x. unfold name_or_empty. now rewrite Hn.
Qed.

Lemma find_position_positive {X : Type} (p : X -> bool) (l : list X) : forall k,
  find_position p l = Some k -> (1 <= k)%nat.
Proof.
  induction l as [|y l IH]; intros k; simpl; [discriminate|].
  destruct (p y); [intros H; injection H as <-; lia|].
  destruct (find_position p l) as [j|]; simpl; [|discriminate].
  intros H. injection H as <-. lia.
Qed.

Lemma toggle_target_positive (l : list Strategy) arg k :
  toggle_target l arg = Ok (Some k) -> (1 <= k)%nat.
Proof.
  unfold toggle_target. intros H.
  assert (Hname : forall a,
    Ok (find_position
          (fun it => String.eqb (Py.lower (name_or_empty it)) (Py.lower a)) l)
    = Ok (Some k) -> (1 <= k)%nat).
  { intros a Ha. injection Ha as Ha. now apply find_position_positive in Ha. }
  destruct arg as [|c r]; [now apply Hname in H|].
  destruct c as [[] [] [] [] [] [] [] []];
    cbv beta iota in H; try (now apply Hname in H).
  destruct (str_isdigit r); [|now apply Hname in H].
  destruct (int_of_str r) as [idx|]; [|discriminate].
  destruct ((1 <=? idx) && _) eqn:E; [|discriminate].
  injection H as <-. apply andb_true_iff in E as [E _]. apply Z.leb_le in E. lia.
Qed.

(** X20: the commands '/enable' and '/disable' are idempotent and touch
    nothing but the flag: a second run of the same command on the world
    that the first one leaves gives the same reply and changes nothing
    more, strategies outside the sender's view are kept, and every
    strategy keeps all its fields other than 'enabled'. *)
Theorem enable_command_is_idempotent
    (cfg : Config) (ev : Event) (enable : bool) (captured : string)
    (w w1 : World) (es : list effect) :
  bot_enable_disable cfg ev enable captured w = Some (w1, es) ->
  bot_enable_disable cfg ev enable captured w1 = Some (w1, es)
  /\ List.filter (fun s => negb (_belongs_to s (sender_id ev))) (strategies_json w1)
     = List.filter (fun s => negb (_belongs_to s (sender_id ev))) (strategies_json w)
  /\ map (set_enabled true) (strategies_json w1)
     = map (set_enabled true) (strategies_json w).
Proof.
  unfold bot_enable_disable.
  destruct (negb (is_private ev) || negb (_authorized cfg (sender_id ev))).
  { intros H. injection H as <- <-. auto. }
  unfold _toggle_enable, load_strategies.
  destruct (Py.is_empty (Py.strip captured)).
  { intros H. injection H as <- <-. auto. }
  set (f := set_enabled enable).
  assert (Hf : forall s, _belongs_to (f s) (sender_id ev) = _belongs_to s (sender_id ev))
    by reflexivity.
  destruct (toggle_target (owned_by (strategies_json w) (sender_id ev))
              (Py.strip captured)) as [[k|]|] eqn:Et; [| |discriminate].
  2: { intros H. injection H as <- <-. rewrite Et. auto. }
  destruct (nth_error (owned_by (strategies_json w) (sender_id ev)) (k - 1))
    as [s|] eqn:En.
  2: { intros H. injection H as <- <-. rewrite Et, En. auto. }
  unfold save_strategies. destruct (json_writable w) eqn:Hw.
  2: { intros H. injection H as <- <-. rewrite Et, En, Hw. auto. }
  intros H. injection H as <- <-. cbn [strategies_json json_writable].
  destruct (update_owned_view f (sender_id ev) (strategies_json w) Hf k)
    as [H1 [H2 H3]].
  assert (Hk : (1 <= k)%nat) by now apply toggle_target_positive in Et.
  split; [|split; [exact H2|now apply map_update_owned]].
  rewrite H3 by exact Hk.
  rewrite toggle_target_alter by reflexivity. rewrite Et.
  rewrite (nth_error_alter f _ _ _ En).
  rewrite update_owned_twice by exact Hf.
  reflexivity.
Qed.

Lemma enable_command_is_idempotent_witness :
  let ev := dm 5 7 "/enable S3" in
  let w1 := match enable_s3 with Some r => fst r | None => crowded_world end in
  let es := match enable_s3 with Some r => snd r | None => [] end in
  bot_enable_disable plain_config ev true " S3 " w1 = Some (w1, es)
  /\ List.filter (fun s => negb (_belongs_to s (sender_id ev))) (strategies_json w1)
     = List.filter (fun s => negb (_belongs_to s (sender_id ev)))
         (strategies_json crowded_world)
  /\ map (set_enabled true) (strategies_json w1)
     = map (set_enabled true) (strategies_json crowded_world).
Proof.
  apply (enable_command_is_idempotent plain_config (dm 5 7 "/enable S3") true " S3 "
           crowded_world).
  vm_compute. reflexivity.
Defined.

(** ** Disabled strategies *)

Lemma run_loop_skip {S X : Type} (f : S -> X -> S * list effect) (xs : list X) (s : S) :
  (forall s' x, In x xs -> f s' x = (s', [])) -> run_loop f xs s = (s, []).
Proof.
  intros Hf. unfold run_loop.
  assert (H : forall acc : S * list effect,
            fold_left (fun acc x => let '(s', es) := f (fst acc) x in
                                    (s', (snd acc ++ es)%list)) xs acc = acc).
  { induction xs as [|x xs IH]; intros acc; [reflexivity|].
    simpl. rewrite (Hf (fst acc) x) by now left.
    rewrite app_nil_r. destruct acc as [s0 es0]. simpl.
    apply IH. intros s' y Hy. apply Hf. now right. }
  apply H.
Qed.

Lemma in_enumerate {X : Type} (xs : list X) i x : In (i, x) (enumerate xs) -> In x xs.
Proof. unfold enumerate. apply in_combine_r. Qed.

(** X21: a strategy that is disabled, or that is configured for another
    group, takes no part in the processing of a message.  When every stored
    strategy is of that kind, [process_token_message] only logs the age and
    the parsed fields and [process_trojan_message] does nothing at all:
    nothing is sent, no context is stored and the world is as before. *)
Theorem disabled_strategies_never_fire
    (cfg : Config) (ev : Event) (inp : Inputs) (group_username : string) (w : World) :
  PROCESSING_PAUSED w = false ->
  forallb (dormant ("@" ++ group_username)) (load_strategies w) = true ->
  process_token_message cfg ev inp group_username w
  = (w, [Log (L_age group_username (get_age_minutes (now inp) (date ev)));
         Log (L_parsed (parse_message_fields (message ev)))])
  /\ process_trojan_message cfg ev inp group_username w = (w, []).
Proof.
  intros Hp Hall.
  assert (Hd : forall i s, In (i, s) (enumerate (load_strategies w)) ->
               dormant ("@" ++ group_username) s = true).
  { intros i s Hin. apply in_enumerate in Hin.
    rewrite forallb_forall in Hall. now apply Hall. }
  unfold process_token_message, process_trojan_message. rewrite Hp. split.
  - rewrite run_loop_skip; [reflexivity|].
    intros wn [i s] Hin. apply Hd in Hin. unfold token_strategy_step.
    unfold dormant, is_enabled in Hin.
    destruct (negb match enabled s with Some b => b | None => true end);
      [reflexivity|]. rewrite orb_false_l in Hin. now rewrite Hin.
  - rewrite run_loop_skip; [reflexivity|].
    intros wn [i s] Hin. apply Hd in Hin. unfold trojan_strategy_step.
    unfold dormant, is_enabled in Hin.
    destruct (negb match enabled s with Some b => b | None => true end);
      [reflexivity|]. rewrite orb_false_l in Hin. now rewrite Hin.
Qed.

Lemma disabled_strategies_never_fire_witness :
  process_token_message plain_config (group_event wsol) (at_time 60)
    "SolanaNewPumpfun" switched_off_world
  = (switched_off_world,
     [Log (L_age "SolanaNewPumpfun" (get_age_minutes 60 0));
      Log (L_parsed (parse_message_fields wsol))])
  /\ process_trojan_message plain_config (group_event wsol) (at_time 60)
       "SolanaNewPumpfun" switched_off_world
     = (switched_off_world, []).
Proof.
  apply (disabled_strategies_never_fire plain_config (group_event wsol) (at_time 60)
           "SolanaNewPumpfun" switched_off_world).
  - reflexivity.
  - vm_compute. reflexivity.
Defined.

(** ** From a notification to an order *)

Lemma run_loop_effects_invariant {S X : Type} (P : S -> list effect -> Prop)
    (f : S -> X -> S * list effect) (xs : list X) (s : S) :
  P s [] ->
  (forall s es x, P s es -> P (fst (f s x)) (es ++ snd (f s x))%list) ->
  P (fst (run_loop f xs s)) (snd (run_loop f xs s)).
Proof.
  intros Hs Hf. unfold run_loop.
  assert (H : forall acc : S * list effect, P (fst acc) (snd acc) ->
            let r := fold_left
                       (fun acc x => let '(s', es) := f (fst acc) x in
                                     (s', (snd acc ++ es)%list)) xs acc in
            P (fst r) (snd r)).
  { induction xs as [|x xs IH]; intros acc Hacc; [exact Hacc|].
    simpl. apply IH. specialize (Hf (fst acc) (snd acc) x Hacc).
    destruct (f (fst acc) x). exact Hf. }
  now apply H.
Qed.

Lemma run_action_sends_no_card strat ctx dest cid card :
  ~ In (SendCard dest cid card) (run_action strat ctx).
Proof.
  unfold run_action, _send_action_message.
  destruct (nonempty _); [|intros []]. destruct (nonempty _); [|intros []].
  destruct (_safe_format _ _); simpl; intros [H|H]; try discriminate H;
    try contradiction; destruct H as [H|H]; try discriminate H; contradiction.
Qed.

Lemma notify_cards_stored cfg ev inp strat card txt wn es :
  extract_token_address txt = Some (pc_token card) ->
  cards_stored txt (fst wn) es ->
  cards_stored txt (fst (fst (notify cfg ev inp strat card wn)))
    (es ++ snd (notify cfg ev inp strat card wn))%list.
Proof.
  intros Htok Hinv. destruct wn as [w n]. unfold notify. cbn [fst snd].
  assert (Hnew : forall dest cid c,
    In (SendCard dest cid c)
       (if truthy (notify_chat cfg w strat)
        then SendCard (notify_chat cfg w strat) (token_hex inp n) card
             :: (if POST_ORDER_LIMIT_IN_GROUPS cfg
                 then [SendCard (JInt (chat_id ev)) (token_hex inp n) card] else [])
        else []) -> cid = token_hex inp n /\ c = card).
  { intros dest cid c. destruct (truthy _); [|intros []].
    intros [H|H]; [injection H as _ <- <-; auto|].
    destruct (POST_ORDER_LIMIT_IN_GROUPS cfg); [|destruct H].
    destruct H as [H|[]]. injection H as _ <- <-. auto. }
  intros dest cid c Hin. apply in_app_or in Hin as [Hin|Hin].
  - destruct (Hinv dest cid c Hin) as [H1 [stored [H2 H3]]]. split; [exact H1|].
    cbn [PASS_CTX set_pass_ctx].
    destruct (decide (token_hex inp n = cid)) as [<-|Hne].
    + exists card. rewrite lookup_insert_eq. split; [reflexivity|]. congruence.
    + exists stored. rewrite lookup_insert_ne by exact Hne. auto.
  - apply Hnew in Hin as [-> ->]. split; [exact Htok|].
    exists card. cbn [PASS_CTX set_pass_ctx]. now rewrite lookup_insert_eq.
Qed.

Lemma cards_stored_more txt w es es' :
  cards_stored txt w es ->
  (forall dest cid card, ~ In (SendCard dest cid card) es') ->
  cards_stored txt w (es ++ es')%list.
Proof.
  intros Hinv Hno dest cid card Hin. apply in_app_or in Hin as [Hin|Hin].
  - exact (Hinv dest cid card Hin).
  - now apply Hno in Hin.
Qed.

Lemma token_step_cards_stored cfg ev inp age parsed txt g wn es x :
  cards_stored txt (fst wn) es ->
  cards_stored txt
    (fst (fst (token_strategy_step cfg ev inp age parsed txt g wn x)))
    (es ++ snd (token_strategy_step cfg ev inp age parsed txt g wn x))%list.
Proof.
  intros H. unfold token_strategy_step. destruct x as [idx strat].
  destruct (negb _); [cbn [fst snd]; now rewrite app_nil_r|].
  destruct (negb _); [cbn [fst snd]; now rewrite app_nil_r|].
  destruct (failing_filter _ _ _) as [[which|]|];
    try (cbn [fst snd]; apply cards_stored_more; [exact H|];
         intros dest cid card [Hc|[]]; discriminate Hc).
  assert (Hlog : forall (l : log_line) sends ctx w0,
    cards_stored txt w0 (es ++ sends)%list ->
    cards_stored txt w0 (es ++ Log l :: sends ++ run_action strat ctx)%list).
  { intros l sends ctx w0 Hs dest cid card Hin.
    apply in_app_or in Hin as [Hin|[Hin|Hin]]; [|discriminate Hin|].
    - apply (Hs dest cid card). apply in_or_app. now left.
    - apply in_app_or in Hin as [Hin|Hin].
      + apply (Hs dest cid card). apply in_or_app. now right.
      + now apply run_action_sends_no_card in Hin. }
  destruct (extract_token_address txt) as [tok|] eqn:Etok.
  - destruct (bot_client cfg).
    + match goal with
      | |- context [notify cfg ev inp strat ?c wn] =>
          pose proof (notify_cards_stored cfg ev inp strat c txt wn es) as Hn;
          destruct (notify cfg ev inp strat c wn) as [wn' sends]
      end.
      cbn [fst snd] in *. apply Hlog. apply Hn; [now rewrite Etok|exact H].
    + cbn [fst snd]. apply Hlog. now rewrite app_nil_r.
  - cbn [fst snd]. apply Hlog. now rewrite app_nil_r.
Qed.

Lemma trojan_step_cards_stored cfg ev inp txt g wn es x :
  cards_stored txt (fst wn) es ->
  cards_stored txt
    (fst (fst (trojan_strategy_step cfg ev inp (extract_token_address txt) g wn x)))
    (es ++ snd (trojan_strategy_step cfg ev inp (extract_token_address txt) g wn x))%list.
Proof.
  intros H. unfold trojan_strategy_step. destruct x as [idx strat].
  destruct (negb _); [cbn [fst snd]; now rewrite app_nil_r|].
  destruct (negb _); [cbn [fst snd]; now rewrite app_nil_r|].
  destruct (all_some4 _ _ _ _) as [[[[am ex] sl] tr]|];
    [|cbn [fst snd]; apply cards_stored_more; [exact H|];
      intros dest cid card [Hc|[]]; discriminate Hc].
  assert (Hlog : forall (l : log_line) sends ctx w0,
    cards_stored txt w0 (es ++ sends)%list ->
    cards_stored txt w0 (es ++ Log l :: sends ++ run_action strat ctx)%list).
  { intros l sends ctx w0 Hs dest cid card Hin.
    apply in_app_or in Hin as [Hin|[Hin|Hin]]; [|discriminate Hin|].
    - apply (Hs dest cid card). apply in_or_app. now left.
    - apply in_app_or in Hin as [Hin|Hin].
      + apply (Hs dest cid card). apply in_or_app. now right.
      + now apply run_action_sends_no_card in Hin. }
  destruct (extract_token_address txt) as [tok|] eqn:Etok.
  - destruct (bot_client cfg).
    + match goal with
      | |- context [notify cfg ev inp strat ?c wn] =>
          pose proof (notify_cards_stored cfg ev inp strat c txt wn es) as Hn;
          destruct (notify cfg ev inp strat c wn) as [wn' sends]
      end.
      cbn [fst snd] in *. apply Hlog. apply Hn; [now rewrite Etok|exact H].
    + cbn [fst snd]. apply Hlog. now rewrite app_nil_r.
  - cbn [fst snd]. apply Hlog. now rewrite app_nil_r.
Qed.

Lemma handler_cards_stored cfg ev inp w :
  cards_stored (message ev) (fst (handler cfg ev inp w)) (snd (handler cfg ev inp w)).
Proof.
  assert (Hnone : forall w0, cards_stored (message ev) w0 []) by (intros w0 ? ? ? []).
  assert (Hcons : forall w0 l es,
            cards_stored (message ev) w0 es ->
            cards_stored (message ev) w0 (Log l :: es)).
  { intros w0 l es H dest cid card [Hin|Hin];
      [discriminate Hin|exact (H dest cid card Hin)]. }
  unfold handler. destruct (chat_username ev) as [g|]; [|apply Hnone].
  destruct (existsb _ _); [|apply Hnone].
  destruct (_is_duplicate _ _ _) as [dup cache].
  destruct dup; [cbn [fst snd]; apply Hcons, Hcons, Hnone|].
  destruct (String.eqb g "solana_trojanbot").
  - unfold process_trojan_message. cbn [PROCESSING_PAUSED set_cache].
    destruct (PROCESSING_PAUSED w); [cbn [fst snd]; apply Hcons, Hcons, Hnone|].
    pose proof (run_loop_effects_invariant
                  (fun wn es => cards_stored (message ev) (fst wn) es)
                  (trojan_strategy_step cfg ev inp (extract_token_address (message ev))
                     ("@" ++ g))
                  (enumerate (load_strategies (set_cache cache w)))
                  (set_cache cache w, O)) as Hloop.
    destruct (run_loop _ _ _) as [[w' n'] es]. cbn [fst snd] in *.
    apply Hcons, Hloop; [apply Hnone|].
    intros s es0 x Hs. now apply trojan_step_cards_stored.
  - unfold process_token_message. cbn [PROCESSING_PAUSED set_cache].
    destruct (PROCESSING_PAUSED w); [cbn [fst snd]; apply Hcons, Hcons, Hnone|].
    match goal with
    | |- context [run_loop ?f ?xs ?s] =>
        pose proof (run_loop_effects_invariant
                      (fun wn es => cards_stored (message ev) (fst wn) es) f xs s)
          as Hloop;
        destruct (run_loop f xs s) as [[w' n'] es]
    end.
    cbn [fst snd] in *.
    apply Hcons, Hcons, Hcons, Hloop; [apply Hnone|].
    intros s es0 x Hs. now apply token_step_cards_stored.
Qed.

(** X22: the button 'Order LIMIT' of a notification orders the token of
    that notification.  For every card that [handler] sends, the context
    stored under the id of the card carries the token address extracted
    from the message, also when two cards of one run draw the same id; an
    authorized press of the button 'limit:<id>' then opens a limit
    conversation at the step 'amount' with that token filled in. *)
Theorem card_button_orders_the_token_of_the_card
    (cfg : Config) (ev : Event) (inp : Inputs) (w : World)
    (dest : jval) (cid : string) (card : PassCtx)
    (press : Event) (inp' : Inputs) :
  In (SendCard dest cid card) (snd (handler cfg ev inp w)) ->
  is_private press = true -> _authorized cfg (sender_id press) = true ->
  let w1 := fst (handler cfg ev inp w) in
  let r := on_button cfg press inp' (BLimitFor cid) w1 in
  extract_token_address (message ev) = Some (pc_token card)
  /\ exists st,
       CONV_STATE (fst r) !! chat_id press = Some st
       /\ st_mode st = Limit /\ step st = "amount"
       /\ d_token (data st) = Some (pc_token card)
       /\ d_amount (data st) = None.
Proof.
  intros Hin Hp Ha w1 r.
  destruct (handler_cards_stored cfg ev inp w dest cid card Hin)
    as [Htok [stored [Hlook Hsame]]].
  split; [exact Htok|].
  unfold r, on_button. rewrite Hp, Ha. cbn [negb orb]. fold w1.
  eexists. split; [apply lookup_put_state|].
  unfold w1. rewrite Hlook. cbn. rewrite Hsame. auto.
Qed.

Lemma card_button_orders_the_token_of_the_card_witness :
  let w1 := fst (handler plain_config (group_event wsol) (at_time 60) matching_world) in
  let r := on_button plain_config (dm 5 7 "") (at_time 61) (BLimitFor "00c0ffee") w1 in
  extract_token_address (message (group_event wsol)) = Some (pc_token sample_card)
  /\ exists st,
       CONV_STATE (fst r) !! chat_id (dm 5 7 "") = Some st
       /\ st_mode st = Limit /\ step st = "amount"
       /\ d_token (data st) = Some (pc_token sample_card)
       /\ d_amount (data st) = None.
Proof.
  apply (card_button_orders_the_token_of_the_card plain_config (group_event wsol)
           (at_time 60) matching_world (JInt 7) "00c0ffee" sample_card
           (dm 5 7 "") (at_time 61)).
  - vm_compute. repeat (try (left; reflexivity); right).
  - reflexivity.
  - reflexivity.
Defined.

(** ** The signals read from a message *)

Lemma forallb_str_app_inv p a b :
  Py.forallb_str p (a ++ b) = true ->
  Py.forallb_str p a = true /\ Py.forallb_str p b = true.
Proof.
  induction a as [|c r IH]; simpl; intros H; [auto|].
  apply andb_true_iff in H as [Hc H]. apply IH in H as [Ha Hb].
  now rewrite Hc, Ha.
Qed.

Lemma string_length_app (a b : string) :
  String.length (a ++ b) = (String.length a + String.length b)%nat.
Proof. induction a as [|c a IH]; simpl; [reflexivity|now rewrite IH]. Qed.

Lemma substring_app_prefix (a b : string) :
  String.substring 0 (String.length a) (a ++ b) = a.
Proof. induction a as [|c a IH]; simpl; [now destruct b|now rewrite IH]. Qed.

(** A match hands to the continuation a state that is further in the text
    by the characters consumed, which are of the class of the pattern; the
    groups captured on the way hold characters of the class of the groups. *)
Lemma run_trace (P : ascii -> bool) (r : Re.re) :
  groups_in P r ->
  forall s k e,
  Re.run r s k = Some e ->
  exists s' pre,
    k s' = Some e /\ Re.rest s = pre ++ Re.rest s'
    /\ Re.pos s' = (Re.pos s + String.length pre)%nat
    /\ (consumes P r -> Py.forallb_str P pre = true)
    /\ (groups_ok P (Re.grps s) -> groups_ok P (Re.grps s')).
Proof.
  assert (Hcat : forall s s1 s2 p1 p2 (C1 C2 : Prop),
    Re.rest s = p1 ++ Re.rest s1 -> Re.pos s1 = (Re.pos s + String.length p1)%nat ->
    (C1 -> Py.forallb_str P p1 = true) ->
    Re.rest s1 = p2 ++ Re.rest s2 -> Re.pos s2 = (Re.pos s1 + String.length p2)%nat ->
    (C2 -> Py.forallb_str P p2 = true) ->
    Re.rest s = (p1 ++ p2) ++ Re.rest s2
    /\ Re.pos s2 = (Re.pos s + String.length (p1 ++ p2))%nat
    /\ (C1 /\ C2 -> Py.forallb_str P (p1 ++ p2) = true)).
  { intros s s1 s2 p1 p2 C1 C2 E1 N1 F1 E2 N2 F2. repeat split.
    - now rewrite E1, E2, string_app_assoc.
    - rewrite string_length_app. lia.
    - intros [H1 H2]. apply forallb_str_app; auto. }
  induction r as [|p|a IHa b IHb|a IHa b IHb|a IHa|a IHa lo hi|i a IHa|];
    intros Hg s k e H; simpl in H.
  - exists s, "". repeat split; auto; simpl; lia.
  - destruct (Re.rest s) as [|c t] eqn:Er; [discriminate|].
    destruct (p c) eqn:Ep; [|discriminate].
    eexists _, (String c ""). split; [exact H|]. cbn [Re.rest Re.pos Re.grps].
    split; [reflexivity|]. split; [simpl; lia|]. split; [|auto].
    intros Hc. simpl in *. now rewrite (Hc c Ep).
  - destruct Hg as [Hga Hgb].
    apply (IHa Hga) in H as [s1 [p1 [H [E1 [N1 [F1 G1]]]]]].
    apply (IHb Hgb) in H as [s2 [p2 [H [E2 [N2 [F2 G2]]]]]].
    destruct (Hcat s s1 s2 p1 p2 _ _ E1 N1 F1 E2 N2 F2) as [E [N F]].
    exists s2, (p1 ++ p2). repeat split; auto.
  - destruct Hg as [Hga Hgb].
    destruct (Re.run a s k) eqn:E.
    + injection H as <-. apply (IHa Hga) in E as [s1 [p1 [H [E1 [N1 [F1 G1]]]]]].
      exists s1, p1. repeat split; auto. intros [Ha _]. auto.
    + apply (IHb Hgb) in H as [s1 [p1 [H [E1 [N1 [F1 G1]]]]]].
      exists s1, p1. repeat split; auto. intros [_ Hb]. auto.
  - simpl in Hg. change (consumes P (Re.Star a)) with (consumes P a).
    revert H. generalize (String.length (Re.rest s)) at 1. intros n.
    revert s. induction n as [|n IHn]; intros s H.
    { exists s, "". repeat split; auto; simpl; lia. }
    match type of H with
    | match ?x with _ => _ end = _ => destruct x as [e'|] eqn:E
    end.
    2: { exists s, "". repeat split; auto; simpl; lia. }
    injection H as <-. apply (IHa Hg) in E as [s1 [p1 [E [E1 [N1 [F1 G1]]]]]].
    destruct (_ <? _)%nat; [|discriminate].
    apply IHn in E as [s2 [p2 [E [E2 [N2 [F2 G2]]]]]].
    destruct (Hcat s s1 s2 p1 p2 _ _ E1 N1 F1 E2 N2 F2) as [E' [N F]].
    exists s2, (p1 ++ p2). repeat split; auto.
  - simpl in Hg. change (consumes P (Re.Rep a lo hi)) with (consumes P a).
    revert s H. generalize O. induction hi as [|h IHh]; intros cnt s H.
    + destruct (lo <=? cnt)%nat; [|discriminate].
      exists s, "". repeat split; auto; simpl; lia.
    + match type of H with
      | match ?x with _ => _ end = _ => destruct x as [e'|] eqn:E
      end.
      * injection H as <-. apply (IHa Hg) in E as [s1 [p1 [E [E1 [N1 [F1 G1]]]]]].
        apply IHh in E as [s2 [p2 [E [E2 [N2 [F2 G2]]]]]].
        destruct (Hcat s s1 s2 p1 p2 _ _ E1 N1 F1 E2 N2 F2) as [E' [N F]].
        exists s2, (p1 ++ p2). repeat split; auto.
      * destruct (lo <=? cnt)%nat; [|discriminate].
        exists s, "". repeat split; auto; simpl; lia.
  - destruct Hg as [Hc Hg].
    apply (IHa Hg) in H as [s1 [p1 [H [E1 [N1 [F1 G1]]]]]].
    eexists _, p1. split; [exact H|]. cbn [Re.rest Re.pos Re.grps].
    split; [exact E1|]. split; [exact N1|]. split; [exact F1|].
    intros Hok j v [Hin|Hin]; [|now apply (G1 Hok j v)].
    injection Hin as _ <-. rewrite E1, N1.
    replace (Re.pos s + String.length p1 - Re.pos s)%nat with (String.length p1) by lia.
    rewrite substring_app_prefix. now apply F1.
  - destruct (xorb _ _); [|discriminate].
    exists s, "". repeat split; auto; simpl; lia.
Qed.

Lemma assoc_In i gs v : Re.assoc i gs = Some v -> In (i, v) gs.
Proof.
  induction gs as [|[j w] gs IH]; simpl; [discriminate|].
  destruct (i =? j)%nat eqn:E.
  - intros H. injection H as ->. apply Nat.eqb_eq in E as ->. now left.
  - intros H. right. now apply IH.
Qed.

Lemma match_group_class P r pv p txt m :
  groups_in P r -> Re.match_at r pv p txt = Some m ->
  Py.forallb_str P (Re.group 1 m) = true.
Proof.
  unfold Re.match_at. intros Hg H.
  destruct (Re.run r _ Some) as [e|] eqn:E; [|discriminate].
  injection H as <-.
  apply (run_trace P r Hg) in E as [s' [pre [H [_ [_ [_ Hok]]]]]].
  injection H as ->. unfold Re.group. cbn [Re.m_groups].
  destruct (Re.assoc 1 (Re.grps e)) as [v|] eqn:Ea; [|reflexivity].
  apply assoc_In in Ea. revert Ea. apply Hok. intros i w [].
Qed.

Lemma first_search_group_class P ps t m :
  Forall (groups_in P) ps -> first_search ps t = Some m ->
  Py.forallb_str P (Re.group 1 m) = true.
Proof.
  induction 1 as [|r ps Hr Hps IH]; simpl; [discriminate|].
  destruct (Re.search r t) as [m'|] eqn:E; [|exact IH].
  intros H. injection H as ->.
  apply search_from_match in E as [pre [t' [pv [p [_ E]]]]].
  now apply (match_group_class P r pv p t').
Qed.

Lemma num_group_class : groups_in num_sep num_group.
Proof. simpl. auto. Qed.

Lemma forallb_str_filter (P p Q : ascii -> bool) s :
  (forall c, P c = true -> p c = true -> Q c = true) ->
  Py.forallb_str P s = true -> Py.forallb_str Q (Py.filter_str p s) = true.
Proof.
  intros HQ. induction s as [|c r IH]; simpl; [auto|].
  intros H. apply andb_true_iff in H as [Hc Hr].
  destruct (p c) eqn:Ep; [|auto]. simpl. rewrite (HQ c Hc Ep). auto.
Qed.

Lemma forallb_str_map (P : ascii -> bool) f s :
  (forall c, P c = true -> P (f c) = true) ->
  Py.forallb_str P s = true -> Py.forallb_str P (Py.map_str f s) = true.
Proof.
  intros Hf. induction s as [|c r IH]; simpl; [auto|].
  intros H. apply andb_true_iff in H as [Hc Hr]. rewrite (Hf c Hc). auto.
Qed.

Lemma canonical_unsigned s :
  Py.forallb_str num_sep s = true ->
  Py.forallb_str digit_or_dot (canonical s) = true.
Proof.
  intros H. unfold canonical.
  apply (forallb_str_filter num_sep).
  - intros c Hc Hn. unfold num_sep, numeric_char, digit_or_dot in *.
    destruct (Py.is_digit c); [reflexivity|].
    destruct (Ascii.eqb c "."); [reflexivity|]. simpl in *.
    apply Ascii.eqb_eq in Hc as ->. discriminate Hn.
  - destruct (_ && _); [|exact H]. unfold Py.replace_char.
    apply forallb_str_map; [|exact H].
    intros c Hc. destruct (Ascii.eqb c ","); [reflexivity|exact Hc].
Qed.

Lemma float_unsigned c r :
  digit_or_dot c = true -> Py.float (String c r) = Py.unsigned_float (String c r).
Proof.
  destruct c as [[] [] [] [] [] [] [] []]; intros H;
    try reflexivity; discriminate H.
Qed.

Lemma parse_number_of_digits s :
  Py.forallb_str num_sep s = true -> not_negative (_parse_number s).
Proof.
  intros H. rewrite parse_number_canonical.
  apply canonical_unsigned in H.
  destruct (canonical s) as [|c r]; [exact I|]. simpl in H.
  apply andb_true_iff in H as [Hc _]. rewrite (float_unsigned c r Hc).
  destruct (Py.unsigned_float _) as [q|] eqn:E; [|exact I].
  now apply unsigned_float_nonneg in E.
Qed.

Lemma first_search_not_negative ps t :
  Forall (groups_in num_sep) ps ->
  not_negative match first_search ps t with
               | Some m => _parse_number (Re.group 1 m)
               | None => None
               end.
Proof.
  intros Hps. destruct (first_search ps t) as [m|] eqn:E; [|exact I].
  apply parse_number_of_digits. now apply (first_search_group_class num_sep ps t).
Qed.

Lemma generic_first_pct_not_negative lines : not_negative (generic_first_pct lines).
Proof.
  induction lines as [|line ls IH]; [exact I|]. cbn [generic_first_pct].
  destruct (Py.contains _ _); [|exact IH].
  destruct (Re.search _ line) as [m|] eqn:E; [|exact IH].
  apply parse_number_of_digits.
  apply search_from_match in E as [pre [t' [pv [p [_ E]]]]].
  apply (match_group_class num_sep _ pv p t') in E; [exact E|].
  simpl. auto.
Qed.

Lemma py_round_not_negative q : (0 <= q)%Q -> 0 <= py_round q.
Proof.
  intros H. unfold py_round.
  assert (Hf : 0 <= Qfloor q).
  { change 0 with (Qfloor 0). now apply Qfloor_resp_le. }
  destruct (_ ?= _)%Q; [destruct (Z.even _)| |]; lia.
Qed.

Lemma signals_not_negative (text : string) (now message_date : Q) :
  let p := parse_message_fields text in
  not_negative (first_buy_pct p)
  /\ not_negative (balance_sol p)
  /\ not_negative (option_map inject_Z (tx_count p))
  /\ (0 <= get_age_minutes now message_date)%Q.
Proof.
  assert (Hpct : Forall (groups_in num_sep) patterns_pct).
  { repeat constructor; simpl; auto 20. }
  assert (Hbal : Forall (groups_in num_sep) patterns_bal).
  { repeat constructor; simpl; auto 20. }
  assert (Htx : Forall (groups_in num_sep) patterns_tx).
  { repeat constructor; simpl; auto 20. }
  cbv zeta. split; [|split; [|split]].
  - unfold parse_message_fields. destruct (Py.is_empty text); [exact I|].
    cbn [first_buy_pct].
    pose proof (first_search_not_negative patterns_pct text Hpct) as H.
    destruct (first_search patterns_pct text) as [m|]; [|apply generic_first_pct_not_negative].
    destruct (_parse_number (Re.group 1 m)); [exact H|apply generic_first_pct_not_negative].
  - unfold parse_message_fields. destruct (Py.is_empty text); [exact I|].
    cbn [balance_sol]. apply (first_search_not_negative patterns_bal text Hbal).
  - unfold parse_message_fields. destruct (Py.is_empty text); [exact I|].
    cbn [tx_count].
    pose proof (first_search_not_negative patterns_tx text Htx) as H.
    destruct (first_search patterns_tx text) as [m|]; [|exact I].
    destruct (_parse_number (Re.group 1 m)) as [q|]; [|exact I].
    simpl in *. apply py_round_not_negative in H. unfold Qle. simpl. lia.
  - unfold get_age_minutes. apply Q.le_max_l.
Qed.

(** X23: the signals read from a message are never negative.  The numbers
    that [parse_message_fields] captures are runs of digits, dots and
    commas, so the first-buy percentage, the balance and the transaction
    count it returns are zero or more, whatever the text; so is the age
    that [get_age_minutes] computes, also for a message dated in the
    future. *)
Theorem signals_are_not_negative (text : string) (now message_date : Q) :
  let p := parse_message_fields text in
  not_negative (first_buy_pct p)
  /\ not_negative (balance_sol p)
  /\ not_negative (option_map inject_Z (tx_count p))
  /\ (0 <= get_age_minutes now message_date)%Q.
Proof. apply signals_not_negative. Qed.

Lemma below_zero_excludes lo hi v :
  (hi < 0)%Q -> not_negative v ->
  range_filter_passes (Some (FRange lo (Some hi))) v = false.
Proof.
  intros Hhi Hv. destruct v as [v|]; [|reflexivity]. simpl in *.
  destruct lo as [low|]; [|reflexivity]. unfold Q_between.
  apply andb_false_iff. right.
  destruct (Qle_bool v hi) eqn:E; [|reflexivity].
  apply Qle_bool_iff in E. lra.
Qed.

(** X24: a range whose upper bound is negative excludes every message.  A
    strategy that stores such a range for the token age, the first-buy
    percentage, the balance or the transaction count matches no message,
    whatever its text and date, because none of these signals is ever
    negative. *)
Theorem range_below_zero_never_matches
    (f : gmap string fval) (text : string) (now message_date : Q)
    (k : string) (lo : option Q) (hi : Q) :
  In k ["Token Age (minutes)"; "First Buy (%)"; "Balance (SOL)"; "Transactions (count)"] ->
  normalize_filters f !! k = Some (FRange lo (Some hi)) ->
  (hi < 0)%Q ->
  strategy_matches f (parse_message_fields text) (get_age_minutes now message_date)
  = false.
Proof.
  intros Hk Hf Hhi.
  destruct (signals_not_negative text now message_date) as [H1 [H2 [H3 H4]]].
  rewrite strategy_matches_source_order, passed_eval_in_order.
  simpl in Hk. destruct Hk as [<-|[<-|[<-|[<-|[]]]]].
  - apply (forallb_false_of _ _ CAge); [simpl; tauto|].
    cbn [run_check]. unfold token_age_passes. rewrite Hf.
    destruct lo as [low|]; [|reflexivity]. cbn [passed].
    assert (Q_between low (get_age_minutes now message_date) hi = false) as ->;
      [|reflexivity].
    unfold Q_between. apply andb_false_iff. right.
    destruct (Qle_bool (get_age_minutes now message_date) hi) eqn:E; [|reflexivity].
    apply Qle_bool_iff in E. lra.
  - apply (forallb_false_of _ _ CFirstBuy); [simpl; tauto|].
    simpl. rewrite Hf. now rewrite below_zero_excludes.
  - apply (forallb_false_of _ _ CBalance); [simpl; tauto|].
    simpl. rewrite Hf. now rewrite below_zero_excludes.
  - apply (forallb_false_of _ _ CTx); [simpl; tauto|].
    simpl. rewrite Hf. now rewrite below_zero_excludes.
Qed.

Lemma range_below_zero_never_matches_witness :
  strategy_matches below_zero_balance (parse_message_fields "Balance: 3 SOL")
    (get_age_minutes 60 0) = false.
Proof.
  apply (range_below_zero_never_matches below_zero_balance "Balance: 3 SOL" 60 0
           "Balance (SOL)" (Some (-5)%Q) (-1)%Q).
  - simpl. tauto.
  - vm_compute. reflexivity.
  - reflexivity.
Defined.

(** X25: the label filter follows the two phrases that
    [parse_message_fields] looks for, without regard to case.  A strategy
    with the label 'Dev Has Enough Money' passes the label check exactly on
    the texts that contain that phrase; one with 'Dev Wallet Empty' passes
    exactly on the texts that contain its phrase and not the other one,
    which takes precedence; a label filter with any other text than these
    two and 'Any' passes on no message. *)
Theorem label_filter_follows_the_phrases (text : string) :
  let detected := label (parse_message_fields text) in
  let lower := Py.lower text in
  label_filter_passes (Some (FStr "Dev Has Enough Money")) detected
  = Py.contains "dev has enough money" lower
  /\ label_filter_passes (Some (FStr "Dev Wallet Empty")) detected
     = Py.contains "dev wallet empty" lower
       && negb (Py.contains "dev has enough money" lower)
  /\ (forall l, l <> "" -> l <> "Any" ->
                l <> "Dev Has Enough Money" -> l <> "Dev Wallet Empty" ->
                label_filter_passes (Some (FStr l)) detected = false).
Proof.
  cbv zeta. unfold parse_message_fields.
  destruct text as [|c t]; cbn [Py.is_empty].
  - split; [reflexivity|]. split; [reflexivity|].
    intros l H1 H2 _ _. unfold label_filter_passes, fval_truthy, fval_is_str.
    destruct l as [|a l]; [congruence|]. cbn [Py.is_empty negb orb label].
    apply String.eqb_neq in H2. now rewrite H2.
  - cbn [label].
    destruct (Py.contains "dev has enough money" (Py.lower (String c t))).
    + split; [reflexivity|]. split; [now rewrite andb_false_r|].
      intros l H1 H2 H3 _. unfold label_filter_passes, fval_truthy, fval_is_str.
      destruct l as [|a l]; [congruence|]. cbn [Py.is_empty negb orb].
      apply String.eqb_neq in H2, H3. now rewrite H2, H3.
    + destruct (Py.contains "dev wallet empty" (Py.lower (String c t))).
      * split; [reflexivity|]. split; [reflexivity|].
        intros l H1 H2 _ H4. unfold label_filter_passes, fval_truthy, fval_is_str.
        destruct l as [|a l]; [congruence|]. cbn [Py.is_empty negb orb].
        apply String.eqb_neq in H2, H4. now rewrite H2, H4.
      * split; [reflexivity|]. split; [reflexivity|].
        intros l H1 H2 _ _. unfold label_filter_passes, fval_truthy, fval_is_str.
        destruct l as [|a l]; [congruence|]. cbn [Py.is_empty negb orb].
        apply String.eqb_neq in H2. now rewrite H2.
Qed.

Lemma label_filter_follows_the_phrases_witness :
  label_filter_passes (Some (FStr "Dev Sold"))
    (label (parse_message_fields "DEV WALLET EMPTY, dev has enough money")) = false.
Proof.
  apply (label_filter_follows_the_phrases "DEV WALLET EMPTY, dev has enough money");
    intros H; discriminate H.
Defined.

(** ** Durations as the builder shows them *)

Lemma int_str_pos p : int_str (Z.pos p) = NilEmpty.string_of_uint (Pos.to_uint p).
Proof.
  unfold int_str. cbn [Z.to_int NilZero.string_of_int]. unfold NilZero.string_of_uint.
  pose proof (Unsigned.to_uint_nonnil p) as H.
  now destruct (Pos.to_uint p).
Qed.

Lemma digits_val_uint u : forall acc,
  Py.digits_val acc (NilEmpty.string_of_uint u) = uval acc u.
Proof.
  induction u; intros acc; cbn [NilEmpty.string_of_uint Py.digits_val uval];
    [reflexivity|..]; now rewrite IHu.
Qed.

Lemma string_of_uint_digits u :
  Py.forallb_str Py.is_digit (NilEmpty.string_of_uint u) = true.
Proof. induction u; simpl; auto. Qed.

Lemma uval_of_uint_acc u : forall acc,
  Z.pos (Pos.of_uint_acc u acc) = uval (Z.pos acc) u.
Proof.
  induction u; intros acc; cbn [Pos.of_uint_acc uval]; [reflexivity|..];
    rewrite IHu; f_equal; lia.
Qed.

Lemma uval_of_uint u : uval 0 u = Z.of_N (Pos.of_uint u).
Proof.
  induction u; cbn [Pos.of_uint uval]; [reflexivity|exact IHu|..];
    cbn [Z.of_N]; rewrite uval_of_uint_acc; reflexivity.
Qed.

Lemma digits_val_int_str p : Py.digits_val 0 (int_str (Z.pos p)) = Z.pos p.
Proof.
  rewrite int_str_pos, digits_val_uint, uval_of_uint, Unsigned.of_to. reflexivity.
Qed.

Lemma int_str_digits p : Py.forallb_str Py.is_digit (int_str (Z.pos p)) = true.
Proof. rewrite int_str_pos. apply string_of_uint_digits. Qed.

Lemma int_str_nonempty p : exists c r, int_str (Z.pos p) = String c r.
Proof.
  rewrite int_str_pos. pose proof (Unsigned.to_uint_nonnil p) as H.
  destruct (Pos.to_uint p); try congruence; simpl; eauto.
Qed.

(** A greedy repetition of a class reads the whole run of the class when
    the rest of the pattern matches after it. *)
Lemma star_class_loop (q : ascii -> bool) r k e : forall a n pv p gs,
  Py.forallb_str q a = true -> stops q r ->
  (String.length a <= n)%nat ->
  k (Re.St (last_char pv a) r (p + String.length a) gs) = Some e ->
  (fix loop (n : nat) (s : Re.st) {struct n} : option Re.st :=
     match n with
     | O => k s
     | S n' =>
         match Re.run (Re.Chr q) s (fun s' =>
                  if (String.length (Re.rest s') <? String.length (Re.rest s))%nat
                  then loop n' s' else None) with
         | Some e => Some e
         | None => k s
         end
     end) n (Re.St pv (a ++ r) p gs) = Some e.
Proof.
  induction a as [|c a IH]; intros n pv p gs Ha Hr Hn Hk.
  - cbn [String.append String.length last_char] in *.
    rewrite Nat.add_0_r in Hk.
    destruct n as [|n]; [exact Hk|]. cbn [Re.run Re.rest].
    destruct r as [|c r]; [exact Hk|]. simpl in Hr. now rewrite Hr.
  - cbn [String.append String.length last_char Py.forallb_str] in *.
    apply andb_true_iff in Ha as [Hc Ha].
    destruct n as [|n]; [lia|]. cbn [Re.run Re.rest Re.pos Re.grps].
    rewrite Hc.
    assert ((String.length (a ++ r) <? String.length (String c (a ++ r)))%nat = true)
      as -> by (apply Nat.ltb_lt; simpl; lia).
    match goal with
    | |- match ?X with _ => _ end = _ =>
        assert (HX : X = Some e);
        [apply (IH n (Some c) (S p) gs Ha Hr); [lia|]|now rewrite HX]
    end.
    now replace (S p + String.length a)%nat with (p + S (String.length a))%nat by lia.
Qed.

Lemma star_class_greedy (q : ascii -> bool) a r k e pv p gs :
  Py.forallb_str q a = true -> stops q r ->
  k (Re.St (last_char pv a) r (p + String.length a) gs) = Some e ->
  Re.run (Re.Star (Re.Chr q)) (Re.St pv (a ++ r) p gs) k = Some e.
Proof.
  intros Ha Hr Hk.
  apply (star_class_loop q r k e a (String.length (a ++ r)) pv p gs Ha Hr); [|exact Hk].
  rewrite string_length_app. lia.
Qed.

Lemma unit_char_cases u :
  unit_char u = true -> u = "s"%char \/ u = "m"%char \/ u = "h"%char \/ u = "d"%char.
Proof.
  unfold unit_char. intros H.
  repeat (apply orb_true_iff in H as [H|H]); apply Ascii.eqb_eq in H; auto.
Qed.

Lemma unit_char_other u :
  unit_char u = true ->
  Py.is_digit u = false /\ Py.is_space u = false /\ Ascii.eqb "." u = false
  /\ Py.is_upper u = false.
Proof.
  intros H. apply unit_char_cases in H as [-> | [-> | [-> | ->]]]; repeat split; reflexivity.
Qed.

Lemma substring_one c r : String.substring 0 1 (String c r) = String c "".
Proof. simpl. now destruct r. Qed.

(** A count followed by a unit letter at the start of the text is a
    duration token, whatever follows. *)
Lemma duration_token_match c ds u r pv p :
  Py.forallb_str Py.is_digit (String c ds) = true -> unit_char u = true ->
  exists m,
    Re.match_at duration_token_re pv p (String c ds ++ String u r) = Some m
    /\ Re.m_start m = p
    /\ Re.m_end m = (p + String.length (String c ds) + 1)%nat
    /\ Re.group 1 m = String c ds /\ Re.group 2 m = String u "".
Proof.
  intros Hd Hu. destruct (unit_char_other u Hu) as [Hud [Hus [Hup _]]].
  cbn [Py.forallb_str] in Hd. apply andb_true_iff in Hd as [Hc Hd].
  set (e := Re.St (Some u) r (S (p + String.length (String c ds)))
              [(2%nat, String u ""); (1%nat, String c ds)]).
  assert (Hrun : Re.run duration_token_re (Re.St pv (String c ds ++ String u r) p [])
                   Some = Some e).
  { unfold duration_token_re, number_re, Re.Plus, Re.Opt, Re.digit, Re.ws.
    rewrite run_seq, run_grp, !run_seq.
    cbn [Re.run Re.rest Re.pos Re.grps String.append]. rewrite Hc.
    apply (star_class_greedy Py.is_digit ds (String u r)); [exact Hd|exact Hud|].
    cbn [Re.run Re.rest Re.pos Re.grps Re.prev Re.chr]. rewrite Hup.
    apply (star_class_greedy Py.is_space "" (String u r)); [reflexivity|exact Hus|].
    cbn [Re.run Re.rest Re.pos Re.grps Re.prev last_char String.length]. rewrite Hu.
    unfold e. f_equal. f_equal; [cbn [String.length]; lia|].
    f_equal; [f_equal|].
    - replace (S (S p + String.length ds + 0) - (S p + String.length ds + 0))%nat
        with 1%nat by lia. apply substring_one.
    - do 2 f_equal.
      replace (S p + String.length ds - p)%nat with (String.length (String c ds))
        by (cbn [String.length]; lia).
      apply (substring_app_prefix (String c ds)). }
  unfold Re.match_at. rewrite Hrun. eexists. split; [reflexivity|].
  unfold e. cbn [Re.m_start Re.m_end Re.pos Re.grps]. repeat split. lia.
Qed.

Lemma scan_skip r : forall a pv p R,
  Re.scan r (String.length a) pv p (a ++ R)
  = Re.scan r 0 (last_char pv a) (p + String.length a) R.
Proof.
  induction a as [|c a IH]; intros pv p R.
  - cbn [String.length String.append last_char]. now rewrite Nat.add_0_r.
  - cbn [String.length String.append last_char Re.scan]. rewrite IH.
    f_equal. lia.
Qed.

Lemma no_token_at_space pv p t :
  Re.match_at duration_token_re pv p (String " " t) = None.
Proof. reflexivity. Qed.

Lemma no_token_at_end pv p : Re.match_at duration_token_re pv p "" = None.
Proof. reflexivity. Qed.

Lemma int_str_shape x :
  0 < x ->
  exists c ds, int_str x = String c ds
               /\ Py.forallb_str Py.is_digit (String c ds) = true.
Proof.
  intros Hx. destruct x as [|px|px]; try lia.
  destruct (int_str_nonempty px) as [c [ds E]]. exists c, ds.
  split; [exact E|]. rewrite <- E. apply int_str_digits.
Qed.

Lemma render_parts_cons x u ps :
  render_parts ((x, u) :: ps)
  = int_str x ++ String u match ps with
                          | [] => ""
                          | _ => String " " (render_parts ps)
                          end.
Proof.
  unfold render_parts, duration_part. cbn [map String.concat].
  destruct ps as [|q qs]; [reflexivity|].
  cbn [map]. rewrite string_app_assoc. reflexivity.
Qed.

(** The tokens that [re.finditer] finds in a shown duration are its parts. *)
Lemma scan_parts : forall parts pv p,
  Forall part_ok parts ->
  map token_groups (Re.scan duration_token_re 0 pv p (render_parts parts))
  = map (fun '(x, u) => (int_str x, String u "")) parts.
Proof.
  induction parts as [|[x u] ps IH]; intros pv p Hok.
  - reflexivity.
  - inversion Hok as [|? ? [Hx Hu] Hps]; subst. cbn [fst snd] in *.
    rewrite render_parts_cons.
    destruct (int_str_shape x Hx) as [c [ds [Ex Hd]]]. rewrite Ex.
    set (R := match ps with [] => "" | _ => String " " (render_parts ps) end).
    destruct (duration_token_match c ds u R pv p Hd Hu) as [m [Hm [Hs [He [G1 G2]]]]].
    change (String c ds ++ String u R) with (String c (ds ++ String u R)) in *.
    cbn [Re.scan]. rewrite Hm. cbn [map]. f_equal.
    + unfold token_groups. now rewrite G1, G2, Ex.
    + rewrite Hs, He.
      replace (p + String.length (String c ds) + 1 - p - 1)%nat
        with (String.length (ds ++ String u "")) 
        by (rewrite string_length_app; cbn [String.length]; lia).
      replace (ds ++ String u R) with ((ds ++ String u "") ++ R)
        by (now rewrite string_app_assoc).
      rewrite scan_skip. unfold R. destruct ps as [|q qs].
      * reflexivity.
      * cbn [Re.scan]. rewrite no_token_at_space. now apply IH.
Qed.

Lemma split_dot_digits s :
  Py.forallb_str Py.is_digit s = true -> Py.split_dot s = (s, None).
Proof.
  induction s as [|c r IH]; [reflexivity|]. cbn [Py.forallb_str Py.split_dot].
  intros H. apply andb_true_iff in H as [Hc Hr].
  assert (Ascii.eqb c "." = false) as ->.
  { destruct (Ascii.eqb_spec c "."%char) as [->|]; [discriminate Hc|reflexivity]. }
  now rewrite IH.
Qed.

(** [float] of the decimal text of a positive integer. *)
Lemma float_int_str x :
  0 < x -> exists q, Py.float (int_str x) = Some q /\ (q == inject_Z x)%Q.
Proof.
  intros Hx. destruct (int_str_shape x Hx) as [c [ds [Ex Hd]]].
  destruct x as [|px|px]; try lia.
  pose proof (digits_val_int_str px) as Hv. rewrite Ex in *.
  assert (Hc : Py.is_digit c = true).
  { cbn [Py.forallb_str] in Hd. now apply andb_true_iff in Hd as [Hc _]. }
  rewrite (float_of_digit_start c ds Hc). unfold Py.unsigned_float.
  rewrite (split_dot_digits _ Hd), Hd, string_app_empty, Hv.
  cbn [Py.forallb_str Py.is_empty andb negb String.length].
  eexists. split; [reflexivity|]. rewrite Qred_correct. reflexivity.
Qed.

Lemma fold_parts : forall ms parts acc acc',
  Forall part_ok parts ->
  map token_groups ms = map (fun '(x, u) => (int_str x, String u "")) parts ->
  (acc == acc')%Q ->
  (fold_left add_duration_token ms acc
   == fold_left (fun total '(x, u) => (total + inject_Z x * unit_minutes u)%Q)
        parts acc')%Q.
Proof.
  induction ms as [|m ms IH]; intros [|[x u] ps] acc acc' Hok Hmap Hacc;
    try discriminate Hmap; [exact Hacc|].
  inversion Hok as [|? ? [Hx Hu] Hps]; subst. cbn [fst snd] in *.
  cbn [map] in Hmap. unfold token_groups at 1 in Hmap. injection Hmap as G1 G2 Hmap.
  cbn [fold_left]. apply IH; [exact Hps|exact Hmap|].
  unfold add_duration_token. rewrite G1, G2.
  destruct (float_int_str x Hx) as [q [-> Hq]].
  apply unit_char_cases in Hu as [-> | [-> | [-> | ->]]];
    cbn; rewrite Hacc, Hq; field.
Qed.

Lemma fold_parts_grows : forall parts acc,
  Forall part_ok parts ->
  (acc <= fold_left (fun total '(x, u) => (total + inject_Z x * unit_minutes u)%Q)
            parts acc)%Q
  /\ (parts <> [] ->
      (acc < fold_left (fun total '(x, u) => (total + inject_Z x * unit_minutes u)%Q)
               parts acc)%Q).
Proof.
  induction parts as [|[x u] ps IH]; intros acc Hok.
  - split; [apply Qle_refl|congruence].
  - inversion Hok as [|? ? [Hx Hu] Hps]; subst. cbn [fst snd fold_left] in *.
    assert (Hstep : (acc < acc + inject_Z x * unit_minutes u)%Q).
    { assert (0 < inject_Z x)%Q by (unfold Qlt; simpl; lia).
      assert (0 < unit_minutes u)%Q
        by (apply unit_char_cases in Hu as [-> | [-> | [-> | ->]]]; reflexivity).
      assert (0 < inject_Z x * unit_minutes u)%Q by (apply Qmult_lt_0_compat; auto).
      lra. }
    destruct (IH (acc + inject_Z x * unit_minutes u)%Q Hps) as [Hle _].
    split; [|intros _]; lra.
Qed.

Lemma shown_char_plain c :
  shown_char c = true -> Py.is_upper c = false.
Proof.
  destruct c as [[] [] [] [] [] [] [] []]; intros H;
    try reflexivity; discriminate H.
Qed.

Lemma lower_shown s :
  Py.forallb_str shown_char s = true -> Py.lower s = s.
Proof.
  unfold Py.lower. induction s as [|c r IH]; [reflexivity|].
  cbn [Py.forallb_str Py.map_str]. intros H. apply andb_true_iff in H as [Hc Hr].
  assert (Py.lower_char c = c) as ->
    by (unfold Py.lower_char; now rewrite (shown_char_plain c Hc)).
  now rewrite IH.
Qed.

Lemma rstrip_ends a u :
  Py.is_space u = false -> Py.rstrip (a ++ String u "") = a ++ String u "".
Proof.
  intros Hu. induction a as [|c a IH].
  - cbn [String.append Py.rstrip]. now rewrite Hu.
  - cbn [String.append Py.rstrip]. rewrite IH. now destruct a.
Qed.

Lemma forallb_str_weaken (p q : ascii -> bool) s :
  (forall c, p c = true -> q c = true) ->
  Py.forallb_str p s = true -> Py.forallb_str q s = true.
Proof.
  intros Hpq. induction s as [|c r IH]; [auto|]. cbn [Py.forallb_str].
  intros H. apply andb_true_iff in H as [Hc Hr]. now rewrite (Hpq c Hc), IH.
Qed.

(** A shown duration starts with a digit, ends with a unit letter and
    holds digits, unit letters and single spaces only. *)
Lemma render_parts_shape : forall parts,
  parts <> [] -> Forall part_ok parts ->
  (exists c r, render_parts parts = String c r /\ Py.is_digit c = true)
  /\ (exists a u, render_parts parts = a ++ String u "" /\ unit_char u = true)
  /\ Py.forallb_str shown_char (render_parts parts) = true.
Proof.
  induction parts as [|[x u] ps IH]; intros Hne Hok; [congruence|].
  inversion Hok as [|? ? [Hx Hu] Hps]; subst. cbn [fst snd] in *.
  rewrite render_parts_cons.
  destruct (int_str_shape x Hx) as [c [ds [Ex Hd]]]. rewrite Ex.
  assert (Hsd : Py.forallb_str shown_char (String c ds) = true).
  { revert Hd. apply forallb_str_weaken. intros a Ha. unfold shown_char. now rewrite Ha. }
  assert (Hsu : shown_char u = true).
  { unfold shown_char. rewrite Hu. now rewrite orb_true_r. }
  split; [|split].
  - exists c, (ds ++ String u match ps with [] => "" | _ => String " " (render_parts ps) end).
    split; [reflexivity|]. cbn [Py.forallb_str] in Hd.
    now apply andb_true_iff in Hd as [Hc _].
  - destruct ps as [|q qs].
    + exists (String c ds), u. auto.
    + destruct (IH ltac:(discriminate) Hps) as [_ [[a [u' [Ea Hu']]] _]].
      exists (String c ds ++ String u (String " " a)), u'. split; [|exact Hu'].
      rewrite Ea, string_app_assoc. reflexivity.
  - apply forallb_str_app; [exact Hsd|]. cbn [Py.forallb_str]. rewrite Hsu.
    destruct ps as [|q qs]; [reflexivity|].
    destruct (IH ltac:(discriminate) Hps) as [_ [_ Hs]].
    cbn [Py.forallb_str andb]. exact Hs.
Qed.

Lemma number_consumes : consumes digit_or_dot number_re /\ groups_in digit_or_dot number_re.
Proof.
  unfold number_re, Re.Plus, Re.Opt, Re.digit, Re.chr. cbn [consumes groups_in].
  repeat split; auto; intros c H; unfold digit_or_dot; try (now rewrite H);
    apply Ascii.eqb_eq in H as <-; reflexivity.
Qed.

(** A text that ends with a unit letter is not a bare number. *)
Lemma unit_text_is_not_a_number a u :
  unit_char u = true -> Re.fullmatch number_re (a ++ String u "") = false.
Proof.
  intros Hu. unfold Re.fullmatch.
  destruct (Re.run number_re _ _) as [e|] eqn:E; [|reflexivity]. exfalso.
  destruct number_consumes as [Hc Hg].
  apply (run_trace digit_or_dot number_re Hg) in E
    as [s' [pre [Hk [Hrest [_ [Hpre _]]]]]].
  destruct (Re.rest s') eqn:Er; [|discriminate Hk]. cbn [Re.rest] in Hrest.
  rewrite string_app_empty in Hrest. specialize (Hpre Hc). rewrite <- Hrest in Hpre.
  apply forallb_str_app_inv in Hpre as [_ Hpre]. cbn [Py.forallb_str] in Hpre.
  apply andb_true_iff in Hpre as [Hpre _]. unfold digit_or_dot in Hpre.
  destruct (unit_char_other u Hu) as [Hd [_ [Hp _]]]. rewrite Hd in Hpre.
  rewrite Ascii.eqb_sym in Hp. rewrite Hp in Hpre. discriminate Hpre.
Qed.

Lemma parse_rendered (parts : list (Z * ascii)) :
  parts <> [] -> Forall part_ok parts ->
  _parse_duration_to_minutes (render_parts parts) = Some (Qred (minutes_of parts)).
Proof.
  intros Hne Hok.
  destruct (render_parts_shape parts Hne Hok) as [[c [r [Ec Hc]]] [[a [u [Ea Hu]]] Hs]].
  destruct (unit_char_other u Hu) as [_ [Hus _]].
  unfold _parse_duration_to_minutes.
  assert (Hstrip : Py.lower (Py.strip (render_parts parts)) = render_parts parts).
  { unfold Py.strip.
    assert (Py.lstrip (render_parts parts) = render_parts parts) as ->.
    { rewrite Ec. cbn [Py.lstrip].
      destruct (Py.is_space c) eqn:Esp; [|reflexivity].
      destruct c as [[] [] [] [] [] [] [] []]; discriminate. }
    rewrite Ea at 1. rewrite (rstrip_ends a u Hus), <- Ea. now apply lower_shown. }
  rewrite Hstrip. rewrite Ec at 1. cbn [Py.is_empty].
  rewrite Ea at 1. rewrite (unit_text_is_not_a_number a u Hu).
  unfold Re.finditer.
  pose proof (scan_parts parts None O Hok) as Hscan.
  set (ms := Re.scan duration_token_re 0 None 0 (render_parts parts)) in *.
  pose proof (fold_parts ms parts 0%Q 0%Q Hok Hscan (Qeq_refl 0)) as Hfold.
  fold (minutes_of parts) in Hfold.
  destruct (fold_parts_grows parts 0%Q Hok) as [_ Hpos]. specialize (Hpos Hne).
  fold (minutes_of parts) in Hpos.
  assert (negb (List.length ms =? 0)%nat = true) as ->.
  { apply (f_equal (@List.length _)) in Hscan. rewrite !length_map in Hscan.
    rewrite Hscan. destruct parts; [congruence|reflexivity]. }
  assert (Qpositive (fold_left add_duration_token ms 0%Q) = true) as ->.
  { unfold Qpositive. apply negb_true_iff.
    destruct (Qle_bool _ 0) eqn:E; [|reflexivity].
    apply Qle_bool_iff in E. rewrite Hfold in E. lra. }
  cbn [andb]. f_equal. apply Qred_complete. exact Hfold.
Qed.



Lemma fmt_shown v :
  0 < py_round (v * 60) ->
  _fmt_minutes_human (Some v)
  = match shown_parts (py_round (v * 60)) with
    | [] => "0m"
    | parts => render_parts parts
    end.
Proof.
  intros Hs. unfold _fmt_minutes_human, shown_parts.
  assert ((py_round (v * 60) <=? 0) = false) as -> by (apply Z.leb_gt; exact Hs).
  cbv zeta. cbn [List.filter fst].
  destruct (_ / 86400 =? 0); destruct (_ / 3600 =? 0); destruct (_ / 60 =? 0);
    destruct (_ mod 60 =? 0); reflexivity.
Qed.

Lemma shown_parts_ok secs :
  0 < secs ->
  shown_parts secs <> [] /\ Forall part_ok (shown_parts secs)
  /\ (minutes_of (shown_parts secs) == shown_minutes secs)%Q.
Proof.
  intros Hs. unfold shown_parts, shown_minutes, minutes_of. cbv zeta.
  cbn [List.filter fst].
  set (d := secs / 86400). set (h := secs mod 86400 / 3600).
  set (m := secs mod 86400 mod 3600 / 60). set (s := secs mod 86400 mod 3600 mod 60).
  assert (Hd : 0 <= d /\ 0 <= h /\ 0 <= m /\ 0 <= s
               /\ secs = d * 86400 + h * 3600 + m * 60 + s
               /\ h < 24 /\ m < 60 /\ s < 60
               /\ secs / 60 = d * 1440 + h * 60 + m).
  { unfold d, h, m, s. Z.to_euclidean_division_equations. lia. }
  destruct Hd as [Hd [Hh [Hm [Hsec [Hsum [Hh' [Hm' [Hs' Hdiv]]]]]]]].
  assert (Hunit : forall x (u : ascii), 0 < x -> unit_char u = true -> part_ok (x, u))
    by (intros x u Hx Hu; split; assumption).
  destruct (d =? 0) eqn:Ed; destruct (h =? 0) eqn:Eh; destruct (m =? 0) eqn:Em;
    destruct (s =? 0) eqn:Es; destruct (secs <? 60) eqn:El;
    cbn [negb fold_left];
    rewrite ?Z.eqb_eq, ?Z.eqb_neq, ?Z.ltb_lt, ?Z.ltb_ge in *;
    try lia;
    (split; [discriminate|]; split;
     [repeat (constructor; [apply Hunit; [lia|reflexivity]|]); constructor|]);
    try rewrite Hdiv; unfold Qeq, unit_minutes; cbn; lia.
Qed.

(** X27: what the builder shows for a duration reads back as the shown
    duration.  For every value that rounds to at least one second,
    [_fmt_minutes_human] yields a text that [_parse_duration_to_minutes]
    accepts, with the result that the text stands for: the rounded seconds
    below one minute, the whole minutes from there on (seconds are not
    shown next to a larger unit).  In particular the text is neither
    'Not set' nor the fallback '0m', which is never produced. *)
Theorem shown_duration_reads_back (v : Q) :
  0 < py_round (v * 60) ->
  _parse_duration_to_minutes (_fmt_minutes_human (Some v))
  = Some (Qred (shown_minutes (py_round (v * 60))))
  /\ _fmt_minutes_human (Some v) <> "Not set"
  /\ _fmt_minutes_human (Some v) <> "0m".
Proof.
  intros Hs.
  destruct (shown_parts_ok (py_round (v * 60)) Hs) as [Hne [Hok Hmin]].
  assert (Hparse : _parse_duration_to_minutes (_fmt_minutes_human (Some v))
                   = Some (Qred (shown_minutes (py_round (v * 60))))).
  { rewrite (fmt_shown v Hs).
    destruct (shown_parts (py_round (v * 60))) as [|part parts] eqn:E; [congruence|].
    rewrite parse_rendered by assumption. f_equal. now apply Qred_complete. }
  split; [exact Hparse|].
  split; intros E; rewrite E in Hparse; discriminate Hparse.
Qed.

Lemma shown_duration_reads_back_witness :
  _parse_duration_to_minutes (_fmt_minutes_human (Some (181 # 2)))
  = Some (Qred (shown_minutes (py_round ((181 # 2) * 60))))
  /\ _fmt_minutes_human (Some (181 # 2)) <> "Not set"
  /\ _fmt_minutes_human (Some (181 # 2)) <> "0m".
Proof.
  apply (shown_duration_reads_back (181 # 2)). reflexivity.
Defined.

(** ** The identity of a listing *)

Lemma string_app_inj (p a b : string) : p ++ a = p ++ b -> a = b.
Proof.
  induction p as [|c p IH]; cbn [String.append]; [auto|].
  intros H. injection H as H. now apply IH.
Qed.

Lemma dedupe_key_of_address t a :
  extract_token_address t = Some a -> _dedupe_key_for t = "token:" ++ a.
Proof. unfold _dedupe_key_for. now intros ->. Qed.

(** X28: listings that hold a token address are told apart by the address
    alone.  The key of a text with an address equals the key of another
    text exactly when that text holds the same address, so a message
    without an address, or with another one, is never taken for it: if its
    own key is not in the cache, it is not a duplicate right after the
    first listing has been recorded. *)
Theorem listings_are_told_apart_by_address
    (t1 t2 a : string) (now1 now2 : Q) (cache : gmap string Q) :
  extract_token_address t1 = Some a ->
  (_dedupe_key_for t1 = _dedupe_key_for t2 <-> extract_token_address t2 = Some a)
  /\ (extract_token_address t2 <> Some a ->
      cache !! _dedupe_key_for t2 = None ->
      fst (_is_duplicate now2 t2 (snd (_is_duplicate now1 t1 cache))) = false).
Proof.
  intros H1.
  assert (Hiff : _dedupe_key_for t1 = _dedupe_key_for t2
                 <-> extract_token_address t2 = Some a).
  { rewrite (dedupe_key_of_address t1 a H1). unfold _dedupe_key_for. split.
    - destruct (extract_token_address t2) as [b|].
      + intros H. apply string_app_inj in H. now subst.
      + intros H. discriminate H.
    - now intros ->. }
  split; [exact Hiff|]. intros Hother Hnone.
  apply is_duplicate_fresh.
  rewrite is_duplicate_cache. cbv zeta.
  assert (Hswept : filter (fun kv : string * Q => live now1 kv.2 = true) cache
                   !! _dedupe_key_for t2 = None).
  { apply map_lookup_filter_None. now left. }
  destruct (fst (_is_duplicate now1 t1 cache)); [exact Hswept|].
  rewrite lookup_insert_ne; [exact Hswept|].
  intros E. apply Hiff in E. contradiction.
Qed.

Lemma listings_are_told_apart_by_address_witness :
  fst (_is_duplicate 1 lower_address (snd (_is_duplicate 0 upper_address ∅))) = false.
Proof.
  refine (proj2 (listings_are_told_apart_by_address upper_address lower_address
                   upper_address 0 1 ∅ _) _ _).
  - vm_compute. reflexivity.
  - vm_compute. intros H. discriminate H.
  - vm_compute. reflexivity.
Defined.
